(** * openapi-mcp-server: the operation-to-tool converter and the dispatcher

    A shallow embedding of [converter.ts] (schema translation, tool naming,
    tool catalogue) and of [handlers.ts] (operation index, CallTool handler),
    followed by the properties of the design document that concern them.

    Conventions of the embedding.
    - A JavaScript string is a [string]; each [ascii] stands for one code
      unit, and the functions that inspect characters (the regular
      expression [[^a-zA-Z0-9_]], [trim], [toLowerCase]) work code unit by
      code unit, as they do in the source.  The strings of the model are
      those whose code units lie in U+0000..U+00FF; on these
      [encodeURIComponent] does not throw (it throws for a lone surrogate
      only).
    - An optional property ([x?: T]) is an [option]; a truthiness test
      [if (x)] is written out with the [truthy] functions below.
    - An object that the code enumerates with [for ... in] is an association
      list of its own properties in enumeration order; an object or [Map]
      that is only read by key is a [gmap] of its own properties.  The
      objects that the code fills by assignment ([properties[k] = v]) follow
      the rules of the language: keys that are array indices come first, in
      ascending order, the other keys follow in insertion order, and an
      assignment to [__proto__] sets the prototype and adds no key.  A read
      [args[k]] of the argument bag goes through the prototype chain, so it
      finds what every object inherits ([constructor], [toString], ...).
    - [console.warn] and [console.error] only write diagnostics and are left
      out.
    - A library call is a function of its arguments, and it may throw.
      [String(v)] throws a [TypeError] for an object that has a key
      [toString] of its own; [headers.set] throws a [TypeError] for a name
      or a value that the [Headers] class rejects, and which ones it rejects
      is a parameter of the dispatcher, as are the network ([fetch]), the
      JSON printers and the calls that the source wraps in [try]
      ([JSON.stringify] of the request body, [response.text()],
      [JSON.parse]). *)

From Stdlib Require Import NArith Ascii String List Bool Lia DecimalString.
From stdpp Require Import base option list strings gmap fin_maps.

Set Warnings "-register-all".

Local Open Scope string_scope.
Local Open Scope list_scope.

(** ** JavaScript strings *)

Module Js.

(** Code unit of a character, as a number. *)
Definition code (c : ascii) : N := N_of_ascii c.

Definition between (lo hi : N) (c : ascii) : bool :=
  ((lo <=? code c) && (code c <=? hi))%N.

(** The class [[a-zA-Z0-9_]] of the two regular expressions. *)
Definition isWordChar (c : ascii) : bool :=
  between 97 122 c || between 65 90 c || between 48 57 c || (code c =? 95)%N.

(** A string is truthy when it is not empty. *)
Definition truthyString (s : string) : bool :=
  match s with EmptyString => false | String _ _ => true end.

(** [o || ''] for an optional string. *)
Definition orEmpty (o : option string) : string :=
  match o with Some s => s | None => "" end.

(** Truthiness of an optional string: defined and not empty. *)
Definition truthyOpt (o : option string) : bool := truthyString (orEmpty o).

(** [s.replace(/[^a-zA-Z0-9_]/g, '_')]. *)
Fixpoint replaceNonWord (s : string) : string :=
  match s with
  | EmptyString => EmptyString
  | String c s' => String (if isWordChar c then c else "_"%char) (replaceNonWord s')
  end.

(** [s.split('_')]: the pieces between underscores; the empty string splits
    into one empty piece. *)
Fixpoint split_underscore (s : string) : list string :=
  match s with
  | EmptyString => [EmptyString]
  | String c s' =>
      if (code c =? 95)%N then EmptyString :: split_underscore s'
      else match split_underscore s' with
           | piece :: pieces => String c piece :: pieces
           | [] => [String c EmptyString]
           end
  end.

(** [parts.join(sep)]. *)
Fixpoint join (sep : string) (parts : list string) : string :=
  match parts with
  | [] => ""
  | [p] => p
  | p :: rest => p +:+ sep +:+ join sep rest
  end.

(** [toLowerCase] on the code units U+0000..U+00FF: the Latin capital
    letters A-Z and U+00C0..U+00DE (but the multiplication sign U+00D7) move
    up by 32. *)
Definition lowerChar (c : ascii) : ascii :=
  if between 65 90 c || (between 192 222 c && negb (code c =? 215)%N)
  then ascii_of_N (code c + 32) else c.

Fixpoint toLowerCase (s : string) : string :=
  match s with
  | EmptyString => EmptyString
  | String c s' => String (lowerChar c) (toLowerCase s')
  end.

(** [toUpperCase], used by the source only on method keys that passed the
    [HttpMethods] test, which are lower-case ASCII words. *)
Definition upperChar (c : ascii) : ascii :=
  if between 97 122 c then ascii_of_N (code c - 32) else c.

Fixpoint toUpperCase (s : string) : string :=
  match s with
  | EmptyString => EmptyString
  | String c s' => String (upperChar c) (toUpperCase s')
  end.

(** White space of [trim] among the code units U+0000..U+00FF: tab, line
    feed, vertical tab, form feed, carriage return, space, no-break space. *)
Definition isSpace (c : ascii) : bool :=
  between 9 13 c || (code c =? 32)%N || (code c =? 160)%N.

Fixpoint trimStart (s : string) : string :=
  match s with
  | EmptyString => EmptyString
  | String c s' => if isSpace c then trimStart s' else s
  end.

Fixpoint trimEnd (s : string) : string :=
  match s with
  | EmptyString => EmptyString
  | String c s' =>
      match trimEnd s' with
      | EmptyString => if isSpace c then EmptyString else String c EmptyString
      | t => String c t
      end
  end.

Definition trim (s : string) : string := trimEnd (trimStart s).

(** The number a string of decimal digits writes, continuing from [acc]. *)
Fixpoint digitsValue (acc : N) (s : string) : option N :=
  match s with
  | EmptyString => Some acc
  | String c s' =>
      if between 48 57 c then digitsValue (acc * 10 + (code c - 48))%N s' else None
  end.

(** A property key is an array index when it is the canonical numeral of an
    integer from 0 to 2^32 - 2: [0], or digits without a leading zero. *)
Definition arrayIndex (k : string) : option N :=
  match k with
  | EmptyString => None
  | String c rest =>
      if (code c =? 48)%N && truthyString rest then None
      else match digitsValue 0 k with
           | Some n => if (n <=? 4294967294)%N then Some n else None
           | None => None
           end
  end.

End Js.

(** ** Tool names ([converter.ts], [generateToolName]) *)

(** The fallback name of an operation without identifier:
    [`${method.toLowerCase()}_${pathParts.join('_')}`]. *)
Definition fallbackName (method path : string) : string :=
  let pathParts :=
    filter (fun p => Js.truthyString p = true)
           (Js.split_underscore (Js.replaceNonWord path)) in
  Js.toLowerCase method +:+ "_" +:+ Js.join "_" pathParts.

Definition generateToolName (method path : string) (operationId : option string)
  : string :=
  match operationId with
  | Some id =>
      if Js.truthyString id then Js.replaceNonWord id
      else fallbackName method path
  | None => fallbackName method path
  end.

(** The name as [buildOperationMap] recomputes it ([handlers.ts], lines
    52-56): the optional call [operationId?.replace(...)], then the fallback
    when the result is falsy. *)
Definition regeneratedToolName (method path : string)
    (operationId : option string) : string :=
  let toolName := Js.replaceNonWord <$> operationId in
  if Js.truthyOpt toolName then Js.orEmpty toolName
  else fallbackName method path.

(** ** JSON values *)

(** The values a JSON document or an argument bag can hold.  No function
    below computes with a number: it is only printed and tested for
    truthiness, so a number is held as the text that [String] gives for it
    ([3], [-5], [0.5], [1e+21], [NaN], [Infinity]), which names the number up
    to the sign of zero.  [VBuiltin] is a function or an object of the
    language, which no JSON text holds but which a read through the prototype
    chain can find; it is held as the text that [String] gives for it. *)
Inductive Value : Type :=
  | VNull
  | VBool (b : bool)
  | VNumber (text : string)
  | VString (s : string)
  | VArray (elems : list Value)
  | VObject (fields : list (string * Value))
  | VBuiltin (text : string).

Module Json.

(** Truthiness of a value ([if (v)]). *)
Definition truthy (v : Value) : bool :=
  match v with
  | VNull => false
  | VBool b => b
  | VNumber text => negb (String.eqb text "0") && negb (String.eqb text "NaN")
  | VString s => Js.truthyString s
  | VArray _ | VObject _ | VBuiltin _ => true
  end.

Definition truthyOpt (o : option Value) : bool :=
  match o with Some v => truthy v | None => false end.

(** Whether [String(v)] returns.  The conversion of an object calls its
    [toString] method and then its [valueOf] method, and throws a [TypeError]
    when neither gives a primitive value: an object with a key [toString] of
    its own, which in an object read from JSON is no function, hides the
    inherited method, and the inherited [valueOf] returns the object itself.
    The conversion of an array converts its elements. *)
Fixpoint convertible (v : Value) : bool :=
  match v with
  | VArray elems => forallb convertible elems
  | VObject fields => negb (existsb (fun kv => String.eqb (fst kv) "toString") fields)
  | _ => true
  end.

(** What [String(v)] returns when it returns: a string is itself, an array
    is its elements joined by commas with [null] printed as nothing, any
    other object is [[object Object]]. *)
Fixpoint toString (v : Value) : string :=
  match v with
  | VNull => "null"
  | VBool true => "true"
  | VBool false => "false"
  | VNumber text => text
  | VString s => s
  | VArray elems =>
      Js.join "," (map (fun e => match e with VNull => "" | _ => toString e end) elems)
  | VObject _ => "[object Object]"
  | VBuiltin text => text
  end.

End Json.

(** ** Plain objects *)

(** The own properties of an object, in the order in which [for ... in],
    [Object.keys] and [JSON.stringify] enumerate them: the keys that are array
    indices in ascending order, then the other keys in insertion order. *)

(** The value of an own property. *)
Fixpoint objGet {A : Type} (k : string) (o : list (string * A)) : option A :=
  match o with
  | [] => None
  | (k', v') :: rest => if String.eqb k' k then Some v' else objGet k rest
  end.

Definition hasOwn {A : Type} (k : string) (o : list (string * A)) : bool :=
  existsb (fun e => String.eqb (fst e) k) o.

(** A new key that is the array index [n] goes before the first key that is
    no smaller index. *)
Fixpoint insertIndex {A : Type} (n : N) (k : string) (v : A) (o : list (string * A))
  : list (string * A) :=
  match o with
  | [] => [(k, v)]
  | (k', v') :: rest =>
      match Js.arrayIndex k' with
      | Some m =>
          if (m <? n)%N then (k', v') :: insertIndex n k v rest
          else (k, v) :: (k', v') :: rest
      | None => (k, v) :: (k', v') :: rest
      end
  end.

(** The assignment [o[k] = v] of an object [v] to a property of an object
    that was created by [{}].  The key [__proto__] is the accessor inherited
    from [Object.prototype]: the assignment makes [v] the prototype of [o]
    and gives [o] no property.  For any other key the assignment replaces
    the value of the own property in place, or adds the property. *)
Definition objSet {A : Type} (k : string) (v : A) (o : list (string * A))
  : list (string * A) :=
  if String.eqb k "__proto__" then o
  else if hasOwn k o
       then map (fun e => if String.eqb (fst e) k then (fst e, v) else e) o
       else match Js.arrayIndex k with
            | Some n => insertIndex n k v o
            | None => o ++ [(k, v)]
            end.

Module PlainObject.

(** A built-in function, as V8 prints it (engines differ in the white space
    of this text). *)
Definition nativeFunction (name : string) : Value :=
  VBuiltin ("function " +:+ name +:+ "() { [native code] }").

(** What an object created by [{}] or read from JSON inherits from
    [Object.prototype]: eleven functions, and under [__proto__] the
    prototype itself. *)
Definition prototype : list (string * Value) :=
  [("constructor", nativeFunction "Object");
   ("__defineGetter__", nativeFunction "__defineGetter__");
   ("__defineSetter__", nativeFunction "__defineSetter__");
   ("hasOwnProperty", nativeFunction "hasOwnProperty");
   ("__lookupGetter__", nativeFunction "__lookupGetter__");
   ("__lookupSetter__", nativeFunction "__lookupSetter__");
   ("isPrototypeOf", nativeFunction "isPrototypeOf");
   ("propertyIsEnumerable", nativeFunction "propertyIsEnumerable");
   ("toString", nativeFunction "toString");
   ("valueOf", nativeFunction "valueOf");
   ("__proto__", VBuiltin "[object Object]");
   ("toLocaleString", nativeFunction "toLocaleString")].

Definition inherited (k : string) : option Value := objGet k prototype.

(** The read [o[k]] of an object given by its own properties: the own
    property, else the inherited one, else [undefined]. *)
Definition get (o : gmap string Value) (k : string) : option Value :=
  match o !! k with
  | Some v => Some v
  | None => inherited k
  end.

End PlainObject.

(** ** Schema nodes *)

(** OpenAPI side: a reference, or a schema object with the fields the
    translator reads. *)
Inductive Schema : Type :=
  | SchemaRef (ref : string)
  | SchemaObject
      (type : option string)
      (format : option string)
      (description : option string)
      (enum : option (list Value))
      (items : option Schema)
      (properties : option (list (string * option Schema)))
      (required : option (list string))
      (default : option Value).

Definition schemaDescription (s : Schema) : option string :=
  match s with
  | SchemaRef _ => None
  | SchemaObject _ _ description _ _ _ _ _ => description
  end.

Definition schemaDefault (s : Schema) : option Value :=
  match s with
  | SchemaRef _ => None
  | SchemaObject _ _ _ _ _ _ _ default => default
  end.

Definition schemaType (s : Schema) : option string :=
  match s with
  | SchemaRef _ => None
  | SchemaObject type _ _ _ _ _ _ _ => type
  end.

Definition schemaFormat (s : Schema) : option string :=
  match s with
  | SchemaRef _ => None
  | SchemaObject _ format _ _ _ _ _ _ => format
  end.

(** JSON Schema side ([JSONSchema7]); a key set to [undefined] reads as an
    absent key. *)
Inductive JSONSchema7 : Type := mkJSONSchema7 {
  js_type : option string;
  js_contentEncoding : option string;
  js_description : option string;
  js_enum : option (list Value);
  js_items : option JSONSchema7;
  js_properties : option (list (string * JSONSchema7));
  js_required : option (list string);
  js_default : option Value
}.

(** The schema [{}]. *)
Definition emptySchema : JSONSchema7 :=
  mkJSONSchema7 None None None None None None None None.

Definition setType (v : option string) (j : JSONSchema7) : JSONSchema7 :=
  mkJSONSchema7 v (js_contentEncoding j) (js_description j) (js_enum j)
    (js_items j) (js_properties j) (js_required j) (js_default j).
Definition setContentEncoding (v : option string) (j : JSONSchema7) : JSONSchema7 :=
  mkJSONSchema7 (js_type j) v (js_description j) (js_enum j)
    (js_items j) (js_properties j) (js_required j) (js_default j).
Definition setDescription (v : option string) (j : JSONSchema7) : JSONSchema7 :=
  mkJSONSchema7 (js_type j) (js_contentEncoding j) v (js_enum j)
    (js_items j) (js_properties j) (js_required j) (js_default j).
Definition setEnum (v : option (list Value)) (j : JSONSchema7) : JSONSchema7 :=
  mkJSONSchema7 (js_type j) (js_contentEncoding j) (js_description j) v
    (js_items j) (js_properties j) (js_required j) (js_default j).
Definition setItems (v : option JSONSchema7) (j : JSONSchema7) : JSONSchema7 :=
  mkJSONSchema7 (js_type j) (js_contentEncoding j) (js_description j) (js_enum j)
    v (js_properties j) (js_required j) (js_default j).
Definition setProperties (v : option (list (string * JSONSchema7))) (j : JSONSchema7)
  : JSONSchema7 :=
  mkJSONSchema7 (js_type j) (js_contentEncoding j) (js_description j) (js_enum j)
    (js_items j) v (js_required j) (js_default j).
Definition setRequired (v : option (list string)) (j : JSONSchema7) : JSONSchema7 :=
  mkJSONSchema7 (js_type j) (js_contentEncoding j) (js_description j) (js_enum j)
    (js_items j) (js_properties j) v (js_default j).
Definition setDefault (v : option Value) (j : JSONSchema7) : JSONSchema7 :=
  mkJSONSchema7 (js_type j) (js_contentEncoding j) (js_description j) (js_enum j)
    (js_items j) (js_properties j) (js_required j) v.

(** ** Schema translator ([converter.ts], [openApiSchemaToJsonSchema]) *)

Definition binaryNote : string := " (Note: Binary content expected as base64 string)".

(** [format === 'byte' || format === 'binary'] *)
Definition isBinaryFormat (format : option string) : bool :=
  match format with
  | Some f => String.eqb f "byte" || String.eqb f "binary"
  | None => false
  end.

(** The [case 'string'] branch of the switch. *)
Definition stringCase (format description : option string)
    (enum : option (list Value)) (j : JSONSchema7) : JSONSchema7 :=
  let j := setType (Some "string") j in
  let j :=
    if isBinaryFormat format then
      let j := setContentEncoding
                 (if String.eqb (Js.orEmpty format) "byte" then Some "base64" else None) j in
      setDescription (Some (Js.trim (Js.orEmpty description +:+ binaryNote))) j
    else j in
  match enum with
  | Some e => setEnum (Some e) j
  | None => j
  end.

(** The two statements after the switch (lines 94-99). *)
Definition carryDescriptionAndDefault (description : option string)
    (default : option Value) (j : JSONSchema7) : JSONSchema7 :=
  let j :=
    if Js.truthyOpt description then
      setDescription
        (if Js.truthyOpt (js_description j) then js_description j else description) j
    else j in
  if Json.truthyOpt default then setDefault default j else j.

(** The translation of a node that is present. *)
Fixpoint translateNode (oaSchema : Schema) : JSONSchema7 :=
  match oaSchema with
  | SchemaRef _ => emptySchema
  | SchemaObject type format description enum items properties required default =>
      let jsSchema := emptySchema in
      let jsSchema :=
        if Js.truthyOpt type then
          let t := Js.orEmpty type in
          if String.eqb t "integer" then setType (Some "integer") jsSchema
          else if String.eqb t "number" then setType (Some "number") jsSchema
          else if String.eqb t "string" then stringCase format description enum jsSchema
          else if String.eqb t "boolean" then setType (Some "boolean") jsSchema
          else if String.eqb t "array" then
            let jsSchema := setType (Some "array") jsSchema in
            match items with
            | Some i => setItems (Some (translateNode i)) jsSchema
            | None => jsSchema
            end
          else if String.eqb t "object" then
            let jsSchema := setType (Some "object") jsSchema in
            let jsSchema :=
              match properties with
              | Some props =>
                  setProperties
                    (Some ((fix each (ps : list (string * option Schema))
                                (acc : list (string * JSONSchema7)) :=
                              match ps with
                              | [] => acc
                              | (propName, Some p) :: rest =>
                                  each rest (objSet propName (translateNode p) acc)
                              | (propName, None) :: rest => each rest acc
                              end) props []))
                    jsSchema
              | None => jsSchema
              end in
            match required with
            | Some r => setRequired (Some r) jsSchema
            | None => jsSchema
            end
          else jsSchema
        else jsSchema in
      carryDescriptionAndDefault description default jsSchema
  end.

(** [openApiSchemaToJsonSchema]: an absent node gives [undefined]. *)
Definition openApiSchemaToJsonSchema (oaSchema : option Schema) : option JSONSchema7 :=
  translateNode <$> oaSchema.

(** ** The API document *)

(** A [$ref] that the parser left in place; only its target is kept. *)
Definition ReferenceObject : Type := string.

Record ParameterObject : Type := mkParameter {
  param_name : string;
  param_in : string;
  param_required : bool;            (* an absent flag reads as [false] *)
  param_description : option string;
  param_schema : option Schema
}.

Record MediaTypeObject : Type := mkMediaType {
  media_schema : option Schema
}.

Record RequestBodyObject : Type := mkRequestBody {
  body_description : option string;
  body_content : option (gmap string MediaTypeObject);
  body_required : bool              (* an absent flag reads as [false] *)
}.

Record OperationObject : Type := mkOperation {
  operationId : option string;
  summary : option string;
  op_description : option string;
  parameters : option (list (ReferenceObject + ParameterObject));
  requestBody : option (ReferenceObject + RequestBodyObject)
}.

(** A path item in enumeration order of its keys.  The value under a key that
    is not an HTTP method (summary, parameters, ...) is never read as an
    operation; the value under a method key may be undefined. *)
Definition PathItemObject : Type := list (string * option OperationObject).

Record Document : Type := mkDocument {
  paths : option (list (string * option PathItemObject))
}.

(** [Object.values(OpenAPIV3.HttpMethods)], from the [openapi-types]
    package. *)
Definition HttpMethods : list string :=
  ["get"; "put"; "post"; "delete"; "options"; "head"; "patch"; "trace"].

Definition isHttpMethod (method : string) : bool :=
  existsb (String.eqb method) HttpMethods.

(** ** Tool catalogue ([converter.ts], [convertOpenAPIToMcTools]) *)

Record Tool : Type := mkTool {
  name : string;
  description : string;
  inputSchema : JSONSchema7
}.

(** [required.push(x)] on the required list of the input schema. *)
Definition pushRequired (x : string) (j : JSONSchema7) : JSONSchema7 :=
  setRequired (Some (default [] (js_required j) ++ [x])) j.

(** [properties[k] = v] on the properties of the input schema. *)
Definition setProperty (k : string) (v : JSONSchema7) (j : JSONSchema7) : JSONSchema7 :=
  setProperties (Some (objSet k v (default [] (js_properties j)))) j.

(** Body of the loop over [operation.parameters] (lines 156-176). *)
Definition addParameter (inputSchema : JSONSchema7)
    (param : ReferenceObject + ParameterObject) : JSONSchema7 :=
  match param with
  | inl _ => inputSchema
  | inr param =>
      match openApiSchemaToJsonSchema (param_schema param) with
      | None => inputSchema
      | Some paramSchema =>
          let paramSchema :=
            if Js.truthyOpt (param_description param)
               && negb (Js.truthyOpt (js_description paramSchema))
            then setDescription (param_description param) paramSchema
            else paramSchema in
          let paramSchema :=
            setDescription
              (Some (Js.trim (Js.orEmpty (js_description paramSchema)
                              +:+ " (in: " +:+ param_in param +:+ ")")))
              paramSchema in
          let inputSchema := setProperty (param_name param) paramSchema inputSchema in
          if param_required param then pushRequired (param_name param) inputSchema
          else inputSchema
      end
  end.

(** The request body part (lines 180-206). *)
Definition addRequestBody (inputSchema : JSONSchema7)
    (body : option (ReferenceObject + RequestBodyObject)) : JSONSchema7 :=
  match body with
  | None | Some (inl _) => inputSchema
  | Some (inr requestBody) =>
      let jsonContent := body_content requestBody ≫= (.!! "application/json") in
      match jsonContent ≫= media_schema with
      | Some schema =>
          let requestBodySchema := translateNode schema in
          let requestBodySchema :=
            if negb (Js.truthyOpt (js_description requestBodySchema)) then
              setDescription
                (Some (if Js.truthyOpt (body_description requestBody)
                       then Js.orEmpty (body_description requestBody)
                       else "The request body (JSON)"))
                requestBodySchema
            else requestBodySchema in
          let inputSchema := setProperty "requestBody" requestBodySchema inputSchema in
          if body_required requestBody then pushRequired "requestBody" inputSchema
          else inputSchema
      | None => inputSchema
      end
  end.

(** [if (inputSchema.required?.length === 0) delete inputSchema.required]. *)
Definition dropEmptyRequired (inputSchema : JSONSchema7) : JSONSchema7 :=
  match js_required inputSchema with
  | Some [] => setRequired None inputSchema
  | _ => inputSchema
  end.

(** The input schema assembled for one operation. *)
Definition buildInputSchema (operation : OperationObject) : JSONSchema7 :=
  let inputSchema :=
    setRequired (Some []) (setProperties (Some []) (setType (Some "object") emptySchema)) in
  let inputSchema :=
    match parameters operation with
    | Some params => fold_left addParameter params inputSchema
    | None => inputSchema
    end in
  let inputSchema := addRequestBody inputSchema (requestBody operation) in
  dropEmptyRequired inputSchema.

(** [summary || description || `Perform ${METHOD} on ${path}`]. *)
Definition toolDescription (method path : string) (operation : OperationObject) : string :=
  if Js.truthyOpt (summary operation) then Js.orEmpty (summary operation)
  else if Js.truthyOpt (op_description operation) then Js.orEmpty (op_description operation)
  else "Perform " +:+ Js.toUpperCase method +:+ " on " +:+ path.

(** The tool pushed by one turn of the inner loop (lines 145-223). *)
Definition toolOfOperation (path method : string) (operation : OperationObject) : Tool :=
  {| name := generateToolName method path (operationId operation);
     description := toolDescription method path operation;
     inputSchema := buildInputSchema operation |}.

(** The two nested loops, threading the array [tools]. *)
Definition convertPathItem (path : string) (tools : list Tool)
    (pathItem : PathItemObject) : list Tool :=
  fold_left
    (fun tools '(method, operation) =>
       if negb (isHttpMethod method) then tools
       else match operation with
            | None => tools
            | Some operation => tools ++ [toolOfOperation path method operation]
            end)
    pathItem tools.

Definition convertOpenAPIToMcTools (apiSpec : Document) : list Tool :=
  match paths apiSpec with
  | None => []
  | Some paths =>
      fold_left
        (fun tools '(path, pathItem) =>
           match pathItem with
           | None => tools
           | Some pathItem => convertPathItem path tools pathItem
           end)
        paths []
  end.

(** The scenario of the design document: [GET /pets/{id}], identifier
    [showPetById], one required integer path parameter. *)
Definition petById : OperationObject :=
  {| operationId := Some "showPetById"; summary := None; op_description := None;
     parameters :=
       Some [inr {| param_name := "id"; param_in := "path"; param_required := true;
                    param_description := None;
                    param_schema :=
                      Some (SchemaObject (Some "integer") None None None None None None None) |}];
     requestBody := None |}.

Definition petStore : Document :=
  {| paths := Some [("/pets/{id}", Some [("get", Some petById)])] |}.

(** ** Operation index ([handlers.ts], [buildOperationMap]) *)

Record ToolOperationMapping : Type := mkMapping {
  m_path : string;
  m_method : string;
  m_operation : OperationObject;
  m_toolDefinition : Tool
}.

(** [new Map(tools.map(t => [t.name, t]))]: entries are inserted from left
    to right, so a later tool replaces an earlier one of the same name. *)
Definition toolMapByName (tools : list Tool) : gmap string Tool :=
  fold_left (fun m t => <[name t := t]> m) tools ∅.

(** One turn of the inner loop (lines 44-68). *)
Definition indexOperation (byName : gmap string Tool) (path : string)
    (map : gmap string ToolOperationMapping)
    (entry : string * option OperationObject) : gmap string ToolOperationMapping :=
  let '(method, operation) := entry in
  if negb (isHttpMethod method) then map
  else match operation with
       | None => map
       | Some operation =>
           let toolName := regeneratedToolName method path (operationId operation) in
           match byName !! toolName with
           | Some toolDefinition =>
               <[toolName := {| m_path := path; m_method := method;
                                m_operation := operation;
                                m_toolDefinition := toolDefinition |}]> map
           | None => map
           end
       end.

Definition buildOperationMap (apiSpec : Document) (tools : list Tool)
  : gmap string ToolOperationMapping :=
  match paths apiSpec with
  | None => ∅
  | Some paths =>
      let byName := toolMapByName tools in
      fold_left
        (fun map '(path, pathItem) =>
           match pathItem with
           | None => map
           | Some pathItem => fold_left (indexOperation byName path) pathItem map
           end)
        paths ∅
  end.

(** The answer of the ListTools handler ([createListToolsHandler]): the
    list it was created with, as it is. *)
Definition createListToolsHandler (tools : list Tool) : list Tool := tools.

(** ** The HTTP collaborators of the dispatcher *)

Module Http.

Definition hexDigit (n : N) : ascii :=
  if (n <? 10)%N then ascii_of_N (48 + n) else ascii_of_N (55 + n).

(** [%XX] for one byte. *)
Definition percent (b : N) : string :=
  String "%" (String (hexDigit (b / 16)) (String (hexDigit (b mod 16)) EmptyString)).

(** UTF-8 bytes of one code unit of U+0000..U+00FF. *)
Definition utf8 (c : ascii) : list N :=
  let n := Js.code c in
  if (n <? 128)%N then [n] else [192 + n / 64; 128 + n mod 64]%N.

Definition percentEncode (keep : ascii -> bool) (c : ascii) : string :=
  if keep c then String c EmptyString
  else fold_right (fun b acc => percent b +:+ acc) "" (utf8 c).

Fixpoint encodeWith (enc : ascii -> string) (s : string) : string :=
  match s with
  | EmptyString => EmptyString
  | String c s' => enc c +:+ encodeWith enc s'
  end.

Definition isAlphaNum (c : ascii) : bool :=
  Js.between 97 122 c || Js.between 65 90 c || Js.between 48 57 c.

(** [encodeURIComponent]: letters, digits and [- _ . ! ~ * ' ( )] are kept. *)
Definition uriUnreserved (c : ascii) : bool :=
  isAlphaNum c
  || existsb (N.eqb (Js.code c)) [45; 95; 46; 33; 126; 42; 39; 40; 41]%N.

Definition encodeURIComponent (s : string) : string :=
  encodeWith (percentEncode uriUnreserved) s.

(** The [application/x-www-form-urlencoded] serializer of
    [URLSearchParams.toString]: letters, digits and [* - . _] are kept, a
    space becomes [+]. *)
Definition formKeep (c : ascii) : bool :=
  isAlphaNum c || existsb (N.eqb (Js.code c)) [42; 45; 46; 95]%N.

Definition formEncodeChar (c : ascii) : string :=
  if (Js.code c =? 32)%N then "+" else percentEncode formKeep c.

Definition formEncode (s : string) : string := encodeWith formEncodeChar s.

(** [URLSearchParams]: the list of name-value pairs. *)
Definition URLSearchParams : Type := list (string * string).

Definition append (name value : string) (q : URLSearchParams) : URLSearchParams :=
  q ++ [(name, value)].

(** [set]: the first pair of that name takes the value and the other pairs
    of that name are removed; without such a pair, the pair is appended. *)
Fixpoint set (name value : string) (q : URLSearchParams) : URLSearchParams :=
  match q with
  | [] => [(name, value)]
  | (n, v) :: rest =>
      if String.eqb n name
      then (n, value) :: List.filter (fun e => negb (String.eqb (fst e) name)) rest
      else (n, v) :: set name value rest
  end.

Definition toString (q : URLSearchParams) : string :=
  Js.join "&" (map (fun '(n, v) => formEncode n +:+ "=" +:+ formEncode v) q).

(** The pairs of a given name, in order. *)
Definition getAll (name : string) (q : URLSearchParams) : list string :=
  map snd (List.filter (fun e => String.eqb (fst e) name) q).

(** [Headers]: names are case-insensitive and kept in lower case (the
    letters A-Z only). *)
Definition Headers : Type := gmap string string.

Definition lowerAscii (c : ascii) : ascii :=
  if Js.between 65 90 c then ascii_of_N (Js.code c + 32) else c.

Fixpoint lowerName (s : string) : string :=
  match s with
  | EmptyString => EmptyString
  | String c s' => String (lowerAscii c) (lowerName s')
  end.

Definition setHeader (name value : string) (h : Headers) : Headers :=
  <[lowerName name := value]> h.

Record Request : Type := mkRequest {
  req_method : string;
  req_url : string;
  req_headers : Headers;
  req_body : option string
}.

(** The result of a library call that may throw: the value, or the message
    of the error. *)
Inductive Try (A : Type) : Type :=
  | Ok (a : A)
  | Failed (message : string).
Arguments Ok {A} a.
Arguments Failed {A} message.

Record Response : Type := mkResponse {
  status : N;
  statusText : string;
  resp_headers : Headers;
  text : Try string            (* what [await response.text()] gives *)
}.

(** [response.ok]: the status is in the range 200-299. *)
Definition ok (r : Response) : bool := ((200 <=? status r) && (status r <=? 299))%N.

End Http.

(** [s.includes(sub)] and [s.replace(pattern, replacement)] with a string
    pattern (first occurrence only). *)
Fixpoint dropString (n : nat) (s : string) : string :=
  match n, s with
  | S n', String _ s' => dropString n' s'
  | _, _ => s
  end.

Fixpoint includes (sub s : string) : bool :=
  String.prefix sub s
  || match s with
     | EmptyString => false
     | String _ s' => includes sub s'
     end.

Fixpoint replaceFirst (pattern replacement s : string) : string :=
  if String.prefix pattern s
  then replacement +:+ dropString (String.length pattern) s
  else match s with
       | EmptyString => EmptyString
       | String c s' => String c (replaceFirst pattern replacement s')
       end.

(** Every character of the string passes the test. *)
Fixpoint allChars (test : ascii -> bool) (s : string) : bool :=
  match s with
  | EmptyString => true
  | String c s' => test c && allChars test s'
  end.

(** ** Dispatch ([handlers.ts], [createCallToolHandler]) *)

Inductive ErrorCode : Type := MethodNotFound | InvalidParams | InternalError.

(** What the handler can throw: an [McpError] with its code and message, a
    plain [Error], or the [TypeError] of a conversion or of the [Headers]
    class, whose message is the engine's or the library's. *)
Inductive Exception : Type :=
  | McpError (code : ErrorCode) (message : string)
  | Error (message : string)
  | TypeError.

(** Outcome of a computation that either returns or throws. *)
Inductive Completion (A : Type) : Type :=
  | Return (a : A)
  | Throw (e : Exception).
Arguments Return {A} a.
Arguments Throw {A} e.

Definition bind {A B : Type} (c : Completion A) (k : A -> Completion B) : Completion B :=
  match c with
  | Return a => k a
  | Throw e => Throw e
  end.

Notation "x <- c ;; k" := (bind c (fun x => k))
  (at level 100, c at next level, right associativity).

Record CallToolRequest : Type := mkCall {
  call_name : string;
  call_arguments : option (gmap string Value)
}.

Record TextContent : Type := mkText { tc_text : string }.

Record CallToolResult : Type := mkResult {
  content : list TextContent;
  isError : bool
}.

(** The request under construction: [processedPath], [queryParams],
    [headers]. *)
Record Placement : Type := mkPlacement {
  processedPath : string;
  queryParams : Http.URLSearchParams;
  headers : Http.Headers
}.

Definition missingParameter (paramName toolName : string) : Exception :=
  McpError InvalidParams
    ("Missing required parameter '" +:+ paramName +:+ "' for tool '" +:+ toolName +:+ "'.").

Definition missingRequestBody (toolName : string) : Exception :=
  McpError InvalidParams ("Missing required requestBody for tool '" +:+ toolName +:+ "'.").

Definition stringifyFailed (toolName message : string) : Exception :=
  McpError InvalidParams
    ("Failed to stringify requestBody for tool '" +:+ toolName +:+ "': " +:+ message).

Definition unsupportedContentType (toolName : string) : Exception :=
  McpError InvalidParams
    ("Unsupported request body content type for tool '" +:+ toolName
     +:+ "'. Only application/json is supported.").

Definition toolNotFound (toolName : string) : Exception :=
  McpError MethodNotFound ("Tool '" +:+ toolName +:+ "' not found.").

Definition requestFailed (message : string) : Exception :=
  McpError InternalError ("API request failed: " +:+ message).

(** The module variable [operationMap] after [createCallToolHandler] ran: it
    is built only when it is still [null]. *)
Definition createCallToolHandler (operationMap : option (gmap string ToolOperationMapping))
    (apiSpec : Document) (tools : list Tool) : option (gmap string ToolOperationMapping) :=
  match operationMap with
  | Some m => Some m
  | None => Some (buildOperationMap apiSpec tools)
  end.

(** [String(v)]: the string, or the [TypeError] of the conversion. *)
Definition stringOf (v : Value) : Completion string :=
  if Json.convertible v then Return (Json.toString v) else Throw TypeError.

(** [argValue.forEach(val => queryParams.append(name, String(val)))] *)
Fixpoint appendEach (name : string) (elems : list Value) (q : Http.URLSearchParams)
  : Completion Http.URLSearchParams :=
  match elems with
  | [] => Return q
  | val :: rest =>
      text <- stringOf val ;;
      appendEach name rest (Http.append name text q)
  end.

Section Dispatch.

(** The collaborators outside the repository.  [headerValue name value] is
    what the [Headers] class of [node-fetch] stores when [headers.set(name,
    value)] is called with the name and the string form of an argument, or
    nothing when the call throws its [TypeError] (a name that is no token, a
    value with a character that is not allowed); the two calls that the
    source makes with literal arguments ([Accept] and [Content-Type], both
    [application/json]) store the literal.
    The others are [JSON.stringify] of the request body, the network
    ([fetch], whose answer may be a rejection),
    [JSON.stringify(JSON.parse(text), null, 2)] (nothing when the text does
    not parse) and the rendering of the response headers. *)
Variable headerValue : string -> string -> option string.
Variable JSON_stringify : Value -> Http.Try string.
Variable fetch : Http.Request -> Http.Try Http.Response.
Variable prettyPrint : string -> option string.
Variable headersJson : Http.Headers -> string.

(** The [switch (param.in)] of lines 159-181.  In each case the argument of
    the call is evaluated first, so a conversion that throws leaves nothing
    placed; the replacement string of [replace] comes from
    [encodeURIComponent] and so holds no [$]. *)
Definition place (param : ParameterObject) (argValue : Value) (st : Placement)
  : Completion Placement :=
  let n := param_name param in
  if String.eqb (param_in param) "path" then
    text <- stringOf argValue ;;
    Return (mkPlacement
              (replaceFirst ("{" +:+ n +:+ "}") (Http.encodeURIComponent text)
                 (processedPath st))
              (queryParams st) (headers st))
  else if String.eqb (param_in param) "query" then
    match argValue with
    | VArray elems =>
        q <- appendEach n elems (queryParams st) ;;
        Return (mkPlacement (processedPath st) q (headers st))
    | _ =>
        text <- stringOf argValue ;;
        Return (mkPlacement (processedPath st) (Http.set n text (queryParams st))
                  (headers st))
    end
  else if String.eqb (param_in param) "header" then
    text <- stringOf argValue ;;
    match headerValue n text with
    | Some value =>
        Return (mkPlacement (processedPath st) (queryParams st)
                  (Http.setHeader n value (headers st)))
    | None => Throw TypeError
    end
  else Return st.

(** Body of the loop over [operation.parameters] (lines 144-183). *)
Definition processParameter (toolName : string) (args : gmap string Value)
    (st : Placement) (param : ReferenceObject + ParameterObject) : Completion Placement :=
  match param with
  | inl _ => Return st
  | inr param =>
      match PlainObject.get args (param_name param) with
      | None =>
          if param_required param
          then Throw (missingParameter (param_name param) toolName)
          else Return st
      | Some argValue => place param argValue st
      end
  end.

Fixpoint processParameters (toolName : string) (args : gmap string Value)
    (params : list (ReferenceObject + ParameterObject)) (st : Placement)
  : Completion Placement :=
  match params with
  | [] => Return st
  | param :: rest =>
      st <- processParameter toolName args st param ;;
      processParameters toolName args rest st
  end.

(** Request body processing (lines 187-229): the body text and the
    headers. *)
Definition processRequestBody (toolName : string) (args : gmap string Value)
    (operation : OperationObject) (headers : Http.Headers)
  : Completion (option string * Http.Headers) :=
  match requestBody operation with
  | None | Some (inl _) => Return (None, headers)
  | Some (inr requestBody) =>
      match PlainObject.get args "requestBody" with
      | None =>
          if body_required requestBody then Throw (missingRequestBody toolName)
          else Return (None, headers)
      | Some requestBodyArg =>
          match body_content requestBody ≫= (.!! "application/json") with
          | Some _ =>
              let headers := Http.setHeader "Content-Type" "application/json" headers in
              match JSON_stringify requestBodyArg with
              | Http.Ok body => Return (Some body, headers)
              | Http.Failed message => Throw (stringifyFailed toolName message)
              end
          | None => Throw (unsupportedContentType toolName)
          end
      end
  end.

(** Everything the handler does before it calls [fetch] (lines 115-243). *)
Definition prepareRequest (operationMap : option (gmap string ToolOperationMapping))
    (baseUrl : string) (request : CallToolRequest) : Completion Http.Request :=
  let toolName := call_name request in
  let args := default ∅ (call_arguments request) in
  match operationMap with
  | None => Throw (Error "Operation map not initialized")
  | Some operationMap =>
      match operationMap !! toolName with
      | None => Throw (toolNotFound toolName)
      | Some mapping =>
          let st :=
            mkPlacement (m_path mapping) []
              (Http.setHeader "Accept" "application/json" ∅) in
          st <- match parameters (m_operation mapping) with
                | Some params => processParameters toolName args params st
                | None => Return st
                end ;;
          bodyAndHeaders <-
            processRequestBody toolName args (m_operation mapping) (headers st) ;;
          let '(body, headers) := bodyAndHeaders in
          let query := Http.toString (queryParams st) in
          let url :=
            baseUrl +:+ processedPath st
            +:+ (if Js.truthyString query then "?" +:+ query else "") in
          Return (Http.mkRequest (Js.toUpperCase (m_method mapping)) url headers body)
      end
  end.

Definition newline : string := String (ascii_of_N 10) EmptyString.

(** [`${response.status} ${response.statusText}`] *)
Definition statusLine (response : Http.Response) : string :=
  NilZero.string_of_uint (N.to_uint (Http.status response))
  +:+ " " +:+ Http.statusText response.

(** Response processing (lines 260-295). *)
Definition processResponse (response : Http.Response) : CallToolResult :=
  match Http.text response with
  | Http.Failed message =>
      {| content :=
           [mkText ("API call successful (" +:+ statusLine response
                    +:+ ") but failed to read response body: " +:+ message)];
         isError := negb (Http.ok response) |}
  | Http.Ok responseBodyText =>
      let contentType := Http.resp_headers response !! "content-type" in
      let formattedOutput :=
        if Js.truthyOpt contentType
           && includes "application/json" (Js.orEmpty contentType)
           && Js.truthyString responseBodyText
        then default responseBodyText (prettyPrint responseBodyText)
        else responseBodyText in
      let resultText :=
        "Status: " +:+ statusLine response +:+ newline +:+ "Headers:" +:+ newline
        +:+ headersJson (Http.resp_headers response) +:+ newline +:+ newline
        +:+ "Body:" +:+ newline +:+ formattedOutput in
      {| content := [mkText resultText];
         isError := negb (Http.ok response) |}
  end.

(** The handler: its completion, and the HTTP requests it issued. *)
Definition callTool (operationMap : option (gmap string ToolOperationMapping))
    (baseUrl : string) (request : CallToolRequest)
  : Completion CallToolResult * list Http.Request :=
  match prepareRequest operationMap baseUrl request with
  | Throw e => (Throw e, [])
  | Return req =>
      (match fetch req with
       | Http.Failed message => Throw (requestFailed message)
       | Http.Ok response => Return (processResponse response)
       end,
       [req])
  end.

End Dispatch.

(** ** Parser ([parser.ts], [parseOpenAPISpec]) *)

(** What the validator returns: the document, with the value (if any) under
    its [openapi] key. *)
Record ParsedSpec : Type := mkParsedSpec {
  spec_openapi : option Value;
  spec_document : Document
}.

(** [typeof api.openapi === 'string' && api.openapi.startsWith('3.')] *)
Definition isVersion3 (openapi : option Value) : bool :=
  match openapi with
  | Some (VString version) => String.prefix "3." version
  | _ => false
  end.

(** The message of the [TypeError] of a conversion, as V8 words it. *)
Definition cannotConvert : string := "Cannot convert object to primitive value".

(** The message of the error thrown by line 48, or, when the conversion of
    the value in the template throws, the message of that error: both are
    caught by line 54. *)
Definition notVersion3 (openapi : option Value) : string :=
  match openapi with
  | Some v =>
      if Json.convertible v
      then "Parsed specification is not a valid OpenAPI V3 document. Version found: "
           +:+ Json.toString v
      else cannotConvert
  | None =>
      "Parsed specification is not a valid OpenAPI V3 document. Version found: N/A"
  end.

Definition unsupportedExtension (fileExtension : string) : string :=
  "Unsupported file extension: " +:+ fileExtension
  +:+ ". Please use .json, .yaml, or .yml.".

Section Parser.

(** The collaborators outside the repository: the file system, [path.extname],
    the YAML and JSON parsers and [SwaggerParser.validate]; each of the four
    that can fail gives its value or the message of its error. *)
Variable readFileSync : string -> Http.Try string.
Variable extname : string -> string.
Variable yaml_load : string -> Http.Try Value.
Variable JSON_parse : string -> Http.Try Value.
Variable validate : Value -> Http.Try ParsedSpec.

(** The body of the [try] block (lines 21-53). *)
Definition parseBody (filePath : string) : Http.Try ParsedSpec :=
  match readFileSync filePath with
  | Http.Failed message => Http.Failed message
  | Http.Ok fileContent =>
      let fileExtension := Js.toLowerCase (extname filePath) in
      let specObject :=
        if String.eqb fileExtension ".yaml" || String.eqb fileExtension ".yml"
        then yaml_load fileContent
        else if String.eqb fileExtension ".json" then JSON_parse fileContent
        else Http.Failed (unsupportedExtension fileExtension) in
      match specObject with
      | Http.Failed message => Http.Failed message
      | Http.Ok specObject =>
          match validate specObject with
          | Http.Failed message => Http.Failed message
          | Http.Ok api =>
              if isVersion3 (spec_openapi api) then Http.Ok api
              else Http.Failed (notVersion3 (spec_openapi api))
          end
      end
  end.

(** [parseOpenAPISpec]: the [catch] clause wraps the message of any error. *)
Definition parseOpenAPISpec (filePath : string) : Http.Try ParsedSpec :=
  match parseBody filePath with
  | Http.Ok api => Http.Ok api
  | Http.Failed message => Http.Failed ("Failed to parse OpenAPI spec: " +:+ message)
  end.

End Parser.

(** ** The operations the two builders encounter *)

(** Both [convertOpenAPIToMcTools] and [buildOperationMap] walk the document
    with the same two loops and the same three guards; [operations] lists
    the (path, method, operation) triples that reach the loop body, in the
    order of the walk. *)
Definition Encountered : Type := string * string * OperationObject.

Definition operationsOfPathItem (path : string) (pathItem : PathItemObject)
  : list Encountered :=
  flat_map
    (fun '(method, operation) =>
       if negb (isHttpMethod method) then []
       else match operation with
            | None => []
            | Some operation => [(path, method, operation)]
            end)
    pathItem.

Definition operations (apiSpec : Document) : list Encountered :=
  match paths apiSpec with
  | None => []
  | Some paths =>
      flat_map
        (fun '(path, pathItem) =>
           match pathItem with
           | None => []
           | Some pathItem => operationsOfPathItem path pathItem
           end)
        paths
  end.

Definition nameOf (o : Encountered) : string :=
  let '(path, method, operation) := o in
  generateToolName method path (operationId operation).

Definition toolOf (o : Encountered) : Tool :=
  let '(path, method, operation) := o in toolOfOperation path method operation.

(** The index entry that binds an operation to the tool built from it. *)
Definition mappingOf (o : Encountered) : ToolOperationMapping :=
  let '(path, method, operation) := o in
  {| m_path := path; m_method := method; m_operation := operation;
     m_toolDefinition := toolOfOperation path method operation |}.

(** The argument bag of a request. *)
Definition argumentsOf (request : CallToolRequest) : gmap string Value :=
  default ∅ (call_arguments request).

Definition parameterList (operation : OperationObject)
  : list (ReferenceObject + ParameterObject) :=
  default [] (parameters operation).

(** The request under construction when the loop over the parameters
    starts: the raw path, no query pair, the default header. *)
Definition initialPlacement (path : string) : Placement :=
  mkPlacement path [] (Http.setHeader "Accept" "application/json" ∅).

(** A parameter that is not a query parameter of the given name. *)
Definition notQueryNamed (n : string) (param : ReferenceObject + ParameterObject) : Prop :=
  match param with
  | inl _ => True
  | inr q => ~ (param_in q = "query" /\ param_name q = n)
  end.

(** A parameter that puts nothing under the given name in an input schema. *)
Definition noSchemaNamed (n : string) (param : ReferenceObject + ParameterObject) : Prop :=
  match param with
  | inl _ => True
  | inr q => param_name q = n -> param_schema q = None
  end.

Definition withParameters (operation : OperationObject)
    (params : list (ReferenceObject + ParameterObject)) : OperationObject :=
  {| operationId := operationId operation; summary := summary operation;
     op_description := op_description operation; parameters := Some params;
     requestBody := requestBody operation |}.

(** ** Sample documents and collaborators *)

Module Sample.

Definition integerSchema : Schema :=
  SchemaObject (Some "integer") None None None None None None None.

Definition stringSchema : Schema :=
  SchemaObject (Some "string") None None None None None None None.

Definition parameter (n location : string) (required : bool) (schema : option Schema)
  : ReferenceObject + ParameterObject :=
  inr {| param_name := n; param_in := location; param_required := required;
         param_description := None; param_schema := schema |}.

Definition operation (id summary : option string)
    (params : list (ReferenceObject + ParameterObject))
    (body : option (ReferenceObject + RequestBodyObject)) : OperationObject :=
  {| operationId := id; summary := summary; op_description := None;
     parameters := Some params; requestBody := body |}.

(** Two operations that share the identifier [listPets]. *)
Definition listPets : OperationObject := operation (Some "listPets") (Some "All pets") [] None.
Definition listAnimals : OperationObject :=
  operation (Some "listPets") (Some "All animals") [] None.

Definition collidingStore : Document :=
  {| paths := Some [("/pets", Some [("get", Some listPets)]);
                    ("/animals", Some [("get", Some listAnimals)])] |}.

(** An operation with two required query parameters. *)
Definition search : OperationObject :=
  operation (Some "search") None
    [parameter "a" "query" true (Some stringSchema);
     parameter "b" "query" true (Some stringSchema)] None.

Definition searchStore : Document :=
  {| paths := Some [("/search", Some [("get", Some search)])] |}.

(** An operation whose request body is declared as plain text only. *)
Definition upload : OperationObject :=
  operation (Some "upload") None []
    (Some (inr {| body_description := None;
                  body_content := Some {[ "text/plain" := mkMediaType (Some stringSchema) ]};
                  body_required := false |})).

Definition uploadStore : Document :=
  {| paths := Some [("/upload", Some [("post", Some upload)])] |}.

(** [POST /users] without identifier and with an optional JSON body. *)
Definition createUser : OperationObject :=
  operation None None []
    (Some (inr {| body_description := None;
                  body_content :=
                    Some {[ "application/json" :=
                              mkMediaType
                                (Some (SchemaObject (Some "object") None None None None
                                         (Some [("name", Some stringSchema)]) None None)) ]};
                  body_required := false |})).

Definition userStore : Document :=
  {| paths := Some [("/users", Some [("post", Some createUser)])] |}.

(** An operation with a query parameter and a header parameter. *)
Definition findByTags : OperationObject :=
  operation (Some "findByTags") None
    [parameter "tags" "query" false None;
     parameter "limit" "query" false (Some integerSchema);
     parameter "X-Trace" "header" false (Some stringSchema)] None.

Definition tagStore : Document :=
  {| paths := Some [("/pets/findByTags", Some [("get", Some findByTags)])] |}.

(** A required parameter without schema. *)
Definition schemaless : OperationObject :=
  operation (Some "lookup") None
    [parameter "key" "query" true None;
     parameter "verbose" "query" false (Some stringSchema)] None.

Definition schemalessStore : Document :=
  {| paths := Some [("/lookup", Some [("get", Some schemaless)])] |}.

(** The same name declared in two locations, once without schema. *)
Definition twoLocations : OperationObject :=
  operation (Some "twice") None
    [parameter "id" "path" true None;
     parameter "id" "header" true (Some stringSchema)] None.

Definition twoLocationsStore : Document :=
  {| paths := Some [("/items/{id}", Some [("get", Some twoLocations)])] |}.

(** The index of a document, as the first call of [createCallToolHandler]
    leaves it. *)
Definition indexOf (apiSpec : Document) : option (gmap string ToolOperationMapping) :=
  createCallToolHandler None apiSpec (convertOpenAPIToMcTools apiSpec).

Definition call (toolName : string) (args : list (string * Value)) : CallToolRequest :=
  {| call_name := toolName; call_arguments := Some (list_to_map args) |}.

(** The [Headers] class as [node-fetch] has it: a name is accepted when it
    is a token that is not empty, a value when it holds no control character
    other than the tab, and an accepted value is stored as it is. *)
Definition isTokenChar (c : ascii) : bool :=
  Http.isAlphaNum c
  || existsb (N.eqb (Js.code c))
       [33; 35; 36; 37; 38; 39; 42; 43; 45; 46; 94; 95; 96; 124; 126]%N.

Definition isHeaderChar (c : ascii) : bool :=
  (Js.code c =? 9)%N || Js.between 32 126 c || Js.between 128 255 c.

Definition headerValue (name value : string) : option string :=
  if Js.truthyString name && allChars isTokenChar name && allChars isHeaderChar value
  then Some value else None.

(** [JSON.stringify] on the values of the model (a function inside an array
    is printed as [null]). *)
Definition quoteChar : string := String (ascii_of_N 34) EmptyString.
Definition backslash : string := String (ascii_of_N 92) EmptyString.

Definition hexLower (n : N) : ascii :=
  if (n <? 10)%N then ascii_of_N (48 + n) else ascii_of_N (87 + n).

Definition escapeChar (c : ascii) : string :=
  let n := Js.code c in
  if (n =? 34)%N then backslash +:+ quoteChar
  else if (n =? 92)%N then backslash +:+ backslash
  else if (n =? 8)%N then backslash +:+ "b"
  else if (n =? 9)%N then backslash +:+ "t"
  else if (n =? 10)%N then backslash +:+ "n"
  else if (n =? 12)%N then backslash +:+ "f"
  else if (n =? 13)%N then backslash +:+ "r"
  else if (n <? 32)%N then
    backslash +:+ "u00" +:+ String (hexLower (n / 16)) (String (hexLower (n mod 16)) "")
  else String c "".

Definition quote (s : string) : string :=
  quoteChar +:+ Http.encodeWith escapeChar s +:+ quoteChar.

Fixpoint stringify (v : Value) : string :=
  match v with
  | VNull => "null"
  | VBool true => "true"
  | VBool false => "false"
  | VNumber text =>
      if existsb (String.eqb text) ["NaN"; "Infinity"; "-Infinity"] then "null" else text
  | VString s => quote s
  | VArray elems => "[" +:+ Js.join "," (map stringify elems) +:+ "]"
  | VObject fields =>
      "{" +:+ Js.join "," (map (fun '(k, x) => quote k +:+ ":" +:+ stringify x) fields)
      +:+ "}"
  | VBuiltin _ => "null"
  end.

Definition JSON_stringify (v : Value) : Http.Try string := Http.Ok (stringify v).

(** A serializer that rejects every value, as [JSON.stringify] rejects a
    cyclic object. *)
Definition JSON_stringify_throws (v : Value) : Http.Try string :=
  Http.Failed "Converting circular structure to JSON".

(** An upstream that answers every request with the given status and body,
    and one that cannot be reached. *)
Definition answer (status : N) (statusText : string) (text : Http.Try string)
    (req : Http.Request) : Http.Try Http.Response :=
  Http.Ok {| Http.status := status; Http.statusText := statusText;
             Http.resp_headers := {[ "content-type" := "text/plain" ]};
             Http.text := text |}.

Definition unreachable (req : Http.Request) : Http.Try Http.Response :=
  Http.Failed "getaddrinfo ENOTFOUND".

Definition prettyPrint (text : string) : option string := None.

Definition headersJson (h : Http.Headers) : string := "{}".

(** The handler over these collaborators. *)
Definition invoke (fetch : Http.Request -> Http.Try Http.Response)
    (apiSpec : Document) (request : CallToolRequest)
  : Completion CallToolResult * list Http.Request :=
  callTool headerValue JSON_stringify fetch prettyPrint headersJson
    (indexOf apiSpec) "https://api.example.com" request.

(** The request that [showPetById] with [id = 3] leads to. *)
Definition petRequest : Http.Request :=
  {| Http.req_method := "GET";
     Http.req_url := "https://api.example.com/pets/3";
     Http.req_headers := {[ "accept" := "application/json" ]};
     Http.req_body := None |}.

End Sample.

(** ** Further sample inputs *)

Module Sample2.

(** An operation whose JSON request body is required. *)
Definition createOrder : OperationObject :=
  Sample.operation (Some "createOrder") None []
    (Some (inr {| body_description := Some "The order";
                  body_content :=
                    Some {[ "application/json" := mkMediaType (Some Sample.stringSchema) ]};
                  body_required := true |})).

Definition orderStore : Document :=
  {| paths := Some [("/orders", Some [("post", Some createOrder)])] |}.

(** A file system with one YAML file, whose extension is in upper case. *)
Definition readFileSync (filePath : string) : Http.Try string :=
  if String.eqb filePath "/specs/pets.YAML" then Http.Ok "openapi: 3.0.3"
  else Http.Failed "ENOENT: no such file or directory".

Definition extname (filePath : string) : string :=
  if String.eqb filePath "/specs/pets.YAML" then ".YAML" else ".txt".

Definition yaml_load (content : string) : Http.Try Value :=
  Http.Ok (VObject [("openapi", VString "3.0.3")]).

Definition JSON_parse (content : string) : Http.Try Value :=
  Http.Failed "Unexpected token o in JSON at position 0".

Definition validate (specObject : Value) : Http.Try ParsedSpec :=
  Http.Ok {| spec_openapi := Some (VString "3.0.3"); spec_document := petStore |}.

(** A validator that lets a Swagger 2 document through. *)
Definition validateSwagger2 (specObject : Value) : Http.Try ParsedSpec :=
  Http.Ok {| spec_openapi := None; spec_document := petStore |}.

(** An operation with a JSON body whose media type has no schema. *)
Definition attach : OperationObject :=
  Sample.operation (Some "attach") None []
    (Some (inr {| body_description := None;
                  body_content := Some {[ "application/json" := mkMediaType None ]};
                  body_required := false |})).

Definition attachStore : Document :=
  {| paths := Some [("/attach", Some [("put", Some attach)])] |}.

(** An operation with a required query parameter whose name every object
    inherits. *)
Definition describe : OperationObject :=
  Sample.operation (Some "describe") None
    [Sample.parameter "constructor" "query" true (Some Sample.stringSchema)] None.

Definition describeStore : Document :=
  {| paths := Some [("/describe", Some [("get", Some describe)])] |}.

(** An operation with a required parameter named [__proto__] and a
    parameter whose name is an array index. *)
Definition inspect : OperationObject :=
  Sample.operation (Some "inspect") None
    [Sample.parameter "depth" "query" false (Some Sample.integerSchema);
     Sample.parameter "__proto__" "query" true (Some Sample.stringSchema);
     Sample.parameter "0" "query" false (Some Sample.stringSchema)] None.

(** A line feed, and a header value that holds one. *)
Definition lineFeed : string := String (ascii_of_N 10) EmptyString.
Definition twoLines : string := "a" +:+ lineFeed +:+ "b".

End Sample2.

(** ** Notions used in the statements and proofs *)

(** Every character of a sanitized string is in the class. *)
Fixpoint allWordChars (s : string) : bool :=
  match s with
  | EmptyString => true
  | String c s' => Js.isWordChar c && allWordChars s'
  end.

Fixpoint hasNonSpace (s : string) : bool :=
  match s with
  | EmptyString => false
  | String c s' => negb (Js.isSpace c) || hasNonSpace s'
  end.

(** A node is a binary string when its type is [string] and its format is
    [byte] or [binary]. *)
Definition isBinaryString (s : Schema) : bool :=
  match schemaType s with
  | Some t => String.eqb t "string" && isBinaryFormat (schemaFormat s)
  | None => false
  end.

(** One step of filling a map from a list: the element's entry, when it has
    one, is stored under the element's key. *)
Definition insertEntry {X V : Type} (key : X -> string) (entry : X -> option V)
    (m : gmap string V) (x : X) : gmap string V :=
  match entry x with
  | Some v => <[key x := v]> m
  | None => m
  end.

(** The entry [buildOperationMap] stores for an encountered operation. *)
Definition indexEntry (byName : gmap string Tool) (o : Encountered)
  : option ToolOperationMapping :=
  let '(path, method, operation) := o in
  (fun toolDefinition =>
     {| m_path := path; m_method := method; m_operation := operation;
        m_toolDefinition := toolDefinition |}) <$> byName !! nameOf o.

(** The argument names an input schema advertises, and those it requires. *)
Definition propertyNames (j : JSONSchema7) : list string :=
  map fst (default [] (js_properties j)).

Definition requiredNames (j : JSONSchema7) : list string :=
  default [] (js_required j).

(** The six kinds of the translator's switch. *)
Definition recognisedTypes : list string :=
  ["integer"; "number"; "string"; "boolean"; "array"; "object"].

Definition isRecognisedType (t : string) : bool :=
  existsb (String.eqb t) recognisedTypes.

Definition schemaEnum (s : Schema) : option (list Value) :=
  match s with
  | SchemaRef _ => None
  | SchemaObject _ _ _ enum _ _ _ _ => enum
  end.

Definition schemaItems (s : Schema) : option Schema :=
  match s with
  | SchemaRef _ => None
  | SchemaObject _ _ _ _ items _ _ _ => items
  end.

Definition schemaProperties (s : Schema) : option (list (string * option Schema)) :=
  match s with
  | SchemaRef _ => None
  | SchemaObject _ _ _ _ _ properties _ _ => properties
  end.

Definition schemaRequired (s : Schema) : option (list string) :=
  match s with
  | SchemaRef _ => None
  | SchemaObject _ _ _ _ _ _ required _ => required
  end.

(** The type of a node is the given kind. *)
Definition hasType (t : string) (s : Schema) : bool :=
  match schemaType s with
  | Some t' => String.eqb t' t
  | None => false
  end.

(** The loop over the properties of an object node, as a function of its
    own. *)
Fixpoint translateEach (ps : list (string * option Schema))
    (acc : list (string * JSONSchema7)) : list (string * JSONSchema7) :=
  match ps with
  | [] => acc
  | (propName, Some p) :: rest => translateEach rest (objSet propName (translateNode p) acc)
  | (propName, None) :: rest => translateEach rest acc
  end.

(** The properties that have a schema, each with its translation, in
    order. *)
Fixpoint presentProperties (ps : list (string * option Schema))
  : list (string * JSONSchema7) :=
  match ps with
  | [] => []
  | (propName, Some p) :: rest => (propName, translateNode p) :: presentProperties rest
  | (propName, None) :: rest => presentProperties rest
  end.

(** The schema as the switch leaves it, before the description and the
    default are carried over. *)
Definition afterSwitch (type format description : option string)
    (enum : option (list Value)) (items : option Schema)
    (properties : option (list (string * option Schema)))
    (required : option (list string)) : JSONSchema7 :=
  if Js.truthyOpt type then
    let t := Js.orEmpty type in
    if String.eqb t "integer" then setType (Some "integer") emptySchema
    else if String.eqb t "number" then setType (Some "number") emptySchema
    else if String.eqb t "string" then stringCase format description enum emptySchema
    else if String.eqb t "boolean" then setType (Some "boolean") emptySchema
    else if String.eqb t "array" then
      let jsSchema := setType (Some "array") emptySchema in
      match items with
      | Some i => setItems (Some (translateNode i)) jsSchema
      | None => jsSchema
      end
    else if String.eqb t "object" then
      let jsSchema := setType (Some "object") emptySchema in
      let jsSchema :=
        match properties with
        | Some props => setProperties (Some (translateEach props [])) jsSchema
        | None => jsSchema
        end in
      match required with
      | Some r => setRequired (Some r) jsSchema
      | None => jsSchema
      end
    else emptySchema
  else emptySchema.

(** The [pathParts] of the fallback name: the non-empty pieces of the
    sanitized path. *)
Definition pathParts (path : string) : list string :=
  filter (fun p => Js.truthyString p = true)
         (Js.split_underscore (Js.replaceNonWord path)).

(** No character of the string is an underscore. *)
Fixpoint noUnderscore (s : string) : bool :=
  match s with
  | EmptyString => true
  | String c s' => negb (Js.code c =? 95)%N && noUnderscore s'
  end.

(** The schema stored for a parameter that has a schema: the translated
    schema with the description decorated as lines 165-169 do. *)
Definition parameterSchema (param : ParameterObject) (schema : Schema) : JSONSchema7 :=
  let paramSchema := translateNode schema in
  let paramSchema :=
    if Js.truthyOpt (param_description param)
       && negb (Js.truthyOpt (js_description paramSchema))
    then setDescription (param_description param) paramSchema
    else paramSchema in
  setDescription
    (Some (Js.trim (Js.orEmpty (js_description paramSchema)
                    +:+ " (in: " +:+ param_in param +:+ ")")))
    paramSchema.

(** Every property of an input schema has a description that is not
    empty. *)
Definition allDescribed (j : JSONSchema7) : Prop :=
  Forall (fun kv => Js.truthyOpt (js_description (snd kv)) = true)
         (default [] (js_properties j)).

(** The invariant of the input schema under construction. *)
Definition inputShape (j : JSONSchema7) : Prop :=
  js_type j = Some "object" /\ is_Some (js_properties j) /\ is_Some (js_required j)
  /\ js_contentEncoding j = None /\ js_description j = None /\ js_enum j = None
  /\ js_items j = None /\ js_default j = None
  /\ (forall n, In n (requiredNames j) -> n = "__proto__" \/ In n (propertyNames j))
  /\ ~ In "__proto__" (propertyNames j)
  /\ allDescribed j.

(** The property stored under a name. *)
Definition propertyOf (n : string) (j : JSONSchema7) : option JSONSchema7 :=
  objGet n (default [] (js_properties j)).

(** The locations the handler places an argument for. *)
Definition isPlaced (param : ReferenceObject + ParameterObject) : bool :=
  match param with
  | inl _ => false
  | inr q =>
      String.eqb (param_in q) "path" || String.eqb (param_in q) "query"
      || String.eqb (param_in q) "header"
  end.

(** The parameters of one location. *)
Definition located (location : string) (param : ReferenceObject + ParameterObject) : bool :=
  match param with
  | inl _ => false
  | inr q => String.eqb (param_in q) location
  end.

(** The characters [encodeURIComponent] can produce: the unreserved ones and
    the percent sign (the hexadecimal digits are unreserved). *)
Definition uriSafe (c : ascii) : bool :=
  Http.uriUnreserved c || (Js.code c =? 37)%N.

(** The characters the query serializer can produce for a name or a value. *)
Definition formSafe (c : ascii) : bool :=
  Http.formKeep c || (Js.code c =? 37)%N || (Js.code c =? 43)%N.

(** The code of an error, when it is a protocol error. *)
Definition errorCode (e : Exception) : option ErrorCode :=
  match e with
  | McpError code _ => Some code
  | Error _ | TypeError => None
  end.

(** A property whose key is not [__proto__]. *)
Definition notProto {A : Type} (kv : string * A) : bool :=
  negb (String.eqb (fst kv) "__proto__").

(** An object enumerates the key [k'] before the key [k] when [k'] is the
    smaller array index, when only [k'] is an array index, or when neither
    is one and [k'] was inserted first. *)
Definition keyBefore (k' k : string) : bool :=
  match Js.arrayIndex k', Js.arrayIndex k with
  | Some m, Some n => (m <? n)%N
  | Some _, None => true
  | None, None => true
  | None, Some _ => false
  end.

(** The keys are listed as an object enumerates them: the array indices
    first, in ascending order. *)
Fixpoint enumerationOrder (keys : list string) : bool :=
  match keys with
  | [] => true
  | k :: rest => forallb (keyBefore k) rest && enumerationOrder rest
  end.

(** The characters of a serialized query: those of names and values, and
    the two separators. *)
Definition querySafe (c : ascii) : bool :=
  formSafe c || (Js.code c =? 38)%N || (Js.code c =? 61)%N.

(** The string holds no opening brace. *)
Definition noBrace (s : string) : bool :=
  allChars (fun c => negb (Js.code c =? 123)%N) s.

(** Two placements agree on the component of a location. *)
Definition agreeOn (location : string) (st sa : Placement) : Prop :=
  (location = "path" -> processedPath st = processedPath sa)
  /\ (location = "query" -> queryParams st = queryParams sa)
  /\ (location = "header" -> headers st = headers sa).

(** Two placements agree on the components of the other locations. *)
Definition agreeOff (location : string) (st sa : Placement) : Prop :=
  (location <> "path" -> processedPath st = processedPath sa)
  /\ (location <> "query" -> queryParams st = queryParams sa)
  /\ (location <> "header" -> headers st = headers sa).

(** The schema stored under [requestBody]: the translated schema, with a
    description supplied when it has none (lines 196-198). *)
Definition requestBodySchema (body : RequestBodyObject) (schema : Schema) : JSONSchema7 :=
  let translated := translateNode schema in
  if negb (Js.truthyOpt (js_description translated)) then
    setDescription
      (Some (if Js.truthyOpt (body_description body)
             then Js.orEmpty (body_description body)
             else "The request body (JSON)"))
      translated
  else translated.

(** * Properties *)

(** ** The scenarios of the design document, by evaluation *)

Example generateToolName_showPetById :
  generateToolName "get" "/pets/{id}" (Some "showPetById") = "showPetById".
Proof. reflexivity. Qed.

Example generateToolName_post_users :
  generateToolName "post" "/users" None = "post_users".
Proof. reflexivity. Qed.

Example generateToolName_path_template :
  generateToolName "GET" "/pets/{id}/owner-info" (Some "") = "get_pets_id_owner_info".
Proof. reflexivity. Qed.

Example trim_example : Js.trim "  a b  " = "a b".
Proof. reflexivity. Qed.

Example translate_integer :
  openApiSchemaToJsonSchema
    (Some (SchemaObject (Some "integer") None None None None None None None))
  = Some (setType (Some "integer") emptySchema).
Proof. reflexivity. Qed.

Example translate_binary :
  js_description
    (translateNode (SchemaObject (Some "string") (Some "byte") (Some "a file")
                      None None None None None))
  = Some "a file (Note: Binary content expected as base64 string)".
Proof. reflexivity. Qed.

Example translate_object :
  js_properties
    (translateNode
       (SchemaObject (Some "object") None None None None
          (Some [("a", Some (SchemaRef "#/x")); ("b", None);
                 ("c", Some (SchemaObject (Some "boolean") None None None None None None None))])
          (Some ["a"]) None))
  = Some [("a", emptySchema); ("c", setType (Some "boolean") emptySchema)].
Proof. reflexivity. Qed.

Example convert_petStore :
  convertOpenAPIToMcTools petStore
  = [ {| name := "showPetById";
         description := "Perform GET on /pets/{id}";
         inputSchema :=
           mkJSONSchema7 (Some "object") None None None None
             (Some [("id", mkJSONSchema7 (Some "integer") None (Some "(in: path)")
                             None None None None None)])
             (Some ["id"]) None |} ].
Proof. reflexivity. Qed.

Example encodeURIComponent_example :
  Http.encodeURIComponent "a b/c?d=e" = "a%20b%2Fc%3Fd%3De".
Proof. reflexivity. Qed.

Example replaceFirst_example :
  replaceFirst "{id}" "3" "/pets/{id}/x/{id}" = "/pets/3/x/{id}".
Proof. reflexivity. Qed.

Example query_example :
  Http.toString (Http.set "a" "z" (Http.append "a" "y" (Http.append "b" "1 2" (Http.append "a" "x" []))))
  = "a=z&b=1+2".
Proof. reflexivity. Qed.

Example invoke_showPetById :
  map Http.req_url
    (snd (Sample.invoke Sample.unreachable petStore
            (Sample.call "showPetById" [("id", VNumber "3")])))
  = ["https://api.example.com/pets/3"].
Proof. vm_compute. reflexivity. Qed.

Example invoke_post_users :
  map (fun r => (Http.req_method r, Http.req_body r,
                 Http.req_headers r !! "content-type"))
    (snd (Sample.invoke Sample.unreachable Sample.userStore
            (Sample.call "post_users" [("requestBody", VObject [("name", VString "a")])])))
  = [("POST",
      Some ("{" +:+ Sample.quote "name" +:+ ":" +:+ Sample.quote "a" +:+ "}"),
      Some "application/json")].
Proof. vm_compute. reflexivity. Qed.

Example invoke_query_array :
  map Http.req_url
    (snd (Sample.invoke Sample.unreachable Sample.tagStore
            (Sample.call "findByTags"
               [("tags", VArray [VString "a b"; VNumber "2"; VNull]);
                ("limit", VNumber "-5")])))
  = ["https://api.example.com/pets/findByTags?tags=a+b&tags=2&tags=null&limit=-5"].
Proof. vm_compute. reflexivity. Qed.

Example invoke_unreachable :
  fst (Sample.invoke Sample.unreachable petStore
         (Sample.call "showPetById" [("id", VNumber "3")]))
  = Throw (McpError InternalError "API request failed: getaddrinfo ENOTFOUND").
Proof. vm_compute. reflexivity. Qed.

Example invoke_status_404 :
  fst (Sample.invoke (Sample.answer 404 "Not Found" (Http.Ok "missing")) petStore
         (Sample.call "showPetById" [("id", VNumber "3")]))
  = Return {| content :=
                [mkText ("Status: 404 Not Found" +:+ newline +:+ "Headers:" +:+ newline
                         +:+ "{}" +:+ newline +:+ newline +:+ "Body:" +:+ newline
                         +:+ "missing")];
              isError := true |}.
Proof. vm_compute. reflexivity. Qed.

Example invoke_unknown_tool :
  Sample.invoke Sample.unreachable petStore (Sample.call "nope" [])
  = (Throw (McpError MethodNotFound "Tool 'nope' not found."), []).
Proof. vm_compute. reflexivity. Qed.

(** ** Strings *)

Lemma replaceNonWord_char_idem (c : ascii) :
  Js.isWordChar (if Js.isWordChar c then c else "_"%char) = true.
Proof. destruct (Js.isWordChar c) eqn:E; [exact E | reflexivity]. Qed.

Lemma replaceNonWord_truthy (s : string) :
  Js.truthyString (Js.replaceNonWord s) = Js.truthyString s.
Proof. destruct s; reflexivity. Qed.

Lemma replaceNonWord_allWordChars (s : string) :
  allWordChars (Js.replaceNonWord s) = true.
Proof.
  induction s as [|c s IH]; simpl; [reflexivity |].
  now rewrite replaceNonWord_char_idem, IH.
Qed.

Lemma replaceNonWord_fixes (s : string) :
  allWordChars s = true -> Js.replaceNonWord s = s.
Proof.
  induction s as [|c s IH]; simpl; [reflexivity |].
  intros [Hc Hs]%andb_true_iff. now rewrite Hc, IH.
Qed.

Lemma append_length (s t : string) :
  String.length (s +:+ t) = String.length s + String.length t.
Proof. induction s as [|c s IH]; simpl; [reflexivity | now rewrite IH]. Qed.

(** Two strings with the same suffix appended are equal only when they are
    equal. *)
Lemma append_cancel_r (s t u : string) : s +:+ u = t +:+ u -> s = t.
Proof.
  intros H.
  assert (Hlen : String.length s = String.length t).
  { apply (f_equal String.length) in H. rewrite !append_length in H. lia. }
  revert t H Hlen. induction s as [|c s IH]; intros [|d t] H Hlen; simpl in *;
    try discriminate; [reflexivity |].
  injection H as -> H. f_equal. apply IH; [exact H | lia].
Qed.

Lemma regenerated_eq (method path : string) (operationId : option string) :
  regeneratedToolName method path operationId
  = generateToolName method path operationId.
Proof.
  unfold regeneratedToolName, generateToolName.
  destruct operationId as [[|c id]|]; reflexivity.
Qed.

(** C8. Replacing every character outside [[A-Za-z0-9_]] with an underscore
    is idempotent: applied to a string that is already sanitized, it returns
    that string unchanged. *)
Theorem sanitize_idempotent (s : string) :
  Js.replaceNonWord (Js.replaceNonWord s) = Js.replaceNonWord s.
Proof.
  apply replaceNonWord_fixes, replaceNonWord_allWordChars.
Qed.

(** The name derived from an identifier is a fixed point of the derivation. *)
Lemma generateToolName_idempotent (method path id : string) :
  Js.truthyString id = true ->
  generateToolName method path (Some (generateToolName method path (Some id)))
  = generateToolName method path (Some id).
Proof.
  intros H. unfold generateToolName. rewrite H, replaceNonWord_truthy, H.
  apply replaceNonWord_fixes, replaceNonWord_allWordChars.
Qed.

(** C2. For every method, path and optional identifier, the name computed by
    [generateToolName] and the name recomputed by [buildOperationMap] are the
    same. *)
Theorem index_recomputes_same_name (method path : string) (operationId : option string) :
  generateToolName method path operationId
  = regeneratedToolName method path operationId.
Proof. symmetry. apply regenerated_eq. Qed.

(** ** Schema translator *)

Lemma hasNonSpace_append_r (s t : string) :
  hasNonSpace t = true -> hasNonSpace (s +:+ t) = true.
Proof.
  intros H. induction s as [|c s IH]; simpl; [exact H |].
  rewrite IH. apply orb_true_r.
Qed.

Lemma trimStart_hasNonSpace (s : string) :
  hasNonSpace s = true -> hasNonSpace (Js.trimStart s) = true.
Proof.
  induction s as [|c s IH]; simpl; [discriminate |].
  destruct (Js.isSpace c) eqn:E; simpl; [exact IH |].
  rewrite E. reflexivity.
Qed.

Lemma trimEnd_truthy (s : string) :
  hasNonSpace s = true -> Js.truthyString (Js.trimEnd s) = true.
Proof.
  induction s as [|c s IH]; simpl; [discriminate |].
  destruct (Js.trimEnd s) eqn:E.
  - destruct (Js.isSpace c); simpl; [| reflexivity].
    intros H. specialize (IH H). discriminate.
  - reflexivity.
Qed.

Lemma trim_truthy (s : string) :
  hasNonSpace s = true -> Js.truthyString (Js.trim s) = true.
Proof. intros H. apply trimEnd_truthy, trimStart_hasNonSpace, H. Qed.

(** The description written for a binary string is never empty. *)
Lemma binary_description_truthy (description : option string) :
  Js.truthyOpt (Some (Js.trim (Js.orEmpty description +:+ binaryNote))) = true.
Proof. apply trim_truthy, hasNonSpace_append_r. reflexivity. Qed.

Lemma carry_description (description : option string) (dflt : option Value)
    (j : JSONSchema7) :
  js_description (carryDescriptionAndDefault description dflt j)
  = if Js.truthyOpt description
    then (if Js.truthyOpt (js_description j) then js_description j else description)
    else js_description j.
Proof.
  unfold carryDescriptionAndDefault.
  destruct (Js.truthyOpt description), (Json.truthyOpt dflt); reflexivity.
Qed.

Lemma carry_default (description : option string) (dflt : option Value)
    (j : JSONSchema7) :
  js_default (carryDescriptionAndDefault description dflt j)
  = if Json.truthyOpt dflt then dflt else js_default j.
Proof.
  unfold carryDescriptionAndDefault.
  destruct (Js.truthyOpt description), (Json.truthyOpt dflt); reflexivity.
Qed.

Ltac case_switch :=
  repeat match goal with
         | |- context [if String.eqb ?a ?b then _ else _] =>
             let E := fresh "E" in destruct (String.eqb a b) eqn:E
         end.

(** The description of a translated schema object, in every case. *)
Lemma translateNode_description (s : Schema) :
  js_description (translateNode s)
  = match s with
    | SchemaRef _ => None
    | SchemaObject _ _ description _ _ _ _ _ =>
        if isBinaryString s
        then Some (Js.trim (Js.orEmpty description +:+ binaryNote))
        else if Js.truthyOpt description then description else None
    end.
Proof.
  destruct s as [ref | type format description enum items properties required dflt];
    [reflexivity |].
  cbn [translateNode]. rewrite carry_description.
  unfold isBinaryString. cbn [schemaType schemaFormat].
  destruct type as [[|c t]|]; cbn [Js.truthyOpt Js.orEmpty Js.truthyString];
    try (destruct (Js.truthyString (Js.orEmpty description)); reflexivity).
  set (ty := String c t).
  destruct (String.eqb ty "string") eqn:Estr.
  - apply String.eqb_eq in Estr. rewrite Estr. cbn [String.eqb Ascii.eqb Bool.eqb].
    cbn [andb]. unfold stringCase.
    destruct (isBinaryFormat format) eqn:Ebin.
    + assert (Hd : forall j, js_description
                (match enum with Some e => setEnum (Some e) j | None => j end)
                = js_description j) by (intros j; destruct enum; reflexivity).
      rewrite Hd. cbn [js_description setDescription].
      fold (Js.truthyOpt (Some (Js.trim (Js.orEmpty description +:+ binaryNote)))).
      rewrite binary_description_truthy.
      destruct (Js.truthyOpt description); reflexivity.
    + destruct enum; cbn; destruct (Js.truthyOpt description); reflexivity.
  - cbn [andb]. case_switch;
      try discriminate;
      repeat match goal with
             | |- context [match ?o with Some _ => _ | None => _ end] => destruct o
             end;
      cbn [js_description setType setItems setProperties setRequired emptySchema
           Js.truthyOpt Js.orEmpty Js.truthyString];
      destruct (Js.truthyOpt description); reflexivity.
Qed.

(** The default value of a translated schema object, in every case. *)
Lemma translateNode_default (s : Schema) :
  js_default (translateNode s)
  = if Json.truthyOpt (schemaDefault s) then schemaDefault s else None.
Proof.
  destruct s as [ref | type format description enum items properties required dflt];
    [reflexivity |].
  cbn [translateNode schemaDefault]. rewrite carry_default.
  destruct (Json.truthyOpt dflt); [reflexivity |].
  destruct (Js.truthyOpt type); [| reflexivity].
  unfold stringCase. case_switch;
    repeat match goal with
           | |- context [match ?o with Some _ => _ | None => _ end] => destruct o
           | |- context [if ?b then _ else _] => destruct b
           end;
    reflexivity.
Qed.

(** A description that is not empty is carried through, unless the node is a
    binary string. *)
Lemma description_carried_through (s : Schema) :
  Js.truthyOpt (schemaDescription s) = true ->
  isBinaryString s = false ->
  js_description (translateNode s) = schemaDescription s.
Proof.
  intros Hd Hb. rewrite translateNode_description.
  destruct s as [ref | type format description enum items properties required dflt];
    [discriminate Hd |].
  cbn [schemaDescription] in Hd. now rewrite Hb, Hd.
Qed.

(** On a binary string the description written for the annotation stays: the
    node's own description is its prefix and does not replace it. *)
Lemma binary_description_preserved (s : Schema) :
  isBinaryString s = true ->
  js_description (translateNode s)
  = Some (Js.trim (Js.orEmpty (schemaDescription s) +:+ binaryNote)).
Proof.
  intros Hb. rewrite translateNode_description.
  destruct s as [ref | type format description enum items properties required dflt];
    [discriminate Hb |].
  now rewrite Hb.
Qed.

(** A default value that is truthy is carried through. *)
Lemma truthy_default_carried_through (s : Schema) :
  Json.truthyOpt (schemaDefault s) = true ->
  js_default (translateNode s) = schemaDefault s.
Proof. intros H. now rewrite translateNode_default, H. Qed.

(** A default value that is falsy ([false], [0], the empty string, [null])
    is lost. *)
Lemma falsy_default_dropped (s : Schema) :
  Json.truthyOpt (schemaDefault s) = false ->
  js_default (translateNode s) = None.
Proof. intros H. now rewrite translateNode_default, H. Qed.

(** C3. The translator should carry the default value of a node through.
    Here it is evaluated on a boolean node whose default is [false]: the node
    carries a default value, the description is carried through, and the
    translated schema has no default. *)
Theorem default_false_is_lost :
  let node := SchemaObject (Some "boolean") None (Some "Notify the owner")
                None None None None (Some (VBool false)) in
  schemaDefault node = Some (VBool false)
  /\ js_description (translateNode node) = Some "Notify the owner"
  /\ js_default (translateNode node) = None.
Proof. repeat split. Qed.

(** ** Filling a map from a list *)

Section FoldInsert.

Context {X V : Type} (key : X -> string) (entry : X -> option V).

Let step := insertEntry key entry.

Lemma fold_insert_snoc (l : list X) (x : X) (m : gmap string V) :
  fold_left step (l ++ [x]) m = step (fold_left step l m) x.
Proof. now rewrite fold_left_app. Qed.

(** Elements with another key leave the lookup alone. *)
Lemma fold_insert_other (l : list X) (m : gmap string V) (k : string) :
  Forall (fun x => key x <> k) l ->
  fold_left step l m !! k = m !! k.
Proof.
  intros H. revert m. induction H as [|x l Hx _ IH]; intros m; simpl; [reflexivity |].
  rewrite IH. unfold step, insertEntry.
  destruct (entry x); [now rewrite lookup_insert_ne | reflexivity].
Qed.

(** The last element of a key decides the lookup. *)
Lemma fold_insert_last (l1 l2 : list X) (x : X) (m : gmap string V) (k : string) (v : V) :
  key x = k -> entry x = Some v ->
  Forall (fun z => key z <> k) l2 ->
  fold_left step (l1 ++ x :: l2) m !! k = Some v.
Proof.
  intros Hk Hv H2. rewrite fold_left_app. simpl.
  rewrite (fold_insert_other _ _ _ H2).
  unfold step at 1, insertEntry. rewrite Hv, <- Hk. apply lookup_insert_eq.
Qed.

(** Whatever is found under a key was put there by the last element of that
    key that has an entry. *)
Lemma fold_insert_inv (l : list X) (k : string) (v : V) :
  fold_left step l ∅ !! k = Some v ->
  exists l1 x l2,
    l = l1 ++ x :: l2 /\ key x = k /\ entry x = Some v
    /\ Forall (fun z => key z = k -> entry z = None) l2.
Proof.
  induction l as [|x l IH] using rev_ind;
    [simpl; rewrite lookup_empty; discriminate |].
  rewrite fold_insert_snoc. unfold step at 1, insertEntry.
  destruct (entry x) as [w|] eqn:Ew.
  - destruct (decide (key x = k)) as [Hk|Hk].
    + rewrite <- Hk, lookup_insert_eq. intros [= ->].
      exists l, x, []. repeat split; try assumption. constructor.
    + rewrite lookup_insert_ne by exact Hk. intros H.
      destruct (IH H) as (l1 & y & l2 & -> & Hy & Ey & Hl2).
      exists l1, y, (l2 ++ [x]). rewrite <- app_assoc. repeat split; try assumption.
      apply Forall_app. split; [exact Hl2 |]. constructor; [| constructor].
      intros Hx. contradiction.
  - intros H. destruct (IH H) as (l1 & y & l2 & -> & Hy & Ey & Hl2).
    exists l1, y, (l2 ++ [x]). rewrite <- app_assoc. repeat split; try assumption.
    apply Forall_app. split; [exact Hl2 |]. constructor; [| constructor].
    intros _. exact Ew.
Qed.

(** A key that is bound stays bound. *)
Lemma fold_insert_mono (l : list X) (m : gmap string V) (k : string) :
  is_Some (m !! k) -> is_Some (fold_left step l m !! k).
Proof.
  revert m. induction l as [|x l IH]; intros m H; simpl; [exact H |].
  apply IH. unfold step, insertEntry. destruct (entry x); [| exact H].
  destruct (decide (key x = k)) as [<-|Hne].
  - rewrite lookup_insert_eq. eauto.
  - now rewrite lookup_insert_ne.
Qed.

(** The key of an element that has an entry is bound. *)
Lemma fold_insert_elem (l : list X) (m : gmap string V) (x : X) :
  In x l -> is_Some (entry x) -> is_Some (fold_left step l m !! key x).
Proof.
  revert m. induction l as [|y l IH]; intros m Hin [v Hv]; simpl; [contradiction |].
  destruct Hin as [-> | Hin]; [| apply IH; eauto].
  apply fold_insert_mono. unfold step, insertEntry. rewrite Hv, lookup_insert_eq. eauto.
Qed.

End FoldInsert.

(** ** The two walks over the document *)

Lemma fold_left_flat_map {A B C : Type} (f : C -> B -> C) (h : A -> list B)
    (l : list A) (c : C) :
  fold_left f (flat_map h l) c = fold_left (fun c a => fold_left f (h a) c) l c.
Proof.
  revert c. induction l as [|a l IH]; intros c; simpl; [reflexivity |].
  now rewrite fold_left_app, IH.
Qed.

Lemma convertPathItem_operations (path : string) (pathItem : PathItemObject)
    (tools : list Tool) :
  convertPathItem path tools pathItem
  = tools ++ map toolOf (operationsOfPathItem path pathItem).
Proof.
  unfold convertPathItem, operationsOfPathItem.
  revert tools. induction pathItem as [|[method operation] rest IH]; intros tools; simpl.
  - now rewrite app_nil_r.
  - rewrite IH. destruct (negb (isHttpMethod method)); [reflexivity |].
    destruct operation as [operation|]; [| reflexivity].
    simpl. now rewrite <- app_assoc.
Qed.

(** The published list holds one tool for each operation encountered, in the
    order of the walk. *)
Lemma convert_operations (apiSpec : Document) :
  convertOpenAPIToMcTools apiSpec = map toolOf (operations apiSpec).
Proof.
  unfold convertOpenAPIToMcTools, operations.
  destruct (paths apiSpec) as [ps|]; [| reflexivity].
  change (map toolOf (flat_map _ ps)) with
    ([] ++ map toolOf
       (flat_map (fun '(path, pathItem) =>
                    match pathItem with
                    | Some pathItem => operationsOfPathItem path pathItem
                    | None => []
                    end) ps)).
  generalize (@nil Tool) as tools.
  induction ps as [|[path pathItem] rest IH]; intros tools; simpl.
  - now rewrite app_nil_r.
  - rewrite IH. destruct pathItem as [pathItem|]; simpl; [| reflexivity].
    now rewrite convertPathItem_operations, map_app, app_assoc.
Qed.

Lemma indexPathItem_operations (byName : gmap string Tool) (path : string)
    (pathItem : PathItemObject) (m : gmap string ToolOperationMapping) :
  fold_left (indexOperation byName path) pathItem m
  = fold_left (insertEntry nameOf (indexEntry byName))
      (operationsOfPathItem path pathItem) m.
Proof.
  unfold operationsOfPathItem.
  revert m. induction pathItem as [|[method operation] rest IH]; intros m; simpl;
    [reflexivity |].
  rewrite fold_left_app, IH. f_equal.
  destruct (negb (isHttpMethod method)); [reflexivity |].
  destruct operation as [operation|]; [| reflexivity].
  simpl. unfold insertEntry, indexEntry, nameOf.
  rewrite regenerated_eq.
  destruct (byName !! generateToolName method path (operationId operation)); reflexivity.
Qed.

(** The index is filled from the operations encountered, in the order of the
    walk. *)
Lemma index_operations (apiSpec : Document) (tools : list Tool) :
  buildOperationMap apiSpec tools
  = fold_left (insertEntry nameOf (indexEntry (toolMapByName tools)))
      (operations apiSpec) ∅.
Proof.
  unfold buildOperationMap, operations.
  destruct (paths apiSpec) as [ps|]; [| reflexivity].
  rewrite fold_left_flat_map.
  generalize (∅ : gmap string ToolOperationMapping) as m.
  induction ps as [|[path pathItem] rest IH]; intros m; simpl; [reflexivity |].
  rewrite IH. destruct pathItem as [pathItem|]; [| reflexivity].
  now rewrite indexPathItem_operations.
Qed.

(** ** Name collisions *)

Lemma name_toolOf (o : Encountered) : name (toolOf o) = nameOf o.
Proof. destruct o as [[path method] operation]. reflexivity. Qed.

Lemma toolMapByName_fold (tools : list Tool) :
  toolMapByName tools = fold_left (insertEntry name Some) tools ∅.
Proof. reflexivity. Qed.

(** Among the tools of a list of operations, a name leads to the tool of the
    last operation that derives it. *)
Lemma toolMapByName_last (ops1 ops2 : list Encountered) (o : Encountered) :
  Forall (fun z => nameOf z <> nameOf o) ops2 ->
  toolMapByName (map toolOf (ops1 ++ o :: ops2)) !! nameOf o = Some (toolOf o).
Proof.
  intros H. rewrite toolMapByName_fold, map_app. simpl map.
  apply fold_insert_last; [apply name_toolOf | reflexivity |].
  apply Forall_map. eapply Forall_impl; [exact H |].
  intros z Hz. simpl. now rewrite name_toolOf.
Qed.

Lemma toolMapByName_elem (ops : list Encountered) (o : Encountered) :
  In o ops -> is_Some (toolMapByName (map toolOf ops) !! nameOf o).
Proof.
  intros H. rewrite toolMapByName_fold, <- name_toolOf.
  apply fold_insert_elem; [now apply in_map | eauto].
Qed.

Lemma indexEntry_mappingOf (byName : gmap string Tool) (o : Encountered) :
  byName !! nameOf o = Some (toolOf o) -> indexEntry byName o = Some (mappingOf o).
Proof.
  destruct o as [[path method] operation]. unfold indexEntry. intros ->. reflexivity.
Qed.

(** In the index, a name leads to the last operation that derives it,
    together with the tool built from that operation. *)
Lemma index_lookup_last (apiSpec : Document) (ops1 ops2 : list Encountered)
    (o : Encountered) :
  operations apiSpec = ops1 ++ o :: ops2 ->
  Forall (fun z => nameOf z <> nameOf o) ops2 ->
  buildOperationMap apiSpec (convertOpenAPIToMcTools apiSpec) !! nameOf o
  = Some (mappingOf o).
Proof.
  intros Hops Hlast. rewrite index_operations, convert_operations, Hops.
  apply fold_insert_last; [reflexivity | | exact Hlast].
  now apply indexEntry_mappingOf, toolMapByName_last.
Qed.

(** Every entry of the index binds an encountered operation to the tool
    built from it, under the name derived from it. *)
Lemma index_lookup_inv (apiSpec : Document) (k : string) (m : ToolOperationMapping) :
  buildOperationMap apiSpec (convertOpenAPIToMcTools apiSpec) !! k = Some m ->
  exists ops1 o ops2,
    operations apiSpec = ops1 ++ o :: ops2 /\ nameOf o = k /\ m = mappingOf o
    /\ Forall (fun z => nameOf z <> k) ops2.
Proof.
  rewrite index_operations, convert_operations. intros H.
  apply fold_insert_inv in H as (ops1 & o & ops2 & Hops & Hk & Ho & Hrest).
  assert (Hlast : Forall (fun z => nameOf z <> k) ops2).
  { apply Forall_forall. intros z Hz Hzk.
    rewrite Forall_forall in Hrest. specialize (Hrest z Hz Hzk).
    assert (Hin : In z (operations apiSpec))
      by (rewrite Hops; apply in_or_app; right; right; now apply list_elem_of_In).
    destruct (toolMapByName_elem _ _ Hin) as [t Ht].
    destruct z as [[path method] operation]. unfold indexEntry in Hrest.
    rewrite Ht in Hrest. discriminate. }
  exists ops1, o, ops2. repeat split; try assumption.
  subst k. rewrite Hops in Ho.
  rewrite (indexEntry_mappingOf _ _ (toolMapByName_last ops1 ops2 o Hlast)) in Ho.
  congruence.
Qed.

(** C1 (as the code has it).  When two operations derive the same tool name,
    the published tool list holds the tools of both, each in its place; it is
    in the operation index that the later operation replaces the earlier one:
    the name leads to the last operation that derives it and to the tool
    built from that operation. *)
Theorem collision_last_wins_in_index_only (apiSpec : Document)
    (before between after : list Encountered) (earlier later : Encountered) :
  operations apiSpec = before ++ earlier :: between ++ later :: after ->
  nameOf earlier = nameOf later ->
  Forall (fun o => nameOf o <> nameOf later) after ->
  createListToolsHandler (convertOpenAPIToMcTools apiSpec)
  = map toolOf before ++ toolOf earlier :: map toolOf between
    ++ toolOf later :: map toolOf after
  /\ name (toolOf earlier) = name (toolOf later)
  /\ buildOperationMap apiSpec (convertOpenAPIToMcTools apiSpec) !! nameOf later
     = Some (mappingOf later).
Proof.
  intros Hops Hsame Hlast. split; [| split].
  - unfold createListToolsHandler.
    rewrite convert_operations, Hops, map_app. simpl. now rewrite map_app.
  - now rewrite !name_toolOf.
  - apply (index_lookup_last apiSpec (before ++ earlier :: between) after later);
      [| exact Hlast].
    rewrite Hops, <- app_assoc. reflexivity.
Qed.

Lemma collision_last_wins_in_index_only_witness :
  let earlier := ("/pets", "get", Sample.listPets) in
  let later := ("/animals", "get", Sample.listAnimals) in
  createListToolsHandler (convertOpenAPIToMcTools Sample.collidingStore)
  = map toolOf [] ++ toolOf earlier :: map toolOf [] ++ toolOf later :: map toolOf []
  /\ name (toolOf earlier) = name (toolOf later)
  /\ buildOperationMap Sample.collidingStore
       (convertOpenAPIToMcTools Sample.collidingStore) !! nameOf later
     = Some (mappingOf later).
Proof.
  intros earlier later.
  apply (collision_last_wins_in_index_only Sample.collidingStore [] [] [] earlier later);
    [reflexivity | reflexivity | constructor].
Defined.

(** C1 (as stated) fails: for a document in which two operations share the
    identifier [listPets], the published list holds two tools of that name,
    not one. *)
Lemma collision_publishes_both_tools :
  let published := createListToolsHandler (convertOpenAPIToMcTools Sample.collidingStore) in
  published = [toolOfOperation "/pets" "get" Sample.listPets;
               toolOfOperation "/animals" "get" Sample.listAnimals]
  /\ map name published = ["listPets"; "listPets"]
  /\ length (List.filter (fun t => String.eqb (name t) "listPets") published) = 2
  /\ length (List.filter (fun t => String.eqb (name t) "listPets") published) <> 1.
Proof. intros published. repeat split. discriminate. Qed.

(** ** Error messages *)

Lemma append_cancel_l (s t u : string) : s +:+ t = s +:+ u -> t = u.
Proof. induction s as [|c s IH]; simpl; [auto | intros [= H]; auto]. Qed.

(** The error for a missing parameter determines the parameter's name. *)
Lemma missingParameter_inj (n n' toolName : string) :
  missingParameter n toolName = missingParameter n' toolName -> n = n'.
Proof.
  unfold missingParameter. intros [= H].
  apply append_cancel_l in H. now apply append_cancel_r in H.
Qed.

Lemma missingParameter_not_missingRequestBody (n toolName toolName' : string) :
  missingParameter n toolName <> missingRequestBody toolName'.
Proof. unfold missingParameter, missingRequestBody. intros [= H]. Qed.

Lemma missingParameter_not_stringifyFailed (n toolName toolName' message : string) :
  missingParameter n toolName <> stringifyFailed toolName' message.
Proof. unfold missingParameter, stringifyFailed. intros [= H]. Qed.

Lemma missingParameter_not_unsupported (n toolName toolName' : string) :
  missingParameter n toolName <> unsupportedContentType toolName'.
Proof. unfold missingParameter, unsupportedContentType. intros [= H]. Qed.

Lemma unsupported_not_missingRequestBody (toolName toolName' : string) :
  unsupportedContentType toolName <> missingRequestBody toolName'.
Proof. unfold unsupportedContentType, missingRequestBody. intros [= H]. Qed.

Lemma unsupported_not_stringifyFailed (toolName toolName' message : string) :
  unsupportedContentType toolName <> stringifyFailed toolName' message.
Proof. unfold unsupportedContentType, stringifyFailed. intros [= H]. Qed.

(** ** Reading the argument bag *)

Lemma get_own (args : gmap string Value) (k : string) (v : Value) :
  args !! k = Some v -> PlainObject.get args k = Some v.
Proof. unfold PlainObject.get. now intros ->. Qed.

(** A name that no object inherits is found only as an own property. *)
Lemma get_not_inherited (args : gmap string Value) (k : string) :
  PlainObject.inherited k = None -> PlainObject.get args k = args !! k.
Proof. unfold PlainObject.get. intros H. now destruct (args !! k). Qed.

Lemma get_requestBody (args : gmap string Value) :
  PlainObject.get args "requestBody" = args !! "requestBody".
Proof. now apply get_not_inherited. Qed.

(** A read gives [undefined] only when the bag has no own property of that
    name and no object inherits one. *)
Lemma get_undefined (args : gmap string Value) (k : string) :
  PlainObject.get args k = None <-> args !! k = None /\ PlainObject.inherited k = None.
Proof.
  unfold PlainObject.get. destruct (args !! k).
  - split; [discriminate | intros [H _]; discriminate].
  - tauto.
Qed.

(** ** The loop over the parameters *)

Lemma stringOf_return (v : Value) (text : string) :
  stringOf v = Return text -> Json.convertible v = true /\ text = Json.toString v.
Proof.
  unfold stringOf. destruct (Json.convertible v); [| discriminate].
  intros [= <-]. auto.
Qed.

Lemma stringOf_throw (v : Value) (e : Exception) : stringOf v = Throw e -> e = TypeError.
Proof.
  unfold stringOf. destruct (Json.convertible v); [discriminate |]. now intros [= <-].
Qed.

Lemma appendEach_throw (n : string) (elems : list Value) (q : Http.URLSearchParams)
    (e : Exception) :
  appendEach n elems q = Throw e -> e = TypeError.
Proof.
  revert q. induction elems as [|val elems IH]; intros q; simpl; [discriminate |].
  destruct (stringOf val) as [text|e'] eqn:E; simpl; [apply IH |].
  intros [= <-]. exact (stringOf_throw _ _ E).
Qed.

Section Parameters.

Variable headerValue : string -> string -> option string.
Variables (toolName : string) (args : gmap string Value).

(** A placement throws nothing but the [TypeError] of a conversion or of the
    [Headers] class. *)
Lemma place_throw (q : ParameterObject) (v : Value) (st : Placement) (e : Exception) :
  place headerValue q v st = Throw e -> e = TypeError.
Proof.
  unfold place.
  destruct (String.eqb (param_in q) "path").
  { destruct (stringOf v) as [text|e'] eqn:E; simpl; [discriminate |].
    intros [= <-]. exact (stringOf_throw _ _ E). }
  destruct (String.eqb (param_in q) "query").
  { assert (Hset : (text <- stringOf v ;;
                    Return (mkPlacement (processedPath st)
                              (Http.set (param_name q) text (queryParams st)) (headers st)))
                   = Throw e -> e = TypeError).
    { destruct (stringOf v) as [text|e'] eqn:E; simpl; [discriminate |].
      intros [= <-]. exact (stringOf_throw _ _ E). }
    destruct v; try exact Hset.
    destruct (appendEach _ _ _) as [q'|e'] eqn:E; simpl; [discriminate |].
    intros [= <-]. exact (appendEach_throw _ _ _ _ E). }
  destruct (String.eqb (param_in q) "header"); [| discriminate].
  destruct (stringOf v) as [text|e'] eqn:E; simpl.
  - destruct (headerValue (param_name q) text); [discriminate | now intros [= <-]].
  - intros [= <-]. exact (stringOf_throw _ _ E).
Qed.

Lemma processParameters_app (l1 l2 : list (ReferenceObject + ParameterObject))
    (st : Placement) :
  processParameters headerValue toolName args (l1 ++ l2) st
  = (st' <- processParameters headerValue toolName args l1 st ;;
     processParameters headerValue toolName args l2 st').
Proof.
  revert st. induction l1 as [|param l1 IH]; intros st; simpl; [reflexivity |].
  destruct (processParameter headerValue toolName args st param); simpl;
    [apply IH | reflexivity].
Qed.

(** What one turn of the loop can throw. *)
Lemma processParameter_throw (param : ReferenceObject + ParameterObject)
    (st : Placement) (e : Exception) :
  processParameter headerValue toolName args st param = Throw e ->
  e = TypeError
  \/ exists p, param = inr p /\ param_required p = true
               /\ PlainObject.get args (param_name p) = None
               /\ e = missingParameter (param_name p) toolName.
Proof.
  destruct param as [ref | p]; simpl; [discriminate |].
  destruct (PlainObject.get args (param_name p)) as [v|] eqn:E.
  - intros H. left. exact (place_throw _ _ _ _ H).
  - destruct (param_required p) eqn:R; [| discriminate].
    intros [= <-]. right. eauto.
Qed.

(** The loop stops at a required parameter without a value when the
    parameters before it were processed. *)
Lemma processParameters_first_missing
    (pre post : list (ReferenceObject + ParameterObject)) (p : ParameterObject)
    (st st' : Placement) :
  processParameters headerValue toolName args pre st = Return st' ->
  param_required p = true ->
  PlainObject.get args (param_name p) = None ->
  processParameters headerValue toolName args (pre ++ inr p :: post) st
  = Throw (missingParameter (param_name p) toolName).
Proof.
  intros Hpre Hreq Hmiss. rewrite processParameters_app, Hpre. simpl.
  now rewrite Hmiss, Hreq.
Qed.

(** What the loop can throw: the [TypeError] of a placement, or the error
    for the first required parameter without a value. *)
Lemma processParameters_throw (params : list (ReferenceObject + ParameterObject))
    (st : Placement) (e : Exception) :
  processParameters headerValue toolName args params st = Throw e ->
  e = TypeError
  \/ exists pre p post st',
       params = pre ++ inr p :: post
       /\ processParameters headerValue toolName args pre st = Return st'
       /\ param_required p = true /\ PlainObject.get args (param_name p) = None
       /\ e = missingParameter (param_name p) toolName.
Proof.
  revert st. induction params as [|param params IH]; intros st; simpl; [discriminate |].
  destruct (processParameter headerValue toolName args st param) as [st1|e'] eqn:E; simpl.
  - intros H. destruct (IH _ H) as [-> | (pre & p & post & st' & -> & Hpre & Hreq & Hmiss & ->)];
      [now left | right].
    exists (param :: pre), p, post, st'. repeat split; try assumption.
    simpl. now rewrite E.
  - intros [= <-].
    destruct (processParameter_throw _ _ _ E) as [-> | (p & -> & Hreq & Hmiss & ->)];
      [now left | right].
    exists [], p, params, st. repeat split; assumption.
Qed.

(** A required parameter without a value makes the loop throw. *)
Lemma processParameters_missing (params : list (ReferenceObject + ParameterObject))
    (p : ParameterObject) (st : Placement) :
  In (inr p) params ->
  param_required p = true ->
  PlainObject.get args (param_name p) = None ->
  exists e, processParameters headerValue toolName args params st = Throw e.
Proof.
  intros Hin Hreq Hmiss. revert st.
  induction params as [|param params IH]; intros st; [contradiction |].
  simpl. destruct Hin as [-> | Hin].
  - simpl. rewrite Hmiss, Hreq. simpl. eauto.
  - destruct (processParameter headerValue toolName args st param); simpl; eauto.
Qed.

End Parameters.

(** ** The handler *)

Section Handler.

Variable headerValue : string -> string -> option string.
Variable JSON_stringify : Value -> Http.Try string.
Variable fetch : Http.Request -> Http.Try Http.Response.
Variable prettyPrint : string -> option string.
Variable headersJson : Http.Headers -> string.

Local Abbreviation invoke :=
  (callTool headerValue JSON_stringify fetch prettyPrint headersJson).
Local Abbreviation prepare := (prepareRequest headerValue JSON_stringify).
Local Abbreviation processBody := (processRequestBody JSON_stringify).

(** No request is issued unless the preparation returns one. *)
Lemma callTool_throw (operationMap : option (gmap string ToolOperationMapping))
    (baseUrl : string) (request : CallToolRequest) (e : Exception) :
  prepare operationMap baseUrl request = Throw e ->
  invoke operationMap baseUrl request = (Throw e, []).
Proof.
  intros H. unfold callTool. now rewrite H.
Qed.

Lemma callTool_return (operationMap : option (gmap string ToolOperationMapping))
    (baseUrl : string) (request : CallToolRequest) (req : Http.Request) :
  prepare operationMap baseUrl request = Return req ->
  invoke operationMap baseUrl request
  = (match fetch req with
     | Http.Failed message => Throw (requestFailed message)
     | Http.Ok response => Return (processResponse prettyPrint headersJson response)
     end, [req]).
Proof.
  intros H. unfold callTool. now rewrite H.
Qed.

(** The preparation for a tool that the index resolves. *)
Lemma prepareRequest_resolved (operationMap : gmap string ToolOperationMapping)
    (baseUrl : string) (request : CallToolRequest) (mapping : ToolOperationMapping) :
  operationMap !! call_name request = Some mapping ->
  prepare (Some operationMap) baseUrl request
  = (st <- processParameters headerValue (call_name request) (argumentsOf request)
             (parameterList (m_operation mapping))
             (mkPlacement (m_path mapping) []
                (Http.setHeader "Accept" "application/json" ∅)) ;;
     bodyAndHeaders <- processBody (call_name request) (argumentsOf request)
                         (m_operation mapping) (headers st) ;;
     Return (Http.mkRequest (Js.toUpperCase (m_method mapping))
               (baseUrl +:+ processedPath st
                +:+ (if Js.truthyString (Http.toString (queryParams st))
                     then "?" +:+ Http.toString (queryParams st) else ""))
               (snd bodyAndHeaders) (fst bodyAndHeaders))).
Proof.
  intros H. unfold prepareRequest. rewrite H.
  unfold parameterList, argumentsOf.
  destruct (parameters (m_operation mapping)) as [params|]; simpl.
  - destruct (processParameters _ _ _ params _) as [st|e]; simpl; [| reflexivity].
    destruct (processRequestBody _ _ _ _ _) as [[body hs]|e]; reflexivity.
  - destruct (processRequestBody _ _ _ _ _) as [[body hs]|e]; reflexivity.
Qed.

(** What request body processing can throw. *)
Lemma processRequestBody_throw (toolName : string) (args : gmap string Value)
    (operation : OperationObject) (hs : Http.Headers) (e : Exception) :
  processBody toolName args operation hs = Throw e ->
  e = missingRequestBody toolName
  \/ e = unsupportedContentType toolName
  \/ exists message, e = stringifyFailed toolName message.
Proof.
  unfold processRequestBody.
  destruct (requestBody operation) as [[ref | body]|]; try discriminate.
  destruct (PlainObject.get args "requestBody") as [v|].
  - destruct (body_content body ≫= _); [| intros [= <-]; auto].
    destruct (JSON_stringify v) as [text | message]; [discriminate |].
    intros [= <-]. eauto.
  - destruct (body_required body); [intros [= <-]; auto | discriminate].
Qed.

(** Everything the handler can throw. *)
Lemma callTool_throw_inv (operationMap : option (gmap string ToolOperationMapping))
    (baseUrl : string) (request : CallToolRequest) (e : Exception) :
  fst (invoke operationMap baseUrl request) = Throw e ->
  e = Error "Operation map not initialized"
  \/ e = toolNotFound (call_name request)
  \/ e = TypeError
  \/ (exists p, param_required p = true
                /\ PlainObject.get (argumentsOf request) (param_name p) = None
                /\ e = missingParameter (param_name p) (call_name request))
  \/ e = missingRequestBody (call_name request)
  \/ e = unsupportedContentType (call_name request)
  \/ (exists message, e = stringifyFailed (call_name request) message)
  \/ (exists message, e = requestFailed message).
Proof.
  destruct operationMap as [operationMap|].
  2:{ intros [= <-]. auto. }
  destruct (operationMap !! call_name request) as [mapping|] eqn:Hres.
  2:{ unfold callTool, prepareRequest. rewrite Hres. intros [= <-]. auto. }
  destruct (prepare (Some operationMap) baseUrl request) as [req|e'] eqn:Hprep.
  - rewrite (callTool_return _ _ _ _ Hprep). simpl.
    destruct (fetch req) as [response | message]; [discriminate |].
    intros [= <-]. do 7 right. eauto.
  - rewrite (callTool_throw _ _ _ _ Hprep). simpl. intros [= <-].
    rewrite (prepareRequest_resolved _ _ _ _ Hres) in Hprep.
    destruct (processParameters _ _ _ _ _) as [st|e1] eqn:Hparams; simpl in Hprep.
    + destruct (processBody _ _ _ _) as [bh|e2] eqn:Hbody; simpl in Hprep;
        [discriminate |].
      injection Hprep as <-.
      destruct (processRequestBody_throw _ _ _ _ _ Hbody) as [-> | [-> | [message ->]]];
        eauto 10.
    + injection Hprep as <-.
      apply processParameters_throw in Hparams
        as [-> | (pre & p & post & st' & _ & _ & Hreq & Hmiss & ->)]; [auto |].
      do 3 right; left. eauto.
Qed.

(** Once an argument bag holds a value under a name, the handler no longer
    fails for the lack of it. *)
Lemma supplied_parameter_not_reported
    (operationMap : option (gmap string ToolOperationMapping))
    (baseUrl : string) (request : CallToolRequest) (n : string) :
  is_Some (argumentsOf request !! n) ->
  fst (invoke operationMap baseUrl request)
  <> Throw (missingParameter n (call_name request)).
Proof.
  intros [v Hv] H. apply callTool_throw_inv in H
    as [H | [H | [H | [(p & _ & Hmiss & H) | [H | [H | [(message & H) | (message & H)]]]]]]].
  - discriminate H.
  - discriminate H.
  - discriminate H.
  - apply missingParameter_inj in H. subst n.
    apply get_undefined in Hmiss as [Hmiss _]. rewrite Hmiss in Hv. discriminate.
  - exact (missingParameter_not_missingRequestBody _ _ _ H).
  - exact (missingParameter_not_unsupported _ _ _ H).
  - exact (missingParameter_not_stringifyFailed _ _ _ _ H).
  - discriminate H.
Qed.

(** Nor does it fail for the lack of a parameter whose name every object
    inherits: the read finds the inherited value. *)
Lemma inherited_parameter_not_reported
    (operationMap : option (gmap string ToolOperationMapping))
    (baseUrl : string) (request : CallToolRequest) (n : string) :
  is_Some (PlainObject.inherited n) ->
  fst (invoke operationMap baseUrl request)
  <> Throw (missingParameter n (call_name request)).
Proof.
  intros [v Hv] H. apply callTool_throw_inv in H
    as [H | [H | [H | [(p & _ & Hmiss & H) | [H | [H | [(message & H) | (message & H)]]]]]]].
  - discriminate H.
  - discriminate H.
  - discriminate H.
  - apply missingParameter_inj in H. subst n.
    apply get_undefined in Hmiss as [_ Hmiss]. rewrite Hmiss in Hv. discriminate.
  - exact (missingParameter_not_missingRequestBody _ _ _ H).
  - exact (missingParameter_not_unsupported _ _ _ H).
  - exact (missingParameter_not_stringifyFailed _ _ _ _ H).
  - discriminate H.
Qed.

(** When the loop over the parameters completes, the preparation goes on to
    the request body with the placement the loop returned. *)
Lemma prepareRequest_parameters_done (operationMap : gmap string ToolOperationMapping)
    (baseUrl : string) (request : CallToolRequest) (mapping : ToolOperationMapping)
    (st : Placement) :
  operationMap !! call_name request = Some mapping ->
  processParameters headerValue (call_name request) (argumentsOf request)
    (parameterList (m_operation mapping)) (initialPlacement (m_path mapping))
  = Return st ->
  prepare (Some operationMap) baseUrl request
  = (bodyAndHeaders <- processBody (call_name request) (argumentsOf request)
                         (m_operation mapping) (headers st) ;;
     Return (Http.mkRequest (Js.toUpperCase (m_method mapping))
               (baseUrl +:+ processedPath st
                +:+ (if Js.truthyString (Http.toString (queryParams st))
                     then "?" +:+ Http.toString (queryParams st) else ""))
               (snd bodyAndHeaders) (fst bodyAndHeaders))).
Proof.
  intros Hres Hrun. rewrite (prepareRequest_resolved _ _ _ _ Hres).
  unfold initialPlacement in Hrun. now rewrite Hrun.
Qed.

(** A required parameter for which the read of the argument bag gives
    [undefined]: the handler throws and issues no request. *)
Lemma callTool_missing (operationMap : gmap string ToolOperationMapping)
    (baseUrl : string) (request : CallToolRequest) (mapping : ToolOperationMapping)
    (p : ParameterObject) :
  operationMap !! call_name request = Some mapping ->
  In (inr p) (parameterList (m_operation mapping)) ->
  param_required p = true ->
  PlainObject.get (argumentsOf request) (param_name p) = None ->
  exists e, invoke (Some operationMap) baseUrl request = (Throw e, []).
Proof.
  intros Hres Hin Hreq Hmiss.
  destruct (processParameters_missing headerValue (call_name request) (argumentsOf request)
              _ p (mkPlacement (m_path mapping) []
                     (Http.setHeader "Accept" "application/json" ∅))
              Hin Hreq Hmiss) as [e He].
  exists e. apply callTool_throw.
  now rewrite (prepareRequest_resolved _ _ _ _ Hres), He.
Qed.

(** The error for the parameter itself, when the parameters declared before
    it were processed. *)
Lemma callTool_missing_named (operationMap : gmap string ToolOperationMapping)
    (baseUrl : string) (request : CallToolRequest) (mapping : ToolOperationMapping)
    (pre post : list (ReferenceObject + ParameterObject)) (p : ParameterObject)
    (st : Placement) :
  operationMap !! call_name request = Some mapping ->
  parameterList (m_operation mapping) = pre ++ inr p :: post ->
  processParameters headerValue (call_name request) (argumentsOf request) pre
    (initialPlacement (m_path mapping)) = Return st ->
  param_required p = true ->
  PlainObject.get (argumentsOf request) (param_name p) = None ->
  invoke (Some operationMap) baseUrl request
  = (Throw (missingParameter (param_name p) (call_name request)), []).
Proof.
  intros Hres Hsplit Hpre Hreq Hmiss. apply callTool_throw.
  unfold initialPlacement in Hpre.
  rewrite (prepareRequest_resolved _ _ _ _ Hres), Hsplit.
  now rewrite (processParameters_first_missing _ _ _ pre post p _ _ Hpre Hreq Hmiss).
Qed.

(** C4 (as the code has it).  When the resolved operation has a required
    parameter and the read of the argument bag under the parameter's name
    gives [undefined] (the bag has no value of its own under the name, and
    the name is not one that every object inherits, such as [constructor] or
    [toString]), the handler throws and issues no HTTP request.  It throws
    [InvalidParams] naming this parameter when the loop has processed the
    parameters declared before it: none of them is required and missing, and
    none of their values is rejected by a conversion or by the header store.
    With a value supplied under the parameter's name, the handler no longer
    fails with the error that names it. *)
Theorem missing_required_parameter (operationMap : gmap string ToolOperationMapping)
    (baseUrl : string) (request : CallToolRequest) (mapping : ToolOperationMapping)
    (p : ParameterObject) :
  operationMap !! call_name request = Some mapping ->
  In (inr p) (parameterList (m_operation mapping)) ->
  param_required p = true ->
  PlainObject.get (argumentsOf request) (param_name p) = None ->
  (exists e, invoke (Some operationMap) baseUrl request = (Throw e, []))
  /\ (forall pre post st,
        parameterList (m_operation mapping) = pre ++ inr p :: post ->
        processParameters headerValue (call_name request) (argumentsOf request) pre
          (initialPlacement (m_path mapping)) = Return st ->
        invoke (Some operationMap) baseUrl request
        = (Throw (McpError InvalidParams
                    ("Missing required parameter '" +:+ param_name p
                     +:+ "' for tool '" +:+ call_name request +:+ "'.")), []))
  /\ (forall v,
        fst (invoke (Some operationMap) baseUrl
               {| call_name := call_name request;
                  call_arguments := Some (<[param_name p := v]> (argumentsOf request)) |})
        <> Throw (McpError InvalidParams
                    ("Missing required parameter '" +:+ param_name p
                     +:+ "' for tool '" +:+ call_name request +:+ "'."))).
Proof.
  intros Hres Hin Hreq Hmiss. split; [| split].
  - exact (callTool_missing _ baseUrl _ _ _ Hres Hin Hreq Hmiss).
  - intros pre post st Hsplit Hpre.
    exact (callTool_missing_named _ baseUrl _ _ pre post p st Hres Hsplit Hpre Hreq Hmiss).
  - intros v.
    apply (supplied_parameter_not_reported (Some operationMap) baseUrl
             {| call_name := call_name request;
                call_arguments := Some (<[param_name p := v]> (argumentsOf request)) |}
             (param_name p)).
    unfold argumentsOf at 1. simpl. rewrite lookup_insert_eq. eauto.
Qed.

(** C5 (as the code has it).  When the resolved operation declares a request
    body without an [application/json] entry, the argument bag supplies a
    [requestBody] and the loop over the parameters has completed (no required
    parameter lacks a value and no value is rejected by a conversion or by
    the header store), the handler issues no HTTP request and fails with an
    error whose code is [InvalidParams], the code of the other argument
    errors; only its message tells it apart from them. *)
Theorem unsupported_content_type (operationMap : gmap string ToolOperationMapping)
    (baseUrl : string) (request : CallToolRequest) (mapping : ToolOperationMapping)
    (body : RequestBodyObject) (v : Value) (st : Placement) :
  operationMap !! call_name request = Some mapping ->
  processParameters headerValue (call_name request) (argumentsOf request)
    (parameterList (m_operation mapping)) (initialPlacement (m_path mapping))
  = Return st ->
  requestBody (m_operation mapping) = Some (inr body) ->
  body_content body ≫= (.!! "application/json") = None ->
  argumentsOf request !! "requestBody" = Some v ->
  invoke (Some operationMap) baseUrl request
  = (Throw (McpError InvalidParams
              ("Unsupported request body content type for tool '" +:+ call_name request
               +:+ "'. Only application/json is supported.")), [])
  /\ (forall n toolName,
        unsupportedContentType (call_name request) <> missingParameter n toolName)
  /\ (forall toolName,
        unsupportedContentType (call_name request) <> missingRequestBody toolName)
  /\ (forall toolName message,
        unsupportedContentType (call_name request) <> stringifyFailed toolName message).
Proof.
  intros Hres Hrun Hbody Hjson Harg. split; [| repeat split].
  - apply callTool_throw.
    rewrite (prepareRequest_parameters_done _ baseUrl _ _ _ Hres Hrun).
    unfold processRequestBody. now rewrite Hbody, get_requestBody, Harg, Hjson.
  - intros n toolName H. symmetry in H.
    exact (missingParameter_not_unsupported _ _ _ H).
  - intros toolName. apply unsupported_not_missingRequestBody.
  - intros toolName message. apply unsupported_not_stringifyFailed.
Qed.

(** C10.  When the serialization of the supplied [requestBody] throws (it is
    called for a resolved tool, once the loop over the parameters has
    completed, when the operation has an [application/json] request body),
    the handler fails with [InvalidParams], its message cites the tool name,
    and no HTTP request is issued. *)
Theorem unserializable_request_body (operationMap : gmap string ToolOperationMapping)
    (baseUrl : string) (request : CallToolRequest) (mapping : ToolOperationMapping)
    (body : RequestBodyObject) (media : MediaTypeObject) (v : Value) (message : string)
    (st : Placement) :
  operationMap !! call_name request = Some mapping ->
  processParameters headerValue (call_name request) (argumentsOf request)
    (parameterList (m_operation mapping)) (initialPlacement (m_path mapping))
  = Return st ->
  requestBody (m_operation mapping) = Some (inr body) ->
  body_content body ≫= (.!! "application/json") = Some media ->
  argumentsOf request !! "requestBody" = Some v ->
  JSON_stringify v = Http.Failed message ->
  invoke (Some operationMap) baseUrl request
  = (Throw (McpError InvalidParams
              ("Failed to stringify requestBody for tool '" +:+ call_name request
               +:+ "': " +:+ message)), []).
Proof.
  intros Hres Hrun Hbody Hjson Harg Hthrows.
  apply callTool_throw.
  rewrite (prepareRequest_parameters_done _ baseUrl _ _ _ Hres Hrun).
  unfold processRequestBody. now rewrite Hbody, get_requestBody, Harg, Hjson, Hthrows.
Qed.

(** C6.  When the handler has issued its request and the upstream has
    answered, with any status and whether or not the body can be read, the
    handler returns a result; its error flag is set exactly when the status
    is outside 200-299; in particular it does not throw the error of a failed
    request. *)
Theorem http_status_decides_error_flag
    (operationMap : option (gmap string ToolOperationMapping))
    (baseUrl : string) (request : CallToolRequest)
    (req : Http.Request) (response : Http.Response) :
  prepare operationMap baseUrl request = Return req ->
  fetch req = Http.Ok response ->
  exists result,
    invoke operationMap baseUrl request = (Return result, [req])
    /\ (isError result = true
        <-> (Http.status response < 200 \/ 299 < Http.status response)%N)
    /\ (forall message,
          fst (invoke operationMap baseUrl request) <> Throw (requestFailed message)).
Proof.
  intros Hprep Hfetch.
  exists (processResponse prettyPrint headersJson response).
  rewrite (callTool_return _ _ _ _ Hprep), Hfetch. split; [reflexivity | split].
  - assert (Hflag : isError (processResponse prettyPrint headersJson response)
                    = negb (Http.ok response))
      by (unfold processResponse; destruct (Http.text response); reflexivity).
    rewrite Hflag. unfold Http.ok.
    rewrite negb_true_iff, andb_false_iff, !N.leb_gt. reflexivity.
  - intros message. discriminate.
Qed.

End Handler.

(** ** Query parameters *)

Lemma filter_named_excluded (n : string) (q : Http.URLSearchParams) :
  List.filter (fun e => String.eqb (fst e) n)
    (List.filter (fun e => negb (String.eqb (fst e) n)) q) = [].
Proof.
  induction q as [|[a b] q IH]; simpl; [reflexivity |].
  destruct (String.eqb a n) eqn:E; simpl; [exact IH | now rewrite E].
Qed.

Lemma filter_named_other (n m : string) (q : Http.URLSearchParams) :
  m <> n ->
  List.filter (fun e => String.eqb (fst e) n)
    (List.filter (fun e => negb (String.eqb (fst e) m)) q)
  = List.filter (fun e => String.eqb (fst e) n) q.
Proof.
  intros Hne. induction q as [|[a b] q IH]; simpl; [reflexivity |].
  destruct (String.eqb a m) eqn:Em; simpl.
  - apply String.eqb_eq in Em. subst a.
    apply String.eqb_neq in Hne. now rewrite Hne.
  - now rewrite IH.
Qed.

Lemma getAll_append (n m value : string) (q : Http.URLSearchParams) :
  Http.getAll n (Http.append m value q)
  = Http.getAll n q ++ (if String.eqb m n then [value] else []).
Proof.
  unfold Http.getAll, Http.append. rewrite List.filter_app, map_app. simpl.
  destruct (String.eqb m n); reflexivity.
Qed.

(** After [set] there is exactly one pair of that name. *)
Lemma getAll_set_same (n value : string) (q : Http.URLSearchParams) :
  Http.getAll n (Http.set n value q) = [value].
Proof.
  unfold Http.getAll. induction q as [|[a b] q IH]; simpl.
  - now rewrite String.eqb_refl.
  - destruct (String.eqb a n) eqn:E; simpl; rewrite E; [| exact IH].
    simpl. now rewrite filter_named_excluded.
Qed.

Lemma getAll_set_other (n m value : string) (q : Http.URLSearchParams) :
  m <> n -> Http.getAll n (Http.set m value q) = Http.getAll n q.
Proof.
  intros Hne. unfold Http.getAll. induction q as [|[a b] q IH]; simpl.
  - apply String.eqb_neq in Hne. now rewrite Hne.
  - destruct (String.eqb a m) eqn:Em; simpl.
    + apply String.eqb_eq in Em. subst a.
      pose proof Hne as Hne'. apply String.eqb_neq in Hne'. rewrite Hne'.
      now rewrite filter_named_other.
    + destruct (String.eqb a n); simpl; now rewrite IH.
Qed.

(** An array whose elements all convert adds one pair for each element, in
    element order. *)
Lemma getAll_appendEach (n m : string) (elems : list Value) (q q' : Http.URLSearchParams) :
  appendEach m elems q = Return q' ->
  Http.getAll n q'
  = Http.getAll n q ++ (if String.eqb m n then map Json.toString elems else []).
Proof.
  revert q. induction elems as [|val elems IH]; intros q; simpl.
  - intros [= <-]. destruct (String.eqb m n); now rewrite app_nil_r.
  - destruct (stringOf val) as [text|e] eqn:E; simpl; [| discriminate].
    apply stringOf_return in E as [_ ->].
    intros H. rewrite (IH _ H), getAll_append. destruct (String.eqb m n); simpl.
    + now rewrite <- app_assoc.
    + now rewrite !app_nil_r.
Qed.

Section QueryParameters.

Variable headerValue : string -> string -> option string.

(** A parameter of another name or location leaves the pairs of a name alone. *)
Lemma place_other (n : string) (q : ParameterObject) (v : Value) (st st' : Placement) :
  notQueryNamed n (inr q) ->
  place headerValue q v st = Return st' ->
  Http.getAll n (queryParams st') = Http.getAll n (queryParams st).
Proof.
  simpl. intros Hq. unfold place.
  destruct (String.eqb (param_in q) "path").
  { destruct (stringOf v); simpl; [now intros [= <-] | discriminate]. }
  destruct (String.eqb (param_in q) "query") eqn:Equery.
  - apply String.eqb_eq in Equery.
    assert (Hne : param_name q <> n) by (intros Hn; apply Hq; split; assumption).
    assert (Hset : (text <- stringOf v ;;
                    Return (mkPlacement (processedPath st)
                              (Http.set (param_name q) text (queryParams st)) (headers st)))
                   = Return st' ->
                   Http.getAll n (queryParams st') = Http.getAll n (queryParams st)).
    { destruct (stringOf v); simpl; [| discriminate].
      intros [= <-]. simpl. now apply getAll_set_other. }
    destruct v; try exact Hset.
    destruct (appendEach _ _ _) as [q'|e] eqn:E; simpl; [| discriminate].
    intros [= <-]. simpl. rewrite (getAll_appendEach n _ _ _ _ E).
    apply String.eqb_neq in Hne. rewrite Hne. apply app_nil_r.
  - destruct (String.eqb (param_in q) "header"); [| now intros [= <-]].
    destruct (stringOf v) as [text|e]; simpl; [| discriminate].
    destruct (headerValue (param_name q) text); [now intros [= <-] | discriminate].
Qed.

Lemma processParameters_other (toolName : string) (args : gmap string Value) (n : string)
    (params : list (ReferenceObject + ParameterObject)) (st st' : Placement) :
  Forall (notQueryNamed n) params ->
  processParameters headerValue toolName args params st = Return st' ->
  Http.getAll n (queryParams st') = Http.getAll n (queryParams st).
Proof.
  intros H. revert st. induction H as [|param params Hp _ IH]; intros st; simpl.
  - now intros [= ->].
  - destruct param as [ref | q]; simpl; [apply IH |].
    destruct (PlainObject.get args (param_name q)) as [v|].
    + destruct (place headerValue q v st) as [st1|e] eqn:E; simpl; [| discriminate].
      intros Hrest. rewrite (IH _ Hrest). exact (place_other _ _ _ _ _ Hp E).
    + destruct (param_required q); simpl; [discriminate | apply IH].
Qed.

(** C7.  When the loop over the parameters completes, a query parameter that
    is the only query parameter of its name and for which the argument bag has
    a value contributes, for an array, one pair of its name for each element,
    holding the string form of that element, in element order; for any other
    value, exactly one pair of its name. *)
Theorem query_parameter_entries (toolName : string) (args : gmap string Value)
    (pre post : list (ReferenceObject + ParameterObject)) (p : ParameterObject)
    (path : string) (hs : Http.Headers) (st : Placement) (v : Value) :
  processParameters headerValue toolName args (pre ++ inr p :: post)
    (mkPlacement path [] hs)
  = Return st ->
  param_in p = "query" ->
  args !! param_name p = Some v ->
  Forall (notQueryNamed (param_name p)) (pre ++ post) ->
  Http.getAll (param_name p) (queryParams st)
  = match v with
    | VArray elems => map Json.toString elems
    | _ => [Json.toString v]
    end.
Proof.
  intros Hrun Hquery Harg Hothers.
  apply Forall_app in Hothers as [Hpre Hpost].
  rewrite processParameters_app in Hrun.
  destruct (processParameters headerValue toolName args pre _) as [st1|e] eqn:Hrun1;
    [| discriminate].
  simpl in Hrun. rewrite (get_own _ _ _ Harg) in Hrun.
  destruct (place headerValue p v st1) as [st2|e] eqn:Hplace; simpl in Hrun;
    [| discriminate].
  rewrite (processParameters_other _ _ _ _ _ _ Hpost Hrun).
  pose proof (processParameters_other _ _ _ _ _ _ Hpre Hrun1) as Hst1.
  simpl in Hst1. unfold place in Hplace. rewrite Hquery in Hplace. simpl in Hplace.
  assert (Hset : (text <- stringOf v ;;
                  Return (mkPlacement (processedPath st1)
                            (Http.set (param_name p) text (queryParams st1)) (headers st1)))
                 = Return st2 ->
                 Http.getAll (param_name p) (queryParams st2) = [Json.toString v]).
  { destruct (stringOf v) as [text|e] eqn:E; simpl; [| discriminate].
    apply stringOf_return in E as [_ ->].
    intros [= <-]. simpl. apply getAll_set_same. }
  destruct v; try exact (Hset Hplace).
  destruct (appendEach _ _ _) as [q'|e] eqn:E; simpl in Hplace; [| discriminate].
  injection Hplace as <-. simpl.
  rewrite (getAll_appendEach (param_name p) _ _ _ _ E), Hst1, String.eqb_refl.
  reflexivity.
Qed.

End QueryParameters.

(** ** Assignment to a property *)

Lemma hasOwn_In {A : Type} (k : string) (o : list (string * A)) :
  hasOwn k o = true <-> In k (map fst o).
Proof.
  unfold hasOwn. induction o as [|[a b] o IH]; simpl; [split; [discriminate | tauto] |].
  rewrite orb_true_iff, IH, String.eqb_eq. tauto.
Qed.

Lemma insertIndex_names {A : Type} (i : N) (n k : string) (v : A) (o : list (string * A)) :
  In n (map fst (insertIndex i k v o)) <-> n = k \/ In n (map fst o).
Proof.
  induction o as [|[a b] o IH]; simpl; [intuition |].
  destruct (Js.arrayIndex a) as [m|]; [destruct (m <? i)%N |]; simpl;
    rewrite ?IH; intuition.
Qed.

Lemma replaced_names {A : Type} (k : string) (v : A) (o : list (string * A)) :
  map fst (map (fun e => if String.eqb (fst e) k then (fst e, v) else e) o) = map fst o.
Proof.
  induction o as [|[a b] o IH]; simpl; [reflexivity |].
  rewrite IH. now destruct (String.eqb a k).
Qed.

(** The keys after an assignment: the key is added unless it is
    [__proto__]. *)
Lemma objSet_names {A : Type} (n k : string) (v : A) (o : list (string * A)) :
  In n (map fst (objSet k v o)) <-> (n = k /\ k <> "__proto__") \/ In n (map fst o).
Proof.
  unfold objSet. destruct (String.eqb k "__proto__") eqn:Ep.
  { apply String.eqb_eq in Ep. intuition congruence. }
  apply String.eqb_neq in Ep.
  destruct (hasOwn k o) eqn:Eo.
  { rewrite replaced_names. apply hasOwn_In in Eo. intuition congruence. }
  destruct (Js.arrayIndex k) as [i|].
  - rewrite insertIndex_names. intuition.
  - rewrite map_app, in_app_iff. simpl. intuition.
Qed.

Lemma objGet_None {A : Type} (n : string) (o : list (string * A)) :
  ~ In n (map fst o) -> objGet n o = None.
Proof.
  induction o as [|[a b] o IH]; simpl; [reflexivity |].
  intros H. destruct (String.eqb a n) eqn:E.
  - apply String.eqb_eq in E. tauto.
  - apply IH. tauto.
Qed.

Lemma objGet_Some_In {A : Type} (n : string) (o : list (string * A)) :
  In n (map fst o) -> is_Some (objGet n o).
Proof.
  induction o as [|[a b] o IH]; simpl; [tauto |].
  destruct (String.eqb a n) eqn:E; [eauto |].
  intros [-> | H]; [rewrite String.eqb_refl in E; discriminate | now apply IH].
Qed.

Lemma objGet_app {A : Type} (n : string) (o o' : list (string * A)) :
  objGet n (o ++ o') = match objGet n o with Some v => Some v | None => objGet n o' end.
Proof.
  induction o as [|[a b] o IH]; simpl; [reflexivity |].
  now destruct (String.eqb a n).
Qed.

Lemma objGet_insertIndex_other {A : Type} (i : N) (n k : string) (v : A)
    (o : list (string * A)) :
  String.eqb k n = false -> objGet n (insertIndex i k v o) = objGet n o.
Proof.
  intros Hne. induction o as [|[a b] o IH]; simpl; [now rewrite Hne |].
  destruct (Js.arrayIndex a) as [m|]; [destruct (m <? i)%N |]; simpl;
    rewrite ?IH, ?Hne; reflexivity.
Qed.

Lemma objGet_insertIndex_same {A : Type} (i : N) (k : string) (v : A)
    (o : list (string * A)) :
  objGet k o = None -> objGet k (insertIndex i k v o) = Some v.
Proof.
  induction o as [|[a b] o IH]; simpl; [now rewrite String.eqb_refl |].
  destruct (String.eqb a k) eqn:Ea; [discriminate |]. intros H.
  destruct (Js.arrayIndex a) as [m|]; [destruct (m <? i)%N |]; simpl;
    rewrite ?Ea, ?String.eqb_refl; auto.
Qed.

Lemma objGet_replaced {A : Type} (n k : string) (v : A) (o : list (string * A)) :
  objGet n (map (fun e => if String.eqb (fst e) k then (fst e, v) else e) o)
  = if String.eqb k n then (fun _ => v) <$> objGet n o else objGet n o.
Proof.
  induction o as [|[a b] o IH]; simpl; [now destruct (String.eqb k n) |].
  destruct (String.eqb a k) eqn:Eak; simpl.
  - apply String.eqb_eq in Eak. subst a.
    destruct (String.eqb k n); [reflexivity | exact IH].
  - rewrite IH. destruct (String.eqb a n) eqn:Ean; [| reflexivity].
    apply String.eqb_eq in Ean. subst a. now rewrite String.eqb_sym, Eak.
Qed.

(** After an assignment the key holds the value, unless the key is
    [__proto__]. *)
Lemma objGet_objSet_same {A : Type} (k : string) (v : A) (o : list (string * A)) :
  k <> "__proto__" -> objGet k (objSet k v o) = Some v.
Proof.
  intros Hk. apply String.eqb_neq in Hk. unfold objSet. rewrite Hk.
  destruct (hasOwn k o) eqn:Eo.
  - rewrite objGet_replaced, String.eqb_refl.
    apply hasOwn_In, objGet_Some_In in Eo. destruct Eo as [w ->]. reflexivity.
  - assert (Hnone : objGet k o = None).
    { apply objGet_None. intros H. apply hasOwn_In in H. congruence. }
    destruct (Js.arrayIndex k) as [i|].
    + now apply objGet_insertIndex_same.
    + rewrite objGet_app, Hnone. simpl. now rewrite String.eqb_refl.
Qed.

(** An assignment leaves the other keys alone. *)
Lemma objGet_objSet_other {A : Type} (n k : string) (v : A) (o : list (string * A)) :
  k <> n -> objGet n (objSet k v o) = objGet n o.
Proof.
  intros Hne. apply String.eqb_neq in Hne. unfold objSet.
  destruct (String.eqb k "__proto__"); [reflexivity |].
  destruct (hasOwn k o).
  - now rewrite objGet_replaced, Hne.
  - destruct (Js.arrayIndex k) as [i|].
    + now apply objGet_insertIndex_other.
    + rewrite objGet_app. simpl. rewrite Hne. now destruct (objGet n o).
Qed.

(** No assignment gives an object a property named [__proto__]. *)
Lemma objGet_objSet_proto {A : Type} (k : string) (v : A) (o : list (string * A)) :
  objGet "__proto__" (objSet k v o) = objGet "__proto__" o.
Proof.
  destruct (String.eqb k "__proto__") eqn:E.
  - unfold objSet. now rewrite E.
  - apply objGet_objSet_other. now apply String.eqb_neq.
Qed.

(** ** Parameters without schema *)

Lemma addParameter_schemaless (j : JSONSchema7) (p : ParameterObject) :
  param_schema p = None -> addParameter j (inr p) = j.
Proof. intros H. unfold addParameter. now rewrite H. Qed.

(** A parameter without schema leaves the input schema as it is, whatever
    its position. *)
Lemma fold_addParameter_schemaless
    (pre post : list (ReferenceObject + ParameterObject)) (p : ParameterObject)
    (j : JSONSchema7) :
  param_schema p = None ->
  fold_left addParameter (pre ++ inr p :: post) j
  = fold_left addParameter (pre ++ post) j.
Proof.
  intros H. rewrite !fold_left_app. cbn [fold_left].
  now rewrite addParameter_schemaless.
Qed.

Lemma addParameter_names (n : string) (param : ReferenceObject + ParameterObject)
    (j : JSONSchema7) :
  noSchemaNamed n param ->
  (In n (propertyNames (addParameter j param)) -> In n (propertyNames j))
  /\ (In n (requiredNames (addParameter j param)) -> In n (requiredNames j)).
Proof.
  destruct param as [ref | q]; simpl; [tauto |].
  intros Hq. destruct (param_schema q) as [schema|] eqn:Hs; simpl; [| tauto].
  assert (Hne : n <> param_name q) by (intros ->; specialize (Hq eq_refl); discriminate).
  destruct (param_required q); unfold propertyNames, requiredNames; simpl;
    rewrite ?objSet_names, ?in_app_iff; simpl; intuition congruence.
Qed.

Lemma fold_addParameter_names (n : string)
    (params : list (ReferenceObject + ParameterObject)) (j : JSONSchema7) :
  Forall (noSchemaNamed n) params ->
  (In n (propertyNames (fold_left addParameter params j)) -> In n (propertyNames j))
  /\ (In n (requiredNames (fold_left addParameter params j)) -> In n (requiredNames j)).
Proof.
  intros H. revert j. induction H as [|param params Hp _ IH]; intros j; simpl; [tauto |].
  destruct (IH (addParameter j param)) as [IH1 IH2].
  destruct (addParameter_names n param j Hp) as [H1 H2]. tauto.
Qed.

Lemma addRequestBody_names (n : string) (body : option (ReferenceObject + RequestBodyObject))
    (j : JSONSchema7) :
  n <> "requestBody" ->
  (In n (propertyNames (addRequestBody j body)) -> In n (propertyNames j))
  /\ (In n (requiredNames (addRequestBody j body)) -> In n (requiredNames j)).
Proof.
  intros Hne. unfold addRequestBody.
  destruct body as [[ref | body]|]; try tauto.
  destruct (_ ≫= media_schema) as [schema|]; [| tauto].
  destruct (body_required body); unfold propertyNames, requiredNames; simpl;
    rewrite ?objSet_names, ?in_app_iff; simpl; intuition congruence.
Qed.

Lemma dropEmptyRequired_names (j : JSONSchema7) :
  propertyNames (dropEmptyRequired j) = propertyNames j
  /\ requiredNames (dropEmptyRequired j) = requiredNames j.
Proof.
  unfold dropEmptyRequired, requiredNames.
  destruct (js_required j) as [[|x r]|] eqn:E; simpl; rewrite ?E; auto.
Qed.

(** A name that no parameter with a schema carries, and that is not the name
    of the body property, is neither advertised nor required. *)
Lemma buildInputSchema_names (n : string) (operation : OperationObject) :
  Forall (noSchemaNamed n) (parameterList operation) ->
  n <> "requestBody" ->
  ~ In n (propertyNames (buildInputSchema operation))
  /\ ~ In n (requiredNames (buildInputSchema operation)).
Proof.
  intros Hparams Hne. unfold buildInputSchema.
  destruct (dropEmptyRequired_names
              (addRequestBody
                 match parameters operation with
                 | Some params =>
                     fold_left addParameter params
                       (setRequired (Some [])
                          (setProperties (Some []) (setType (Some "object") emptySchema)))
                 | None =>
                     setRequired (Some [])
                       (setProperties (Some []) (setType (Some "object") emptySchema))
                 end (requestBody operation))) as [-> ->].
  match goal with
  | |- context [addRequestBody ?j ?b] =>
      destruct (addRequestBody_names n b j Hne) as [B1 B2];
      assert (Hj : ~ In n (propertyNames j) /\ ~ In n (requiredNames j))
  end.
  { unfold parameterList in Hparams.
    destruct (parameters operation) as [params|]; simpl in Hparams.
    - match goal with
      | |- context [fold_left addParameter params ?j0] =>
          destruct (fold_addParameter_names n params j0 Hparams) as [F1 F2]
      end.
      split; intros H; [apply F1 in H | apply F2 in H]; exact H.
    - split; intros H; exact H. }
  tauto.
Qed.

(** The input schema of an operation with a parameter without schema is the
    input schema of the operation without that parameter. *)
Lemma buildInputSchema_schemaless (operation : OperationObject)
    (pre post : list (ReferenceObject + ParameterObject)) (p : ParameterObject) :
  parameterList operation = pre ++ inr p :: post ->
  param_schema p = None ->
  buildInputSchema operation = buildInputSchema (withParameters operation (pre ++ post)).
Proof.
  intros Hparams Hschema. unfold buildInputSchema, parameterList in *.
  destruct (parameters operation) as [params|]; simpl in *.
  - subst params. now rewrite fold_addParameter_schemaless.
  - destruct pre; discriminate.
Qed.

Section Advertised.

Variable headerValue : string -> string -> option string.
Variable JSON_stringify : Value -> Http.Try string.
Variable fetch : Http.Request -> Http.Try Http.Response.
Variable prettyPrint : string -> option string.
Variable headersJson : Http.Headers -> string.

(** C9 (as the code has it).  When an operation of the document has a
    parameter without schema,
    the input schema of the tool built from it is the one the operation would
    have without that parameter: unless another parameter with a schema, or
    the body property, carries the same name, the name is neither among the
    properties nor in the required list, also when the parameter is required.
    Yet when the parameter is required and the tool's name leads to this
    operation (no later operation derives the same name), invoking the tool
    with an argument bag in which the read of the parameter's name gives
    [undefined] throws and issues no request; the error is [InvalidParams]
    for this missing parameter when the loop has processed the parameters
    declared before it. *)
Theorem schemaless_parameter_still_required (apiSpec : Document)
    (ops1 ops2 : list Encountered) (path method : string) (operation : OperationObject)
    (pre post : list (ReferenceObject + ParameterObject)) (p : ParameterObject) :
  operations apiSpec = ops1 ++ (path, method, operation) :: ops2 ->
  parameterList operation = pre ++ inr p :: post ->
  param_schema p = None ->
  let tool := toolOfOperation path method operation in
  In tool (convertOpenAPIToMcTools apiSpec)
  /\ inputSchema tool = buildInputSchema (withParameters operation (pre ++ post))
  /\ (Forall (noSchemaNamed (param_name p)) (pre ++ post) ->
      param_name p <> "requestBody" ->
      objGet (param_name p) (default [] (js_properties (inputSchema tool))) = None
      /\ ~ In (param_name p) (requiredNames (inputSchema tool)))
  /\ (param_required p = true ->
      Forall (fun later => nameOf later <> name tool) ops2 ->
      forall (baseUrl : string) (args : gmap string Value),
        PlainObject.get args (param_name p) = None ->
        (exists e,
            callTool headerValue JSON_stringify fetch prettyPrint headersJson
              (createCallToolHandler None apiSpec (convertOpenAPIToMcTools apiSpec))
              baseUrl {| call_name := name tool; call_arguments := Some args |}
            = (Throw e, []))
        /\ (forall st,
              processParameters headerValue (name tool) args pre (initialPlacement path)
              = Return st ->
              callTool headerValue JSON_stringify fetch prettyPrint headersJson
                (createCallToolHandler None apiSpec (convertOpenAPIToMcTools apiSpec))
                baseUrl {| call_name := name tool; call_arguments := Some args |}
              = (Throw (McpError InvalidParams
                          ("Missing required parameter '" +:+ param_name p
                           +:+ "' for tool '" +:+ name tool +:+ "'.")), []))).
Proof.
  intros Hops Hparams Hschema tool. split; [| split; [| split]].
  - rewrite convert_operations, Hops, map_app. apply in_elt.
  - exact (buildInputSchema_schemaless _ pre post p Hparams Hschema).
  - intros Hothers Hne.
    destruct (buildInputSchema_names (param_name p) operation) as [H1 H2];
      [| exact Hne | split; [now apply objGet_None | exact H2]].
    rewrite Hparams. apply Forall_app in Hothers as [Hpre Hpost].
    apply Forall_app. split; [exact Hpre |]. constructor; [| exact Hpost].
    simpl. intros _. exact Hschema.
  - intros Hreq Hlast baseUrl args Hmiss.
    pose proof (index_lookup_last apiSpec ops1 ops2 (path, method, operation) Hops Hlast)
      as Hres.
    split.
    + apply (callTool_missing headerValue JSON_stringify fetch prettyPrint headersJson
               (buildOperationMap apiSpec (convertOpenAPIToMcTools apiSpec)) baseUrl
               {| call_name := name tool; call_arguments := Some args |}
               (mappingOf (path, method, operation)) p);
        [exact Hres | simpl; rewrite Hparams; apply in_elt | exact Hreq | exact Hmiss].
    + intros st Hpre.
      apply (callTool_missing_named headerValue JSON_stringify fetch prettyPrint headersJson
               (buildOperationMap apiSpec (convertOpenAPIToMcTools apiSpec)) baseUrl
               {| call_name := name tool; call_arguments := Some args |}
               (mappingOf (path, method, operation)) pre post p st);
        [exact Hres | exact Hparams | exact Hpre | exact Hreq | exact Hmiss].
Qed.

End Advertised.

(** ** The dispatch properties on the sample documents *)

Lemma missing_required_parameter_witness :
  Sample.invoke Sample.unreachable Sample.searchStore
    (Sample.call "search" [("a", VString "cats")])
  = (Throw (McpError InvalidParams "Missing required parameter 'b' for tool 'search'."),
     []).
Proof.
  pose (a := Sample.parameter "a" "query" true (Some Sample.stringSchema)).
  pose (b := mkParameter "b" "query" true None (Some Sample.stringSchema)).
  destruct (missing_required_parameter Sample.headerValue
              Sample.JSON_stringify Sample.unreachable Sample.prettyPrint Sample.headersJson
              (buildOperationMap Sample.searchStore
                 (convertOpenAPIToMcTools Sample.searchStore))
              "https://api.example.com"
              (Sample.call "search" [("a", VString "cats")])
              (mappingOf ("/search", "get", Sample.search)) b)
    as (_ & Hnamed & _).
  - vm_compute. reflexivity.
  - simpl. right. left. reflexivity.
  - reflexivity.
  - vm_compute. reflexivity.
  - apply (Hnamed [a] []
             (mkPlacement "/search" [("a", "cats")] {[ "accept" := "application/json" ]}));
      [reflexivity | vm_compute; reflexivity].
Defined.

(** C4 (as stated) fails: with two required parameters [a] and [b] and no
    argument, parameter [b] is required and has no value, yet the error names
    [a]. *)
Lemma second_missing_parameter_is_not_named :
  In (Sample.parameter "b" "query" true (Some Sample.stringSchema))
     (parameterList Sample.search)
  /\ argumentsOf (Sample.call "search" []) !! "b" = None
  /\ Sample.invoke Sample.unreachable Sample.searchStore (Sample.call "search" [])
     = (Throw (McpError InvalidParams "Missing required parameter 'a' for tool 'search'."),
        [])
  /\ Sample.invoke Sample.unreachable Sample.searchStore (Sample.call "search" [])
     <> (Throw (McpError InvalidParams "Missing required parameter 'b' for tool 'search'."),
         []).
Proof.
  split; [simpl; right; left; reflexivity |].
  split; [vm_compute; reflexivity |].
  assert (H : Sample.invoke Sample.unreachable Sample.searchStore (Sample.call "search" [])
              = (Throw (McpError InvalidParams
                          "Missing required parameter 'a' for tool 'search'."), []))
    by (vm_compute; reflexivity).
  split; [exact H |]. rewrite H. discriminate.
Qed.

Lemma unsupported_content_type_witness :
  Sample.invoke Sample.unreachable Sample.uploadStore
    (Sample.call "upload" [("requestBody", VString "hi")])
  = (Throw (McpError InvalidParams
              "Unsupported request body content type for tool 'upload'. Only application/json is supported."),
     []).
Proof.
  destruct (unsupported_content_type Sample.headerValue
              Sample.JSON_stringify Sample.unreachable Sample.prettyPrint Sample.headersJson
              (buildOperationMap Sample.uploadStore
                 (convertOpenAPIToMcTools Sample.uploadStore))
              "https://api.example.com"
              (Sample.call "upload" [("requestBody", VString "hi")])
              (mappingOf ("/upload", "post", Sample.upload))
              {| body_description := None;
                 body_content :=
                   Some {[ "text/plain" := mkMediaType (Some Sample.stringSchema) ]};
                 body_required := false |}
              (VString "hi") (initialPlacement "/upload"))
    as (Hthrow & _).
  - vm_compute. reflexivity.
  - reflexivity.
  - reflexivity.
  - vm_compute. reflexivity.
  - vm_compute. reflexivity.
  - exact Hthrow.
Defined.

(** C5 (as stated) fails: the error for an unsupported content type carries
    the code [InvalidParams], the very code of the error for a missing
    argument. *)
Lemma unsupported_content_type_has_code_InvalidParams :
  fst (Sample.invoke Sample.unreachable Sample.uploadStore
         (Sample.call "upload" [("requestBody", VString "hi")]))
  = Throw (McpError InvalidParams
             "Unsupported request body content type for tool 'upload'. Only application/json is supported.")
  /\ fst (Sample.invoke Sample.unreachable Sample.searchStore (Sample.call "search" []))
     = Throw (McpError InvalidParams "Missing required parameter 'a' for tool 'search'.").
Proof. split; vm_compute; reflexivity. Qed.

Lemma unserializable_request_body_witness :
  callTool Sample.headerValue Sample.JSON_stringify_throws Sample.unreachable
    Sample.prettyPrint
    Sample.headersJson (Sample.indexOf Sample.userStore) "https://api.example.com"
    (Sample.call "post_users" [("requestBody", VObject [("name", VString "a")])])
  = (Throw (McpError InvalidParams
              "Failed to stringify requestBody for tool 'post_users': Converting circular structure to JSON"),
     []).
Proof.
  apply (unserializable_request_body Sample.headerValue
           Sample.JSON_stringify_throws Sample.unreachable Sample.prettyPrint
           Sample.headersJson
           (buildOperationMap Sample.userStore (convertOpenAPIToMcTools Sample.userStore))
           "https://api.example.com"
           (Sample.call "post_users" [("requestBody", VObject [("name", VString "a")])])
           (mappingOf ("/users", "post", Sample.createUser))
           {| body_description := None;
              body_content :=
                Some {[ "application/json" :=
                          mkMediaType
                            (Some (SchemaObject (Some "object") None None None None
                                     (Some [("name", Some Sample.stringSchema)]) None None)) ]};
              body_required := false |}
           (mkMediaType
              (Some (SchemaObject (Some "object") None None None None
                       (Some [("name", Some Sample.stringSchema)]) None None)))
           (VObject [("name", VString "a")])
           "Converting circular structure to JSON" (initialPlacement "/users")).
  - vm_compute. reflexivity.
  - reflexivity.
  - reflexivity.
  - vm_compute. reflexivity.
  - vm_compute. reflexivity.
  - reflexivity.
Defined.

Lemma http_status_decides_error_flag_witness :
  exists result,
    Sample.invoke (Sample.answer 404 "Not Found" (Http.Failed "aborted")) petStore
      (Sample.call "showPetById" [("id", VNumber "3")])
    = (Return result, [Sample.petRequest])
    /\ (isError result = true <-> (404 < 200 \/ 299 < 404)%N)
    /\ (forall message,
          fst (Sample.invoke (Sample.answer 404 "Not Found" (Http.Failed "aborted")) petStore
                 (Sample.call "showPetById" [("id", VNumber "3")]))
          <> Throw (requestFailed message)).
Proof.
  apply (http_status_decides_error_flag Sample.headerValue
           Sample.JSON_stringify (Sample.answer 404 "Not Found" (Http.Failed "aborted"))
           Sample.prettyPrint Sample.headersJson
           (Sample.indexOf petStore) "https://api.example.com"
           (Sample.call "showPetById" [("id", VNumber "3")])
           Sample.petRequest
           {| Http.status := 404; Http.statusText := "Not Found";
              Http.resp_headers := {[ "content-type" := "text/plain" ]};
              Http.text := Http.Failed "aborted" |}).
  - vm_compute. reflexivity.
  - reflexivity.
Defined.

Lemma query_parameter_entries_witness :
  Http.getAll "tags"
    [("tags", "a b"); ("tags", "2"); ("tags", "null"); ("limit", "-5")]
  = map Json.toString [VString "a b"; VNumber "2"; VNull].
Proof.
  apply (query_parameter_entries Sample.headerValue "findByTags"
           (list_to_map [("tags", VArray [VString "a b"; VNumber "2"; VNull]);
                         ("limit", VNumber "-5")])
           []
           [Sample.parameter "limit" "query" false (Some Sample.integerSchema);
            Sample.parameter "X-Trace" "header" false (Some Sample.stringSchema)]
           (mkParameter "tags" "query" false None None)
           "/pets/findByTags" ∅
           (mkPlacement "/pets/findByTags"
              [("tags", "a b"); ("tags", "2"); ("tags", "null"); ("limit", "-5")] ∅)
           (VArray [VString "a b"; VNumber "2"; VNull])).
  - vm_compute. reflexivity.
  - reflexivity.
  - vm_compute. reflexivity.
  - repeat constructor; simpl; intros [H1 H2]; discriminate.
Defined.

Lemma schemaless_parameter_still_required_witness :
  In (toolOfOperation "/lookup" "get" Sample.schemaless)
     (convertOpenAPIToMcTools Sample.schemalessStore)
  /\ objGet "key"
       (default []
          (js_properties (inputSchema (toolOfOperation "/lookup" "get" Sample.schemaless))))
     = None
  /\ ~ In "key" (requiredNames (inputSchema (toolOfOperation "/lookup" "get" Sample.schemaless)))
  /\ Sample.invoke Sample.unreachable Sample.schemalessStore
       (Sample.call "lookup" [("verbose", VString "yes")])
     = (Throw (McpError InvalidParams
                 ("Missing required parameter '" +:+ "key"
                  +:+ "' for tool '" +:+ "lookup" +:+ "'.")), []).
Proof.
  destruct (schemaless_parameter_still_required Sample.headerValue
              Sample.JSON_stringify Sample.unreachable Sample.prettyPrint Sample.headersJson
              Sample.schemalessStore [] [] "/lookup" "get" Sample.schemaless
              []
              [Sample.parameter "verbose" "query" false (Some Sample.stringSchema)]
              (mkParameter "key" "query" true None None))
    as (Hin & _ & Hschema & Hcall).
  - reflexivity.
  - reflexivity.
  - reflexivity.
  - destruct Hschema as [Hp Hr].
    + repeat constructor. simpl. intros H. discriminate.
    + discriminate.
    + split; [exact Hin | split; [exact Hp | split; [exact Hr |]]].
      destruct (Hcall eq_refl ltac:(constructor) "https://api.example.com"
                  (list_to_map [("verbose", VString "yes")]))
        as (_ & H); [vm_compute; reflexivity |].
      exact (H (initialPlacement "/lookup") eq_refl).
Defined.

(** C9 (as stated) fails: the path parameter [id] has no schema, yet the
    input schema has a property [id] and requires it, because a header
    parameter of the same name has a schema. *)
Lemma same_name_parameter_is_advertised :
  let published := createListToolsHandler (convertOpenAPIToMcTools Sample.twoLocationsStore) in
  parameterList Sample.twoLocations
  = [inr (mkParameter "id" "path" true None None);
     inr (mkParameter "id" "header" true None (Some Sample.stringSchema))]
  /\ map name published = ["twice"]
  /\ map (fun t => objGet "id" (default [] (js_properties (inputSchema t)))) published
     = [Some (mkJSONSchema7 (Some "string") None (Some "(in: header)")
                None None None None None)]
  /\ map (fun t => js_required (inputSchema t)) published = [Some ["id"]].
Proof. intros published. repeat split. Qed.

(** * Further properties of the converter and the dispatcher *)

(** ** Schema translator: what each kind keeps *)

Ltac case_options :=
  repeat match goal with
         | |- context [match ?o with Some _ => _ | None => _ end] => destruct o
         end.

Lemma carry_other_fields (description : option string) (dflt : option Value)
    (j : JSONSchema7) :
  js_type (carryDescriptionAndDefault description dflt j) = js_type j
  /\ js_contentEncoding (carryDescriptionAndDefault description dflt j)
     = js_contentEncoding j
  /\ js_enum (carryDescriptionAndDefault description dflt j) = js_enum j
  /\ js_items (carryDescriptionAndDefault description dflt j) = js_items j
  /\ js_properties (carryDescriptionAndDefault description dflt j) = js_properties j
  /\ js_required (carryDescriptionAndDefault description dflt j) = js_required j.
Proof.
  unfold carryDescriptionAndDefault.
  destruct (Js.truthyOpt description), (Json.truthyOpt dflt); repeat split.
Qed.

Lemma translateNode_unfold (type format description : option string)
    (enum : option (list Value)) (items : option Schema)
    (properties : option (list (string * option Schema)))
    (required : option (list string)) (dflt : option Value) :
  translateNode (SchemaObject type format description enum items properties required dflt)
  = carryDescriptionAndDefault description dflt
      (afterSwitch type format description enum items properties required).
Proof. reflexivity. Qed.

(** The switch, by cases on the type. *)
Lemma afterSwitch_cases (type format description : option string)
    (enum : option (list Value)) (items : option Schema)
    (properties : option (list (string * option Schema)))
    (required : option (list string)) :
  let j := afterSwitch type format description enum items properties required in
  (isRecognisedType (Js.orEmpty type) = false /\ j = emptySchema)
  \/ (type = Some "integer" /\ j = setType (Some "integer") emptySchema)
  \/ (type = Some "number" /\ j = setType (Some "number") emptySchema)
  \/ (type = Some "string" /\ j = stringCase format description enum emptySchema)
  \/ (type = Some "boolean" /\ j = setType (Some "boolean") emptySchema)
  \/ (type = Some "array"
      /\ j = setItems (translateNode <$> items) (setType (Some "array") emptySchema))
  \/ (type = Some "object"
      /\ j = setRequired required
               (setProperties ((fun ps => translateEach ps []) <$> properties)
                  (setType (Some "object") emptySchema))).
Proof.
  unfold afterSwitch. destruct type as [[|c t]|]; [now left | | now left].
  cbn [Js.truthyOpt Js.orEmpty Js.truthyString].
  set (ty := String c t). unfold isRecognisedType, recognisedTypes. cbn [existsb].
  destruct (String.eqb ty "integer") eqn:E1;
    [apply String.eqb_eq in E1; rewrite E1; tauto |].
  destruct (String.eqb ty "number") eqn:E2;
    [apply String.eqb_eq in E2; rewrite E2; tauto |].
  destruct (String.eqb ty "string") eqn:E3;
    [apply String.eqb_eq in E3; rewrite E3; tauto |].
  destruct (String.eqb ty "boolean") eqn:E4;
    [apply String.eqb_eq in E4; rewrite E4; tauto |].
  destruct (String.eqb ty "array") eqn:E5.
  { apply String.eqb_eq in E5. rewrite E5. do 5 right. left.
    split; [reflexivity |]. destruct items; reflexivity. }
  destruct (String.eqb ty "object") eqn:E6.
  { apply String.eqb_eq in E6. rewrite E6. do 6 right.
    split; [reflexivity |]. destruct properties, required; reflexivity. }
  left. tauto.
Qed.

Lemma stringCase_fields (format description : option string)
    (enum : option (list Value)) :
  let j := stringCase format description enum emptySchema in
  js_type j = Some "string" /\ js_enum j = enum /\ js_items j = None
  /\ js_properties j = None /\ js_required j = None
  /\ js_contentEncoding j
     = (if String.eqb (Js.orEmpty format) "byte" then Some "base64" else None).
Proof.
  unfold stringCase, isBinaryFormat.
  destruct format as [f|]; cbn [Js.orEmpty].
  - destruct (String.eqb f "byte") eqn:E; cbn [orb];
      [| destruct (String.eqb f "binary")]; destruct enum; repeat split.
  - destruct enum; repeat split.
Qed.

(** The translated type is the node's type when that is one of the six kinds
    of the switch; any other type, the empty type and no type give a schema
    without type. *)
Theorem translated_type_is_recognised_or_absent (s : Schema) :
  js_type (translateNode s)
  = if isRecognisedType (Js.orEmpty (schemaType s)) then schemaType s else None.
Proof.
  destruct s as [ref | type format description enum items properties required dflt];
    [reflexivity |].
  rewrite translateNode_unfold. cbn [schemaType].
  destruct (carry_other_fields description dflt
              (afterSwitch type format description enum items properties required))
    as (-> & _).
  destruct (afterSwitch_cases type format description enum items properties required)
    as [[Hu ->] | [[-> ->] | [[-> ->] | [[-> ->] | [[-> ->] | [[-> ->] | [-> ->]]]]]]];
    try reflexivity.
  - now rewrite Hu.
  - now destruct (stringCase_fields format description enum) as (-> & _).
Qed.

Lemma hasType_Some (t : string) (type : option string) :
  (match type with Some t' => String.eqb t' t | None => false end) = true ->
  type = Some t.
Proof. destruct type as [t'|]; [intros ->%String.eqb_eq; reflexivity | discriminate]. Qed.

Lemma translateNode_fields (s : Schema) :
  js_enum (translateNode s) = (if hasType "string" s then schemaEnum s else None)
  /\ js_items (translateNode s)
     = (if hasType "array" s then translateNode <$> schemaItems s else None)
  /\ js_properties (translateNode s)
     = (if hasType "object" s
        then (fun ps => translateEach ps []) <$> schemaProperties s else None)
  /\ js_required (translateNode s)
     = (if hasType "object" s then schemaRequired s else None)
  /\ js_contentEncoding (translateNode s)
     = (if hasType "string" s && String.eqb (Js.orEmpty (schemaFormat s)) "byte"
        then Some "base64" else None).
Proof.
  destruct s as [ref | type format description enum items properties required dflt];
    [repeat split |].
  rewrite translateNode_unfold.
  unfold hasType.
  cbn [schemaType schemaEnum schemaItems schemaProperties schemaRequired schemaFormat].
  destruct (carry_other_fields description dflt
              (afterSwitch type format description enum items properties required))
    as (_ & -> & -> & -> & -> & ->).
  destruct (afterSwitch_cases type format description enum items properties required)
    as [[Hu ->] | [[-> ->] | [[-> ->] | [[-> ->] | [[-> ->] | [[-> ->] | [-> ->]]]]]]];
    try (repeat split; fail).
  - assert (Hno : forall t, In t recognisedTypes ->
                   match type with Some t' => String.eqb t' t | None => false end = false).
    { intros t Ht. destruct type as [t'|]; [| reflexivity].
      destruct (String.eqb t' t) eqn:E; [| reflexivity].
      apply String.eqb_eq in E. subst t'. cbn [Js.orEmpty] in Hu.
      unfold isRecognisedType in Hu.
      assert (existsb (String.eqb t) recognisedTypes = true)
        by (apply existsb_exists; exists t; split; [exact Ht | apply String.eqb_refl]).
      congruence. }
    rewrite (Hno "string"), (Hno "array"), (Hno "object")
      by (unfold recognisedTypes; simpl; tauto).
    repeat split.
  - destruct (stringCase_fields format description enum) as (_ & -> & -> & -> & -> & ->).
    repeat split.
Qed.

(** Each keyword is kept only for the kind the switch reads it for: [enum]
    for strings (an enumeration on an integer or a number is lost), [items]
    for arrays, [properties] and [required] for objects, and the [base64]
    content encoding for strings of format [byte]. *)
Theorem keywords_kept_only_for_their_kind (s : Schema) :
  js_enum (translateNode s) = (if hasType "string" s then schemaEnum s else None)
  /\ js_items (translateNode s)
     = (if hasType "array" s then translateNode <$> schemaItems s else None)
  /\ js_properties (translateNode s)
     = (if hasType "object" s
        then (fun ps => translateEach ps []) <$> schemaProperties s else None)
  /\ js_required (translateNode s)
     = (if hasType "object" s then schemaRequired s else None)
  /\ js_contentEncoding (translateNode s)
     = (if hasType "string" s && String.eqb (Js.orEmpty (schemaFormat s)) "byte"
        then Some "base64" else None).
Proof. exact (translateNode_fields s). Qed.

(** ** Schema translator: the properties of an object *)

Lemma insertIndex_last {A : Type} (i : N) (k : string) (v : A) (o : list (string * A)) :
  Forall (fun k' => exists m, Js.arrayIndex k' = Some m /\ (m <? i)%N = true) (map fst o) ->
  insertIndex i k v o = o ++ [(k, v)].
Proof.
  induction o as [|[a b] o IH]; simpl; [reflexivity |].
  intros H. apply Forall_cons in H as [(m & -> & ->) H]. now rewrite IH.
Qed.

(** A new key that the object enumerates after all its keys goes to the
    end. *)
Lemma objSet_last {A : Type} (k : string) (v : A) (o : list (string * A)) :
  k <> "__proto__" ->
  ~ In k (map fst o) ->
  Forall (fun k' => keyBefore k' k = true) (map fst o) ->
  objSet k v o = o ++ [(k, v)].
Proof.
  intros Hk Hfresh Hbefore. unfold objSet.
  apply String.eqb_neq in Hk. rewrite Hk.
  destruct (hasOwn k o) eqn:Eo; [apply hasOwn_In in Eo; contradiction |].
  destruct (Js.arrayIndex k) as [i|] eqn:Ek; [| reflexivity].
  apply insertIndex_last. eapply Forall_impl; [exact Hbefore |].
  intros k' H. unfold keyBefore in H. rewrite Ek in H.
  destruct (Js.arrayIndex k') as [m|]; [eauto | discriminate].
Qed.

Lemma presentProperties_names (n : string) (ps : list (string * option Schema)) :
  In n (map fst (presentProperties ps)) -> In n (map fst ps).
Proof.
  induction ps as [|[k [p|]] ps IH]; simpl; tauto.
Qed.

Lemma translateEach_ordered (ps : list (string * option Schema))
    (acc : list (string * JSONSchema7)) :
  NoDup (map fst ps) ->
  enumerationOrder (map fst ps) = true ->
  (forall n, In n (map fst ps) -> ~ In n (map fst acc)) ->
  (forall a n, In a (map fst acc) -> In n (map fst ps) -> keyBefore a n = true) ->
  translateEach ps acc = acc ++ List.filter notProto (presentProperties ps).
Proof.
  revert acc. induction ps as [|[k [p|]] ps IH]; intros acc Hnd Hord Hfresh Hbefore.
  - simpl. now rewrite app_nil_r.
  - cbn [map fst] in Hnd, Hord. apply NoDup_cons in Hnd as [Hk Hnd].
    cbn [enumerationOrder] in Hord. apply andb_true_iff in Hord as [Hlater Hord].
    cbn [translateEach presentProperties List.filter]. unfold notProto at 1. cbn [fst].
    destruct (String.eqb k "__proto__") eqn:Ep; cbn [negb].
    + assert (Hsame : objSet k (translateNode p) acc = acc)
        by (unfold objSet; now rewrite Ep).
      rewrite Hsame. apply IH; [exact Hnd | exact Hord | |].
      * intros n Hn. apply Hfresh. simpl. tauto.
      * intros a n Ha Hn. apply Hbefore; [exact Ha | simpl; tauto].
    + apply String.eqb_neq in Ep.
      rewrite objSet_last; [| exact Ep | apply Hfresh; simpl; tauto |].
      2:{ apply Forall_forall. intros a Ha. apply list_elem_of_In in Ha.
          apply Hbefore; [exact Ha | simpl; tauto]. }
      rewrite IH; [now rewrite <- app_assoc | exact Hnd | exact Hord | |].
      * intros n Hn. rewrite map_app, in_app_iff. simpl.
        intros [Hacc | [<- | []]].
        -- apply (Hfresh n); simpl; tauto.
        -- apply Hk. now apply list_elem_of_In.
      * intros a n Ha Hn. rewrite map_app, in_app_iff in Ha. simpl in Ha.
        destruct Ha as [Ha | [<- | []]].
        -- apply Hbefore; [exact Ha | simpl; tauto].
        -- rewrite forallb_forall in Hlater. now apply Hlater.
  - cbn [map fst] in Hnd, Hord. apply NoDup_cons in Hnd as [Hk Hnd].
    cbn [enumerationOrder] in Hord. apply andb_true_iff in Hord as [_ Hord].
    cbn [translateEach presentProperties].
    apply IH; [exact Hnd | exact Hord | |].
    + intros n Hn. apply Hfresh. simpl. tauto.
    + intros a n Ha Hn. apply Hbefore; [exact Ha | simpl; tauto].
Qed.

Lemma presentProperties_In (n : string) (ps : list (string * option Schema)) :
  In n (map fst (List.filter notProto (presentProperties ps)))
  <-> n <> "__proto__" /\ exists p, In (n, Some p) ps.
Proof.
  induction ps as [|[k [p|]] ps IH]; cbn [presentProperties List.filter].
  - simpl. split; [tauto | intros [_ [p []]]].
  - unfold notProto at 1. cbn [fst].
    destruct (String.eqb k "__proto__") eqn:Ep; cbn [negb map fst In].
    + apply String.eqb_eq in Ep. subst k. rewrite IH. split.
      * intros [Hn [q Hq]]. eauto.
      * intros [Hn [q [[= <- <-] | Hq]]]; [congruence | eauto].
    + apply String.eqb_neq in Ep. rewrite IH. split.
      * intros [<- | [Hn [q Hq]]]; eauto.
      * intros [Hn [q [[= <- <-] | Hq]]]; eauto.
  - rewrite IH. split.
    + intros [Hn [q Hq]]. split; [exact Hn |]. exists q. now right.
    + intros [Hn [q [[=] | Hq]]]. eauto.
Qed.

(** An object node whose property names are distinct and come in the order
    in which an object enumerates its keys (as the keys of the node's
    properties do) translates to the properties that have a schema and are
    not named [__proto__], each translated on its own and in the order of the
    node.  A property without schema is dropped and takes no other property
    with it; a property named [__proto__] is dropped although it has a
    schema, because the assignment sets the prototype instead. *)
Theorem object_properties_translated_one_by_one (s : Schema)
    (props : list (string * option Schema)) :
  hasType "object" s = true ->
  schemaProperties s = Some props ->
  NoDup (map fst props) ->
  enumerationOrder (map fst props) = true ->
  js_properties (translateNode s)
  = Some (List.filter notProto (presentProperties props))
  /\ (forall n, In n (map fst (List.filter notProto (presentProperties props))) <->
                n <> "__proto__" /\ exists p, In (n, Some p) props).
Proof.
  intros Hobj Hprops Hnd Hord. split; [| intros n; apply presentProperties_In].
  destruct (translateNode_fields s) as (_ & _ & -> & _).
  rewrite Hobj, Hprops. simpl. f_equal.
  apply (translateEach_ordered props []); [exact Hnd | exact Hord | |]; simpl; tauto.
Qed.

Lemma object_properties_translated_one_by_one_witness :
  js_properties
    (translateNode
       (SchemaObject (Some "object") None None None None
          (Some [("7", Some Sample.integerSchema); ("a", Some (SchemaRef "#/x"));
                 ("b", None); ("__proto__", Some Sample.stringSchema);
                 ("c", Some (SchemaObject (Some "boolean") None None None None None None None))])
          (Some ["a"; "b"]) None))
  = Some [("7", setType (Some "integer") emptySchema); ("a", emptySchema);
          ("c", setType (Some "boolean") emptySchema)].
Proof.
  apply (object_properties_translated_one_by_one
           (SchemaObject (Some "object") None None None None
              (Some [("7", Some Sample.integerSchema); ("a", Some (SchemaRef "#/x"));
                     ("b", None); ("__proto__", Some Sample.stringSchema);
                     ("c", Some (SchemaObject (Some "boolean") None None None None
                                   None None None))])
              (Some ["a"; "b"]) None)
           [("7", Some Sample.integerSchema); ("a", Some (SchemaRef "#/x"));
            ("b", None); ("__proto__", Some Sample.stringSchema);
            ("c", Some (SchemaObject (Some "boolean") None None None None None None None))]).
  - reflexivity.
  - reflexivity.
  - apply (bool_decide_unpack _). vm_compute. reflexivity.
  - vm_compute. reflexivity.
Defined.

(** Keys that are array indices are enumerated in ascending order, whatever
    the order of the assignments. *)
Example index_keys_come_first :
  map fst (objSet "1" 1 (objSet "b" 2 (objSet "10" 3 (objSet "a" 4 (objSet "2" 5 [])))))
  = ["1"; "2"; "10"; "a"; "b"].
Proof. reflexivity. Qed.

(** ** Tool names: their alphabet and their canonical form *)

Lemma allWordChars_append (s t : string) :
  allWordChars (s +:+ t) = allWordChars s && allWordChars t.
Proof.
  induction s as [|c s IH]; simpl; [reflexivity |].
  now rewrite IH, andb_assoc.
Qed.

Lemma allWordChars_join (parts : list string) :
  Forall (fun p => allWordChars p = true) parts ->
  allWordChars (Js.join "_" parts) = true.
Proof.
  induction 1 as [|p parts Hp Hparts IH]; [reflexivity |].
  destruct parts as [|q parts]; [exact Hp |].
  change (Js.join "_" (p :: q :: parts)) with (p +:+ "_" +:+ Js.join "_" (q :: parts)).
  now rewrite !allWordChars_append, Hp, IH.
Qed.

Lemma split_underscore_allWordChars (s : string) :
  allWordChars s = true ->
  Forall (fun p => allWordChars p = true) (Js.split_underscore s).
Proof.
  induction s as [|c s IH]; simpl; [repeat constructor |].
  intros [Hc Hs]%andb_true_iff. specialize (IH Hs).
  destruct (Js.code c =? 95)%N; [constructor; [reflexivity | exact IH] |].
  destruct (Js.split_underscore s) as [|piece pieces]; [repeat constructor; simpl; now rewrite Hc |].
  apply Forall_cons in IH as [Hpiece Hpieces].
  constructor; [simpl; now rewrite Hc, Hpiece | exact Hpieces].
Qed.

Lemma pathParts_allWordChars (path : string) :
  Forall (fun p => allWordChars p = true) (pathParts path).
Proof.
  unfold pathParts. apply Forall_forall. intros p Hp.
  apply list_elem_of_filter in Hp as [_ Hp].
  pose proof (split_underscore_allWordChars _ (replaceNonWord_allWordChars path)) as H.
  rewrite Forall_forall in H. now apply H.
Qed.

Lemma httpMethod_lower_word (method : string) :
  isHttpMethod method = true ->
  allWordChars (Js.toLowerCase method) = true /\ Js.toLowerCase method = method.
Proof.
  unfold isHttpMethod. intros H. apply existsb_exists in H as [m [Hm Heq]].
  apply String.eqb_eq in Heq. subst m.
  simpl in Hm. repeat (destruct Hm as [<- | Hm]; [split; reflexivity |]). contradiction.
Qed.

Lemma operations_method (apiSpec : Document) (path method : string)
    (operation : OperationObject) :
  In (path, method, operation) (operations apiSpec) -> isHttpMethod method = true.
Proof.
  unfold operations. destruct (paths apiSpec) as [ps|]; [| contradiction].
  intros H. apply in_flat_map in H as [[path' pathItem] [_ H]].
  destruct pathItem as [pathItem|]; [| contradiction].
  unfold operationsOfPathItem in H.
  apply in_flat_map in H as [[method' operation'] [_ H]].
  destruct (isHttpMethod method') eqn:E; simpl in H; [| contradiction].
  destruct operation' as [operation'|]; [| contradiction].
  destruct H as [[= <- <- <-] | []]. exact E.
Qed.

Lemma generateToolName_word (method path : string) (operationId : option string) :
  isHttpMethod method = true ->
  allWordChars (generateToolName method path operationId) = true
  /\ Js.truthyString (generateToolName method path operationId) = true.
Proof.
  intros Hm. destruct (httpMethod_lower_word method Hm) as [Hw Hl].
  assert (Hfallback : allWordChars (fallbackName method path) = true
                      /\ Js.truthyString (fallbackName method path) = true).
  { change (fallbackName method path)
      with (Js.toLowerCase method +:+ "_" +:+ Js.join "_" (pathParts path)).
    split.
    - rewrite !allWordChars_append, Hw, allWordChars_join by apply pathParts_allWordChars.
      reflexivity.
    - destruct (Js.toLowerCase method); reflexivity. }
  unfold generateToolName. destruct operationId as [id|]; [| exact Hfallback].
  destruct (Js.truthyString id) eqn:E; [| exact Hfallback].
  now rewrite replaceNonWord_allWordChars, replaceNonWord_truthy.
Qed.

(** Every published tool has a name that is not empty and is made of the
    characters [[A-Za-z0-9_]] only. *)
Theorem published_names_are_word_strings (apiSpec : Document) (tool : Tool) :
  In tool (createListToolsHandler (convertOpenAPIToMcTools apiSpec)) ->
  allWordChars (name tool) = true /\ Js.truthyString (name tool) = true.
Proof.
  unfold createListToolsHandler. rewrite convert_operations.
  intros H. apply in_map_iff in H as [[[path method] operation] [<- Hin]].
  apply generateToolName_word. exact (operations_method _ _ _ _ Hin).
Qed.

Lemma published_names_are_word_strings_witness :
  allWordChars "showPetById" = true /\ Js.truthyString "showPetById" = true.
Proof.
  apply (published_names_are_word_strings petStore (toolOfOperation "/pets/{id}" "get" petById)).
  left. reflexivity.
Defined.

Lemma split_underscore_noUnderscore (s : string) :
  Forall (fun p => noUnderscore p = true) (Js.split_underscore s).
Proof.
  induction s as [|c s IH]; simpl; [repeat constructor |].
  destruct (Js.code c =? 95)%N eqn:E; [constructor; [reflexivity | exact IH] |].
  destruct (Js.split_underscore s) as [|piece pieces];
    [repeat constructor; simpl; now rewrite E |].
  apply Forall_cons in IH as [Hpiece Hpieces].
  constructor; [simpl; now rewrite E, Hpiece | exact Hpieces].
Qed.

Lemma split_underscore_piece (p rest : string) :
  noUnderscore p = true ->
  Js.split_underscore (p +:+ "_" +:+ rest) = p :: Js.split_underscore rest.
Proof.
  induction p as [|c p IH]; simpl; [reflexivity |].
  intros [Hc Hp]%andb_true_iff. apply negb_true_iff in Hc. rewrite Hc.
  now rewrite (IH Hp).
Qed.

Lemma split_underscore_single (p : string) :
  noUnderscore p = true -> Js.split_underscore p = [p].
Proof.
  induction p as [|c p IH]; simpl; [reflexivity |].
  intros [Hc Hp]%andb_true_iff. apply negb_true_iff in Hc. rewrite Hc.
  now rewrite (IH Hp).
Qed.

(** Splitting undoes joining, for pieces that are not empty and hold no
    underscore. *)
Lemma split_join (parts : list string) :
  Forall (fun p => noUnderscore p = true /\ Js.truthyString p = true) parts ->
  filter (fun p => Js.truthyString p = true) (Js.split_underscore (Js.join "_" parts))
  = parts.
Proof.
  induction 1 as [|p parts [Hp Ht] Hparts IH]; [reflexivity |].
  destruct parts as [|q parts].
  - simpl Js.join. rewrite (split_underscore_single p Hp).
    rewrite filter_cons. now rewrite decide_True by exact Ht.
  - change (Js.join "_" (p :: q :: parts)) with (p +:+ "_" +:+ Js.join "_" (q :: parts)).
    rewrite (split_underscore_piece _ _ Hp), filter_cons, decide_True by exact Ht.
    now rewrite IH.
Qed.

Lemma pathParts_pieces (path : string) :
  Forall (fun p => noUnderscore p = true /\ Js.truthyString p = true) (pathParts path).
Proof.
  unfold pathParts. apply Forall_forall. intros p Hp.
  apply list_elem_of_filter in Hp as [Ht Hp]. split; [| exact Ht].
  pose proof (split_underscore_noUnderscore (Js.replaceNonWord path)) as H.
  rewrite Forall_forall in H. now apply H.
Qed.

(** The fallback name reads a path only through its runs of letters and
    digits: the path and its runs joined by underscores get the same name,
    so [/pets/{id}], [/pets/id] and [pets_id] collide. *)
Theorem fallback_name_of_joined_parts (method path : string) :
  pathParts (Js.join "_" (pathParts path)) = pathParts path
  /\ generateToolName method (Js.join "_" (pathParts path)) None
     = generateToolName method path None.
Proof.
  assert (H : pathParts (Js.join "_" (pathParts path)) = pathParts path).
  { unfold pathParts at 1.
    rewrite (replaceNonWord_fixes _ (allWordChars_join _ (pathParts_allWordChars path))).
    apply split_join, pathParts_pieces. }
  split; [exact H |].
  unfold generateToolName.
  change (Js.toLowerCase method +:+ "_" +:+ Js.join "_" (pathParts (Js.join "_" (pathParts path)))
          = Js.toLowerCase method +:+ "_" +:+ Js.join "_" (pathParts path)).
  now rewrite H.
Qed.

Example fallback_name_collision :
  generateToolName "get" "/pets/{id}" None = generateToolName "get" "pets_id" None
  /\ generateToolName "get" "/pets/{id}" None = generateToolName "get" "/pets/id" None.
Proof. split; reflexivity. Qed.

(** ** Tool catalogue: which operations get a tool *)

Lemma operations_In (apiSpec : Document) (path method : string)
    (operation : OperationObject) :
  In (path, method, operation) (operations apiSpec)
  <-> exists ps pathItem,
        paths apiSpec = Some ps /\ In (path, Some pathItem) ps
        /\ In (method, Some operation) pathItem /\ isHttpMethod method = true.
Proof.
  unfold operations. split.
  - destruct (paths apiSpec) as [ps|]; [| contradiction].
    intros H. apply in_flat_map in H as [[path' pathItem] [Hps H]].
    destruct pathItem as [pathItem|]; [| contradiction].
    unfold operationsOfPathItem in H.
    apply in_flat_map in H as [[method' operation'] [Hitem H]].
    destruct (isHttpMethod method') eqn:E; simpl in H; [| contradiction].
    destruct operation' as [operation'|]; [| contradiction].
    destruct H as [[= <- <- <-] | []]. exists ps, pathItem. auto.
  - intros (ps & pathItem & -> & Hps & Hitem & Hm).
    apply in_flat_map. exists (path, Some pathItem). split; [exact Hps |].
    unfold operationsOfPathItem. apply in_flat_map.
    exists (method, Some operation). split; [exact Hitem |].
    rewrite Hm. simpl. auto.
Qed.

(** The published list holds exactly the tools of the operations found under
    an HTTP-method key of a path item: a key that is no HTTP method
    ([parameters], [summary], an upper-case [GET], ...), an undefined path
    item and an undefined operation give no tool; and it holds one tool for
    each operation encountered. *)
Theorem published_tools_are_the_operations (apiSpec : Document) :
  (forall tool,
      In tool (createListToolsHandler (convertOpenAPIToMcTools apiSpec))
      <-> exists ps pathItem path method operation,
            paths apiSpec = Some ps /\ In (path, Some pathItem) ps
            /\ In (method, Some operation) pathItem /\ isHttpMethod method = true
            /\ tool = toolOfOperation path method operation)
  /\ length (createListToolsHandler (convertOpenAPIToMcTools apiSpec))
     = length (operations apiSpec).
Proof.
  unfold createListToolsHandler. rewrite convert_operations. split.
  - intros tool. rewrite in_map_iff. split.
    + intros [[[path method] operation] [<- Hin]].
      apply operations_In in Hin as (ps & pathItem & H1 & H2 & H3 & H4).
      exists ps, pathItem, path, method, operation. auto.
    + intros (ps & pathItem & path & method & operation & H1 & H2 & H3 & H4 & ->).
      exists (path, method, operation). split; [reflexivity |].
      apply operations_In. exists ps, pathItem. auto.
  - apply length_map.
Qed.

Example non_method_keys_give_no_tool :
  convertOpenAPIToMcTools
    {| paths := Some [("/pets", Some [("parameters", None); ("GET", Some petById);
                                      ("get", None)]);
                      ("/none", None)] |} = [].
Proof. reflexivity. Qed.

(** ** Tool catalogue: the shape of an input schema *)

Lemma insertIndex_described (i : N) (k : string) (v : JSONSchema7)
    (o : list (string * JSONSchema7)) :
  Js.truthyOpt (js_description v) = true ->
  Forall (fun kv => Js.truthyOpt (js_description (snd kv)) = true) o ->
  Forall (fun kv => Js.truthyOpt (js_description (snd kv)) = true) (insertIndex i k v o).
Proof.
  intros Hv. induction 1 as [|[a b] o Hb Ho IH]; simpl.
  - repeat constructor. exact Hv.
  - destruct (Js.arrayIndex a) as [m|]; [destruct (m <? i)%N |];
      repeat (constructor; try assumption).
Qed.

Lemma objSet_described (k : string) (v : JSONSchema7) (o : list (string * JSONSchema7)) :
  Js.truthyOpt (js_description v) = true ->
  Forall (fun kv => Js.truthyOpt (js_description (snd kv)) = true) o ->
  Forall (fun kv => Js.truthyOpt (js_description (snd kv)) = true) (objSet k v o).
Proof.
  intros Hv Ho. unfold objSet.
  destruct (String.eqb k "__proto__"); [exact Ho |].
  destruct (hasOwn k o).
  - apply Forall_map. eapply Forall_impl; [exact Ho |].
    intros [a b] Hb. simpl. now destruct (String.eqb a k).
  - destruct (Js.arrayIndex k) as [i|]; [now apply insertIndex_described |].
    apply Forall_app. split; [exact Ho | repeat constructor; exact Hv].
Qed.

Lemma setProperty_shape (k : string) (v j : JSONSchema7) :
  Js.truthyOpt (js_description v) = true ->
  inputShape j -> inputShape (setProperty k v j).
Proof.
  intros Hv (H1 & H2 & H3 & H4 & H5 & H6 & H7 & H8 & H9 & H10 & H11).
  unfold inputShape, setProperty, propertyNames, requiredNames, allDescribed in *. simpl.
  repeat split; try assumption; [eauto | | |].
  - intros n Hn. destruct (H9 n Hn) as [-> | Hin]; [now left | right].
    apply objSet_names. now right.
  - intros H. apply objSet_names in H as [[Hk Hne] | H]; [congruence | contradiction].
  - now apply objSet_described.
Qed.

Lemma pushRequired_shape (k : string) (j : JSONSchema7) :
  k = "__proto__" \/ In k (propertyNames j) -> inputShape j -> inputShape (pushRequired k j).
Proof.
  intros Hk (H1 & H2 & H3 & H4 & H5 & H6 & H7 & H8 & H9 & H10 & H11).
  unfold inputShape, pushRequired, propertyNames, requiredNames, allDescribed in *. simpl.
  repeat split; try assumption; [eauto |].
  intros n [Hn | [<- | []]]%in_app_iff; [now apply H9 | exact Hk].
Qed.

Lemma setProperty_names (k : string) (v j : JSONSchema7) :
  k = "__proto__" \/ In k (propertyNames (setProperty k v j)).
Proof.
  destruct (string_dec k "__proto__") as [-> | Hne]; [now left | right].
  unfold propertyNames, setProperty. simpl. apply objSet_names. now left.
Qed.

Lemma in_description_truthy (d location : string) :
  Js.truthyOpt (Some (Js.trim (d +:+ " (in: " +:+ location +:+ ")"))) = true.
Proof. apply trim_truthy, hasNonSpace_append_r. reflexivity. Qed.

Lemma parameterSchema_described (param : ParameterObject) (schema : Schema) :
  Js.truthyOpt (js_description (parameterSchema param schema)) = true.
Proof. unfold parameterSchema. simpl. apply in_description_truthy. Qed.

Lemma addParameter_with_schema (j : JSONSchema7) (param : ParameterObject)
    (schema : Schema) :
  param_schema param = Some schema ->
  addParameter j (inr param)
  = (if param_required param
     then pushRequired (param_name param)
            (setProperty (param_name param) (parameterSchema param schema) j)
     else setProperty (param_name param) (parameterSchema param schema) j).
Proof. intros H. unfold addParameter. rewrite H. reflexivity. Qed.

Lemma addParameter_shape (j : JSONSchema7) (param : ReferenceObject + ParameterObject) :
  inputShape j -> inputShape (addParameter j param).
Proof.
  intros Hj. destruct param as [ref | param]; [exact Hj |].
  destruct (param_schema param) as [schema|] eqn:Hs;
    [| now rewrite addParameter_schemaless].
  rewrite (addParameter_with_schema _ _ _ Hs).
  pose proof (setProperty_shape (param_name param) _ j
                (parameterSchema_described param schema) Hj) as Hset.
  destruct (param_required param); [| exact Hset].
  apply pushRequired_shape; [apply setProperty_names | exact Hset].
Qed.

Lemma addRequestBody_shape (j : JSONSchema7)
    (body : option (ReferenceObject + RequestBodyObject)) :
  inputShape j -> inputShape (addRequestBody j body).
Proof.
  intros Hj. unfold addRequestBody.
  destruct body as [[ref | body]|]; try exact Hj.
  destruct (_ ≫= media_schema) as [schema|]; [| exact Hj].
  match goal with
  | |- context [setProperty "requestBody" ?v j] =>
      assert (Hv : Js.truthyOpt (js_description v) = true)
  end.
  { destruct (Js.truthyOpt (js_description (translateNode schema))) eqn:E; simpl;
      [exact E |].
    destruct (Js.truthyOpt (body_description body)) eqn:Eb; [exact Eb | reflexivity]. }
  pose proof (setProperty_shape "requestBody" _ j Hv Hj) as Hset.
  destruct (body_required body); [| exact Hset].
  apply pushRequired_shape; [apply setProperty_names | exact Hset].
Qed.

Lemma buildInputSchema_shape (operation : OperationObject) :
  let j := buildInputSchema operation in
  js_type j = Some "object" /\ is_Some (js_properties j) /\ js_required j <> Some []
  /\ js_contentEncoding j = None /\ js_description j = None /\ js_enum j = None
  /\ js_items j = None /\ js_default j = None
  /\ (forall n, In n (requiredNames j) -> n = "__proto__" \/ In n (propertyNames j))
  /\ ~ In "__proto__" (propertyNames j)
  /\ allDescribed j.
Proof.
  unfold buildInputSchema.
  set (j0 := setRequired (Some []) (setProperties (Some []) (setType (Some "object") emptySchema))).
  assert (H0 : inputShape j0).
  { unfold inputShape, j0, requiredNames, propertyNames, allDescribed. simpl.
    repeat split; eauto; tauto. }
  assert (H1 : inputShape match parameters operation with
                          | Some params => fold_left addParameter params j0
                          | None => j0
                          end).
  { destruct (parameters operation) as [params|]; [| exact H0].
    clear -H0. clearbody j0. revert j0 H0. induction params as [|param params IH]; intros j Hj; simpl;
      [exact Hj | apply IH, addParameter_shape, Hj]. }
  apply (addRequestBody_shape _ (requestBody operation)) in H1.
  destruct H1 as (T & P & R & C & D & E & I & F & S & N & A).
  unfold dropEmptyRequired, requiredNames, propertyNames, allDescribed in *.
  destruct (js_required (addRequestBody _ _)) as [[|x r]|] eqn:Er; simpl;
    rewrite ?Er; repeat split; try assumption; try discriminate.
Qed.

(** The input schema of every tool is an object schema with a properties
    map; its required list is absent or not empty; every name it requires is
    the name of one of its properties, except [__proto__]: no input schema
    has a property of that name, so a required parameter named [__proto__] is
    required without being advertised. *)
Theorem input_schema_requires_only_its_properties (path method : string)
    (operation : OperationObject) :
  let j := inputSchema (toolOfOperation path method operation) in
  js_type j = Some "object"
  /\ is_Some (js_properties j)
  /\ js_required j <> Some []
  /\ (forall n, In n (requiredNames j) ->
                n = "__proto__" \/ is_Some (objGet n (default [] (js_properties j))))
  /\ objGet "__proto__" (default [] (js_properties j)) = None.
Proof.
  destruct (buildInputSchema_shape operation) as (T & P & R & _ & _ & _ & _ & _ & S & N & _).
  simpl. repeat split; try assumption.
  - intros n Hn. destruct (S n Hn) as [-> | Hin]; [now left | right].
    now apply objGet_Some_In.
  - now apply objGet_None.
Qed.

(** A required parameter named [__proto__] is in the required list and is no
    property, while a parameter whose name is an array index is listed before
    a parameter declared before it. *)
Example required_proto_is_not_advertised :
  let j := buildInputSchema Sample2.inspect in
  propertyNames j = ["0"; "depth"] /\ js_required j = Some ["__proto__"].
Proof. split; reflexivity. Qed.

(** Every property of the input schema of a tool carries a description that
    is not empty: a parameter's ends with its location, the body's falls back
    to that of the request body or to a fixed text. *)
Theorem input_schema_properties_are_described (path method : string)
    (operation : OperationObject) (n : string) (schema : JSONSchema7) :
  objGet n (default [] (js_properties (inputSchema (toolOfOperation path method operation))))
  = Some schema ->
  Js.truthyOpt (js_description schema) = true.
Proof.
  destruct (buildInputSchema_shape operation)
    as (_ & _ & _ & _ & _ & _ & _ & _ & _ & _ & A).
  simpl. unfold allDescribed in A. revert A.
  generalize (default [] (js_properties (buildInputSchema operation))).
  intros o A. induction A as [|[a b] o Hb Ho IH]; simpl; [discriminate |].
  destruct (String.eqb a n); [intros [= <-]; exact Hb | exact IH].
Qed.

Lemma input_schema_properties_are_described_witness :
  Js.truthyOpt (Some "The request body (JSON)") = true.
Proof.
  apply (input_schema_properties_are_described "/users" "post" Sample.createUser
           "requestBody"
           (mkJSONSchema7 (Some "object") None (Some "The request body (JSON)") None None
              (Some [("name", setType (Some "string") emptySchema)]) None None)).
  vm_compute. reflexivity.
Defined.

(** ** Tool catalogue: a parameter with a schema *)

Lemma propertyOf_setProperty_same (k : string) (v j : JSONSchema7) :
  k <> "__proto__" -> propertyOf k (setProperty k v j) = Some v.
Proof. intros H. unfold propertyOf, setProperty. simpl. now apply objGet_objSet_same. Qed.

Lemma propertyOf_setProperty_other (n k : string) (v j : JSONSchema7) :
  k <> n -> propertyOf n (setProperty k v j) = propertyOf n j.
Proof. intros H. unfold propertyOf, setProperty. simpl. now apply objGet_objSet_other. Qed.

Lemma propertyOf_pushRequired (n k : string) (j : JSONSchema7) :
  propertyOf n (pushRequired k j) = propertyOf n j.
Proof. reflexivity. Qed.

Lemma addParameter_keeps_property (n : string)
    (param : ReferenceObject + ParameterObject) (j : JSONSchema7) :
  noSchemaNamed n param ->
  propertyOf n (addParameter j param) = propertyOf n j.
Proof.
  destruct param as [ref | q]; cbn [noSchemaNamed]; [reflexivity |].
  intros Hq. destruct (param_schema q) as [schema|] eqn:Hs;
    [| now rewrite addParameter_schemaless].
  assert (Hne : param_name q <> n) by (intros Hn; specialize (Hq Hn); discriminate).
  rewrite (addParameter_with_schema _ _ _ Hs).
  destruct (param_required q); rewrite ?propertyOf_pushRequired;
    now apply propertyOf_setProperty_other.
Qed.

Lemma addParameter_keeps_required (n : string)
    (param : ReferenceObject + ParameterObject) (j : JSONSchema7) :
  In n (requiredNames j) -> In n (requiredNames (addParameter j param)).
Proof.
  intros H. destruct param as [ref | q]; [exact H |].
  destruct (param_schema q) as [schema|] eqn:Hs;
    [| now rewrite addParameter_schemaless].
  rewrite (addParameter_with_schema _ _ _ Hs).
  destruct (param_required q); unfold requiredNames, pushRequired, setProperty in *;
    simpl; [apply in_app_iff; now left | exact H].
Qed.

Lemma fold_addParameter_keeps (n : string)
    (params : list (ReferenceObject + ParameterObject)) (j : JSONSchema7) :
  Forall (noSchemaNamed n) params ->
  propertyOf n (fold_left addParameter params j) = propertyOf n j
  /\ (In n (requiredNames j) -> In n (requiredNames (fold_left addParameter params j))).
Proof.
  intros H. revert j. induction H as [|param params Hp _ IH]; intros j; simpl; [tauto |].
  destruct (IH (addParameter j param)) as [IH1 IH2]. split.
  - now rewrite IH1, addParameter_keeps_property.
  - intros Hn. now apply IH2, addParameter_keeps_required.
Qed.

Lemma addRequestBody_keeps (n : string)
    (body : option (ReferenceObject + RequestBodyObject)) (j : JSONSchema7) :
  n <> "requestBody" ->
  propertyOf n (addRequestBody j body) = propertyOf n j
  /\ (In n (requiredNames j) -> In n (requiredNames (addRequestBody j body))).
Proof.
  intros Hne. unfold addRequestBody.
  destruct body as [[ref | body]|]; try tauto.
  destruct (_ ≫= media_schema) as [schema|]; [| tauto].
  destruct (body_required body); rewrite ?propertyOf_pushRequired;
    (split; [apply propertyOf_setProperty_other; congruence |]);
    unfold requiredNames, pushRequired, setProperty; simpl; [| tauto].
  intros H. apply in_app_iff. now left.
Qed.

Lemma dropEmptyRequired_property (n : string) (j : JSONSchema7) :
  propertyOf n (dropEmptyRequired j) = propertyOf n j.
Proof.
  unfold dropEmptyRequired. destruct (js_required j) as [[|x r]|]; reflexivity.
Qed.

Lemma parameterSchema_description (param : ParameterObject) (schema : Schema) :
  js_description (parameterSchema param schema)
  = Some (Js.trim
            ((if Js.truthyOpt (js_description (translateNode schema))
              then Js.orEmpty (js_description (translateNode schema))
              else Js.orEmpty (param_description param))
             +:+ " (in: " +:+ param_in param +:+ ")")).
Proof.
  unfold parameterSchema. cbn [js_description setDescription].
  destruct (Js.truthyOpt (js_description (translateNode schema))) eqn:Es.
  - rewrite andb_false_r. reflexivity.
  - rewrite andb_true_r.
    destruct (Js.truthyOpt (param_description param)) eqn:Ep; cbn [js_description setDescription].
    + reflexivity.
    + unfold Js.truthyOpt in Es, Ep.
      destruct (Js.orEmpty (js_description (translateNode schema))); [| discriminate].
      destruct (Js.orEmpty (param_description param)); [reflexivity | discriminate].
Qed.

(** A parameter with a schema whose name is not [__proto__] is advertised
    under its name, unless a later parameter with a schema or the body
    property takes the name: the property is the translated schema with its
    description completed (the schema's own description, else the
    parameter's, followed by the location), and a required parameter is in
    the required list. *)
Theorem parameter_with_schema_is_advertised (path method : string)
    (operation : OperationObject)
    (pre post : list (ReferenceObject + ParameterObject)) (p : ParameterObject)
    (schema : Schema) :
  parameterList operation = pre ++ inr p :: post ->
  param_schema p = Some schema ->
  Forall (noSchemaNamed (param_name p)) post ->
  param_name p <> "requestBody" ->
  param_name p <> "__proto__" ->
  let j := inputSchema (toolOfOperation path method operation) in
  objGet (param_name p) (default [] (js_properties j)) = Some (parameterSchema p schema)
  /\ js_description (parameterSchema p schema)
     = Some (Js.trim
               ((if Js.truthyOpt (js_description (translateNode schema))
                 then Js.orEmpty (js_description (translateNode schema))
                 else Js.orEmpty (param_description p))
                +:+ " (in: " +:+ param_in p +:+ ")"))
  /\ (param_required p = true -> In (param_name p) (requiredNames j)).
Proof.
  intros Hparams Hschema Hpost Hne Hproto. simpl.
  split; [| split; [apply parameterSchema_description |]].
  - change (propertyOf (param_name p) (buildInputSchema operation)
            = Some (parameterSchema p schema)).
    unfold buildInputSchema, parameterList in *.
    rewrite dropEmptyRequired_property.
    destruct (addRequestBody_keeps (param_name p) (requestBody operation)
                match parameters operation with
                | Some params =>
                    fold_left addParameter params
                      (setRequired (Some [])
                         (setProperties (Some []) (setType (Some "object") emptySchema)))
                | None =>
                    setRequired (Some [])
                      (setProperties (Some []) (setType (Some "object") emptySchema))
                end Hne) as [-> _].
    destruct (parameters operation) as [params|]; simpl in Hparams;
      [subst params | destruct pre; discriminate].
    rewrite fold_left_app. cbn [fold_left].
    destruct (fold_addParameter_keeps (param_name p) post
                (addParameter (fold_left addParameter pre
                   (setRequired (Some [])
                      (setProperties (Some []) (setType (Some "object") emptySchema))))
                   (inr p)) Hpost) as [-> _].
    rewrite (addParameter_with_schema _ _ _ Hschema).
    destruct (param_required p); rewrite ?propertyOf_pushRequired;
      now apply propertyOf_setProperty_same.
  - intros Hreq. unfold buildInputSchema, parameterList in *.
    destruct (dropEmptyRequired_names
                (addRequestBody
                   match parameters operation with
                   | Some params =>
                       fold_left addParameter params
                         (setRequired (Some [])
                            (setProperties (Some []) (setType (Some "object") emptySchema)))
                   | None =>
                       setRequired (Some [])
                         (setProperties (Some []) (setType (Some "object") emptySchema))
                   end (requestBody operation))) as [_ ->].
    apply addRequestBody_keeps; [exact Hne |].
    destruct (parameters operation) as [params|]; simpl in Hparams;
      [subst params | destruct pre; discriminate].
    rewrite fold_left_app. cbn [fold_left].
    apply fold_addParameter_keeps; [exact Hpost |].
    rewrite (addParameter_with_schema _ _ _ Hschema), Hreq.
    unfold requiredNames, pushRequired. simpl. apply in_app_iff. right. now left.
Qed.

Lemma parameter_with_schema_is_advertised_witness :
  objGet "id" (default [] (js_properties
                             (inputSchema (toolOfOperation "/pets/{id}" "get" petById))))
  = Some (mkJSONSchema7 (Some "integer") None (Some "(in: path)") None None None None None).
Proof.
  destruct (parameter_with_schema_is_advertised "/pets/{id}" "get" petById [] []
              (mkParameter "id" "path" true None (Some Sample.integerSchema))
              Sample.integerSchema) as (H & _).
  - reflexivity.
  - reflexivity.
  - constructor.
  - discriminate.
  - discriminate.
  - exact H.
Defined.

(** ** Operation index: the names it resolves *)

(** Among the elements of a key, one is the last. *)
Lemma last_with_key {X : Type} (key : X -> string) (l : list X) (k : string) :
  (exists x, In x l /\ key x = k) ->
  exists l1 y l2, l = l1 ++ y :: l2 /\ key y = k
                  /\ Forall (fun z => key z <> k) l2.
Proof.
  induction l as [|a l IH] using rev_ind; [intros [x [[] _]] |].
  intros [x [Hin Hk]].
  destruct (string_dec (key a) k) as [Ha | Ha].
  - exists l, a, []. repeat split; [exact Ha | constructor].
  - apply in_app_iff in Hin as [Hin | [-> | []]]; [| contradiction].
    destruct IH as (l1 & y & l2 & -> & Hy & Hl2); [eauto |].
    exists l1, y, (l2 ++ [a]). rewrite <- app_assoc. repeat split; [exact Hy |].
    apply Forall_app. split; [exact Hl2 | repeat constructor; exact Ha].
Qed.

(** The index resolves exactly the names of the published tools, and each
    entry holds a published tool of that name together with an operation
    that derives the name: no published name is left without entry. *)
Theorem index_resolves_the_published_names (apiSpec : Document) (n : string) :
  (is_Some (buildOperationMap apiSpec (convertOpenAPIToMcTools apiSpec) !! n)
   <-> exists tool,
         In tool (createListToolsHandler (convertOpenAPIToMcTools apiSpec))
         /\ name tool = n)
  /\ (forall mapping,
        buildOperationMap apiSpec (convertOpenAPIToMcTools apiSpec) !! n = Some mapping ->
        In (m_toolDefinition mapping)
           (createListToolsHandler (convertOpenAPIToMcTools apiSpec))
        /\ name (m_toolDefinition mapping) = n
        /\ m_toolDefinition mapping
           = toolOfOperation (m_path mapping) (m_method mapping) (m_operation mapping)).
Proof.
  unfold createListToolsHandler.
  assert (Hentry : forall mapping,
             buildOperationMap apiSpec (convertOpenAPIToMcTools apiSpec) !! n = Some mapping ->
             In (m_toolDefinition mapping) (convertOpenAPIToMcTools apiSpec)
             /\ name (m_toolDefinition mapping) = n
             /\ m_toolDefinition mapping
                = toolOfOperation (m_path mapping) (m_method mapping) (m_operation mapping)).
  { intros mapping H.
    apply index_lookup_inv in H as (ops1 & o & ops2 & Hops & Hn & -> & _).
    destruct o as [[path method] operation]. simpl. repeat split; [| exact Hn].
    rewrite convert_operations, Hops, map_app. apply in_elt. }
  split; [| exact Hentry]. split.
  - intros [mapping H]. destruct (Hentry mapping H) as (Hin & Hname & _). eauto.
  - intros [tool [Hin Hname]]. rewrite convert_operations in Hin.
    apply in_map_iff in Hin as [o [<- Hin]]. rewrite name_toolOf in Hname.
    destruct (last_with_key nameOf (operations apiSpec) n)
      as (ops1 & y & ops2 & Hops & Hy & Hlast); [eauto |].
    subst n. rewrite <- Hy. rewrite <- Hy in Hlast.
    rewrite (index_lookup_last apiSpec ops1 ops2 y Hops Hlast). eauto.
Qed.

(** When the published names are pairwise distinct, every tool dispatches to
    the operation it was built from: under the name of each operation
    encountered, the index holds that operation, its path and method and its
    own tool. *)
Theorem distinct_names_index_every_operation (apiSpec : Document)
    (path method : string) (operation : OperationObject) :
  NoDup (map name (createListToolsHandler (convertOpenAPIToMcTools apiSpec))) ->
  In (path, method, operation) (operations apiSpec) ->
  buildOperationMap apiSpec (convertOpenAPIToMcTools apiSpec)
    !! generateToolName method path (operationId operation)
  = Some {| m_path := path; m_method := method; m_operation := operation;
            m_toolDefinition := toolOfOperation path method operation |}.
Proof.
  intros Hnd Hin. unfold createListToolsHandler in Hnd.
  rewrite convert_operations, map_map in Hnd.
  apply in_split in Hin as (ops1 & ops2 & Hops).
  apply (index_lookup_last apiSpec ops1 ops2 (path, method, operation) Hops).
  rewrite Hops, map_app in Hnd. apply NoDup_app in Hnd as (_ & _ & Hnd).
  simpl in Hnd. apply NoDup_cons in Hnd as [Hfresh _].
  apply Forall_forall. intros z Hz Hsame. apply Hfresh.
  apply list_elem_of_fmap. exists z. split; [| exact Hz].
  rewrite name_toolOf. symmetry. exact Hsame.
Qed.

Lemma distinct_names_index_every_operation_witness :
  buildOperationMap petStore (convertOpenAPIToMcTools petStore) !! "showPetById"
  = Some {| m_path := "/pets/{id}"; m_method := "get"; m_operation := petById;
            m_toolDefinition := toolOfOperation "/pets/{id}" "get" petById |}.
Proof.
  apply (distinct_names_index_every_operation petStore "/pets/{id}" "get" petById).
  - apply (bool_decide_unpack _). vm_compute. reflexivity.
  - left. reflexivity.
Defined.

(** ** Encoders: the characters they can produce *)

Lemma allChars_append (test : ascii -> bool) (s t : string) :
  allChars test (s +:+ t) = allChars test s && allChars test t.
Proof.
  induction s as [|c s IH]; simpl; [reflexivity |]. now rewrite IH, andb_assoc.
Qed.

Lemma allChars_encodeWith (test : ascii -> bool) (enc : ascii -> string) (s : string) :
  (forall c, allChars test (enc c) = true) ->
  allChars test (Http.encodeWith enc s) = true.
Proof.
  intros H. induction s as [|c s IH]; simpl; [reflexivity |].
  now rewrite allChars_append, H, IH.
Qed.

Lemma hexDigit_alphaNum (n : N) : (n < 16)%N -> Http.isAlphaNum (Http.hexDigit n) = true.
Proof.
  intros H. unfold Http.hexDigit.
  assert (Hcases : In n [0; 1; 2; 3; 4; 5; 6; 7; 8; 9; 10; 11; 12; 13; 14; 15]%N).
  { simpl. lia. }
  simpl in Hcases.
  repeat (destruct Hcases as [<- | Hcases]; [reflexivity |]). contradiction.
Qed.

Lemma utf8_bytes (c : ascii) : Forall (fun b => (b < 256)%N) (Http.utf8 c).
Proof.
  unfold Http.utf8. pose proof (N_ascii_bounded c) as Hc. unfold Js.code.
  destruct (N_of_ascii c <? 128)%N eqn:E.
  - repeat constructor. exact Hc.
  - repeat constructor.
    + assert (N_of_ascii c / 64 < 4)%N by (apply N.Div0.div_lt_upper_bound; lia). lia.
    + assert (N_of_ascii c mod 64 < 64)%N by (apply N.mod_lt; lia). lia.
Qed.

Lemma percent_safe (test : ascii -> bool) (b : N) :
  (forall c, Http.isAlphaNum c = true -> test c = true) ->
  test "%"%char = true ->
  (b < 256)%N ->
  allChars test (Http.percent b) = true.
Proof.
  intros Halnum Hpercent Hb. unfold Http.percent. simpl.
  rewrite Hpercent, !Halnum; [reflexivity | |].
  - apply hexDigit_alphaNum, N.mod_lt. lia.
  - apply hexDigit_alphaNum, N.Div0.div_lt_upper_bound. lia.
Qed.

Lemma percentEncode_safe (test keep : ascii -> bool) (c : ascii) :
  (forall c, keep c = true -> test c = true) ->
  (forall c, Http.isAlphaNum c = true -> test c = true) ->
  test "%"%char = true ->
  allChars test (Http.percentEncode keep c) = true.
Proof.
  intros Hkeep Halnum Hpercent. unfold Http.percentEncode.
  destruct (keep c) eqn:E; [simpl; now rewrite (Hkeep c E) |].
  pose proof (utf8_bytes c) as Hbytes.
  induction Hbytes as [|b bytes Hb _ IH]; cbn [fold_right]; [reflexivity |].
  now rewrite allChars_append, (percent_safe test b Halnum Hpercent Hb), IH.
Qed.

(** [encodeURIComponent] produces unreserved characters and percent signs
    only: no slash, question mark, hash, ampersand, brace or dollar sign. *)
Lemma encodeURIComponent_is_uri_safe (s : string) :
  allChars uriSafe (Http.encodeURIComponent s) = true
  /\ Forall (fun c => uriSafe c = false)
       ["/"; "?"; "#"; "&"; "="; "{"; "}"; "$"; " "]%char.
Proof.
  split; [| repeat constructor].
  apply allChars_encodeWith. intros c. apply percentEncode_safe.
  - intros c' H. unfold uriSafe. now rewrite H.
  - intros c' H. unfold uriSafe, Http.uriUnreserved. now rewrite H.
  - reflexivity.
Qed.

(** The query serializer produces, for a name or a value, letters, digits,
    [* - . _], plus and percent signs only. *)
Lemma formEncode_is_query_safe (s : string) :
  allChars formSafe (Http.formEncode s) = true
  /\ Forall (fun c => formSafe c = false) ["&"; "="; "#"; "?"; "/"; " "]%char.
Proof.
  split; [| repeat constructor].
  apply allChars_encodeWith. intros c. unfold Http.formEncodeChar.
  destruct (Js.code c =? 32)%N; [reflexivity |].
  apply percentEncode_safe.
  - intros c' H. unfold formSafe. now rewrite H.
  - intros c' H. unfold formSafe, Http.formKeep. now rewrite H.
  - reflexivity.
Qed.

(** ** The handler: what it throws, and when *)

Section HandlerErrors.

Variable headerValue : string -> string -> option string.
Variable JSON_stringify : Value -> Http.Try string.
Variable fetch : Http.Request -> Http.Try Http.Response.
Variable prettyPrint : string -> option string.
Variable headersJson : Http.Headers -> string.

Local Abbreviation invoke :=
  (callTool headerValue JSON_stringify fetch prettyPrint headersJson).
Local Abbreviation prepare := (prepareRequest headerValue JSON_stringify).
Local Abbreviation processBody := (processRequestBody JSON_stringify).



End HandlerErrors.


(** A header value with a line feed, which the header store of the sample
    rejects, stops the call before the request body is looked at and before
    any request: the error is the [TypeError] of the store, not a protocol
    error. *)
Example rejected_header_value_stops_the_call :
  Sample.invoke Sample.unreachable Sample.tagStore
    (Sample.call "findByTags" [("X-Trace", VString Sample2.twoLines)])
  = (Throw TypeError, []).
Proof. vm_compute. reflexivity. Qed.

(** So does an argument whose conversion to a string throws, also for a path
    parameter whose placeholder does not occur in the path. *)
Example unconvertible_argument_stops_the_call :
  Sample.invoke Sample.unreachable petStore
    (Sample.call "showPetById" [("id", VObject [("toString", VNumber "1")])])
  = (Throw TypeError, []).
Proof. vm_compute. reflexivity. Qed.

(** A required parameter whose name every object inherits is never reported
    missing: without any argument the inherited function is placed and the
    request goes out. *)
Example inherited_name_is_not_missing :
  argumentsOf (Sample.call "describe" []) !! "constructor" = None
  /\ fst (Sample.invoke Sample.unreachable Sample2.describeStore
            (Sample.call "describe" []))
     = Throw (McpError InternalError "API request failed: getaddrinfo ENOTFOUND")
  /\ length (snd (Sample.invoke Sample.unreachable Sample2.describeStore
                    (Sample.call "describe" []))) = 1.
Proof. repeat split; vm_compute; reflexivity. Qed.

(** ** The handler: the request it builds *)

Lemma processParameters_agree (headerValue : string -> string -> option string)
    (toolName : string) (args args' : gmap string Value)
    (params : list (ReferenceObject + ParameterObject)) (st : Placement) :
  (forall q, In (inr q) params -> args' !! param_name q = args !! param_name q) ->
  processParameters headerValue toolName args' params st
  = processParameters headerValue toolName args params st.
Proof.
  revert st. induction params as [|param params IH]; intros st H; [reflexivity |].
  cbn [processParameters].
  assert (Hhead : processParameter headerValue toolName args' st param
                  = processParameter headerValue toolName args st param).
  { destruct param as [ref | q]; [reflexivity |]. simpl. unfold PlainObject.get.
    now rewrite (H q (or_introl eq_refl)). }
  rewrite Hhead.
  destruct (processParameter headerValue toolName args st param); simpl; [| reflexivity].
  apply IH. intros q Hq. apply H. now right.
Qed.

Lemma toString_truthy (q : Http.URLSearchParams) :
  Js.truthyString (Http.toString q) = match q with [] => false | _ => true end.
Proof.
  destruct q as [|[n v] q]; [reflexivity |].
  unfold Http.toString. cbn [map].
  assert (H : Js.truthyString (Http.formEncode n +:+ "=" +:+ Http.formEncode v) = true)
    by (destruct (Http.formEncode n); reflexivity).
  destruct (map _ q) as [|p rest]; cbn [Js.join]; [exact H |].
  destruct (Http.formEncode n +:+ "=" +:+ Http.formEncode v); [discriminate | reflexivity].
Qed.

Lemma allChars_join (test : ascii -> bool) (sep : string) (parts : list string) :
  allChars test sep = true ->
  Forall (fun p => allChars test p = true) parts ->
  allChars test (Js.join sep parts) = true.
Proof.
  intros Hsep. induction 1 as [|p parts Hp Hparts IH]; [reflexivity |].
  destruct parts as [|q parts]; [exact Hp |].
  change (Js.join sep (p :: q :: parts)) with (p +:+ sep +:+ Js.join sep (q :: parts)).
  now rewrite !allChars_append, Hp, Hsep, IH.
Qed.

Lemma allChars_weaken (test test' : ascii -> bool) (s : string) :
  (forall c, test c = true -> test' c = true) ->
  allChars test s = true -> allChars test' s = true.
Proof.
  intros H. induction s as [|c s IH]; simpl; [reflexivity |].
  intros [Hc Hs]%andb_true_iff. now rewrite (H c Hc), IH.
Qed.

Lemma toString_querySafe (q : Http.URLSearchParams) :
  allChars querySafe (Http.toString q) = true.
Proof.
  assert (Hform : forall s, allChars querySafe (Http.formEncode s) = true).
  { intros s. apply (allChars_weaken formSafe); [| apply formEncode_is_query_safe].
    intros c H. unfold querySafe. now rewrite H. }
  unfold Http.toString. apply allChars_join; [reflexivity |].
  apply Forall_forall. intros p Hp.
  apply list_elem_of_fmap in Hp as [[n v] [-> _]].
  now rewrite !allChars_append, !Hform.
Qed.

Section HandlerRequests.

Variable headerValue : string -> string -> option string.
Variable JSON_stringify : Value -> Http.Try string.
Variable fetch : Http.Request -> Http.Try Http.Response.
Variable prettyPrint : string -> option string.
Variable headersJson : Http.Headers -> string.

Local Abbreviation invoke :=
  (callTool headerValue JSON_stringify fetch prettyPrint headersJson).
Local Abbreviation prepare := (prepareRequest headerValue JSON_stringify).
Local Abbreviation processBody := (processRequestBody JSON_stringify).

(** A name that no published tool carries is not found: the handler throws
    [MethodNotFound] with the name in the message and issues no request. *)
Theorem unknown_tool_is_not_found (apiSpec : Document) (baseUrl : string)
    (request : CallToolRequest) :
  (forall tool,
      In tool (createListToolsHandler (convertOpenAPIToMcTools apiSpec)) ->
      name tool <> call_name request) ->
  invoke (createCallToolHandler None apiSpec (convertOpenAPIToMcTools apiSpec))
    baseUrl request
  = (Throw (McpError MethodNotFound ("Tool '" +:+ call_name request +:+ "' not found.")),
     []).
Proof.
  intros Hnone. apply callTool_throw. unfold prepareRequest, createCallToolHandler.
  destruct (buildOperationMap apiSpec (convertOpenAPIToMcTools apiSpec)
              !! call_name request) as [mapping|] eqn:Hres; [| reflexivity].
  exfalso.
  apply index_lookup_inv in Hres as (ops1 & o & ops2 & Hops & Hn & _ & _).
  apply (Hnone (toolOf o)); [| now rewrite name_toolOf].
  unfold createListToolsHandler. rewrite convert_operations, Hops, map_app. apply in_elt.
Qed.

(** The handler reads the argument bag only under the names of the declared
    parameters and under [requestBody]: two calls of a tool whose bags agree
    there have the same outcome and issue the same request. *)
Theorem undeclared_arguments_are_ignored
    (operationMap : gmap string ToolOperationMapping) (baseUrl : string)
    (request request' : CallToolRequest) :
  call_name request' = call_name request ->
  (forall mapping q,
      operationMap !! call_name request = Some mapping ->
      In (inr q) (parameterList (m_operation mapping)) ->
      argumentsOf request' !! param_name q = argumentsOf request !! param_name q) ->
  argumentsOf request' !! "requestBody" = argumentsOf request !! "requestBody" ->
  invoke (Some operationMap) baseUrl request' = invoke (Some operationMap) baseUrl request.
Proof.
  intros Hname Hparams Hbody.
  assert (Hprep : prepare (Some operationMap) baseUrl request'
                  = prepare (Some operationMap) baseUrl request).
  { destruct (operationMap !! call_name request) as [mapping|] eqn:Hres.
    - rewrite (prepareRequest_resolved _ _ _ _ _ _ Hres).
      rewrite <- Hname in Hres. rewrite (prepareRequest_resolved _ _ _ _ _ _ Hres).
      rewrite Hname in *.
      rewrite (processParameters_agree _ _ (argumentsOf request) (argumentsOf request'))
        by (intros q Hq; now apply (Hparams mapping)).
      destruct (processParameters _ _ _ _ _) as [st|e]; [| reflexivity]. simpl.
      unfold processRequestBody. now rewrite !get_requestBody, Hbody.
    - unfold prepareRequest. now rewrite Hname, Hres. }
  unfold callTool. now rewrite Hprep.
Qed.

(** A required request body without a [requestBody] argument: once the loop
    over the parameters has completed, the handler throws [InvalidParams] for
    the missing body, whatever content types the body declares, and issues no
    request. *)
Theorem missing_required_request_body
    (operationMap : gmap string ToolOperationMapping) (baseUrl : string)
    (request : CallToolRequest) (mapping : ToolOperationMapping)
    (body : RequestBodyObject) (st : Placement) :
  operationMap !! call_name request = Some mapping ->
  processParameters headerValue (call_name request) (argumentsOf request)
    (parameterList (m_operation mapping)) (initialPlacement (m_path mapping))
  = Return st ->
  requestBody (m_operation mapping) = Some (inr body) ->
  body_required body = true ->
  argumentsOf request !! "requestBody" = None ->
  invoke (Some operationMap) baseUrl request
  = (Throw (McpError InvalidParams
              ("Missing required requestBody for tool '" +:+ call_name request +:+ "'.")),
     []).
Proof.
  intros Hres Hrun Hbody Hreq Harg. apply callTool_throw.
  rewrite (prepareRequest_parameters_done _ JSON_stringify _ baseUrl _ _ _ Hres Hrun).
  unfold processRequestBody. now rewrite Hbody, get_requestBody, Harg, Hreq.
Qed.

(** A [requestBody] argument for an operation with an [application/json]
    body, once the loop over the parameters has completed: the request
    carries the serialized text as its body and the content type
    [application/json], which replaces whatever a header parameter put under
    that name; the method is the upper-case method of the operation; and this
    one request is issued. *)
Theorem json_body_is_sent
    (operationMap : gmap string ToolOperationMapping) (baseUrl : string)
    (request : CallToolRequest) (mapping : ToolOperationMapping)
    (body : RequestBodyObject) (media : MediaTypeObject) (v : Value) (text : string)
    (st : Placement) :
  operationMap !! call_name request = Some mapping ->
  processParameters headerValue (call_name request) (argumentsOf request)
    (parameterList (m_operation mapping)) (initialPlacement (m_path mapping))
  = Return st ->
  requestBody (m_operation mapping) = Some (inr body) ->
  body_content body ≫= (.!! "application/json") = Some media ->
  argumentsOf request !! "requestBody" = Some v ->
  JSON_stringify v = Http.Ok text ->
  exists req,
    prepare (Some operationMap) baseUrl request = Return req
    /\ snd (invoke (Some operationMap) baseUrl request) = [req]
    /\ Http.req_body req = Some text
    /\ Http.req_headers req !! "content-type" = Some "application/json"
    /\ Http.req_method req = Js.toUpperCase (m_method mapping).
Proof.
  intros Hres Hrun Hbody Hjson Harg Htext.
  pose proof (prepareRequest_parameters_done _ JSON_stringify _ baseUrl _ _ _ Hres Hrun)
    as Hprep.
  assert (Hsent : processBody (call_name request) (argumentsOf request)
                    (m_operation mapping) (headers st)
                  = Return (Some text,
                            Http.setHeader "Content-Type" "application/json" (headers st)))
    by (unfold processRequestBody; now rewrite Hbody, get_requestBody, Harg, Hjson, Htext).
  rewrite Hsent in Hprep. cbn [bind fst snd] in Hprep.
  eexists. split; [exact Hprep |].
  rewrite (callTool_return _ _ _ _ _ _ _ _ _ Hprep).
  cbn [snd Http.req_body Http.req_headers Http.req_method].
  repeat split. unfold Http.setHeader. apply lookup_insert_eq.
Qed.

(** An operation that declares no request body, or only a reference to one,
    never sends a body: once the loop over the parameters has completed, the
    request goes out without body, whether or not the argument bag holds a
    [requestBody]. *)
Theorem undeclared_request_body_is_not_sent
    (operationMap : gmap string ToolOperationMapping) (baseUrl : string)
    (request : CallToolRequest) (mapping : ToolOperationMapping) (st : Placement) :
  operationMap !! call_name request = Some mapping ->
  processParameters headerValue (call_name request) (argumentsOf request)
    (parameterList (m_operation mapping)) (initialPlacement (m_path mapping))
  = Return st ->
  (requestBody (m_operation mapping) = None
   \/ exists ref, requestBody (m_operation mapping) = Some (inl ref)) ->
  exists req,
    prepare (Some operationMap) baseUrl request = Return req
    /\ snd (invoke (Some operationMap) baseUrl request) = [req]
    /\ Http.req_body req = None
    /\ Http.req_headers req = headers st.
Proof.
  intros Hres Hrun Hbody.
  pose proof (prepareRequest_parameters_done _ JSON_stringify _ baseUrl _ _ _ Hres Hrun)
    as Hprep.
  assert (Hnone : processBody (call_name request) (argumentsOf request)
                    (m_operation mapping) (headers st) = Return (None, headers st))
    by (unfold processRequestBody; destruct Hbody as [-> | [ref ->]]; reflexivity).
  rewrite Hnone in Hprep. cbn [bind fst snd] in Hprep. eexists. split; [exact Hprep |].
  rewrite (callTool_return _ _ _ _ _ _ _ _ _ Hprep).
  cbn [snd Http.req_body Http.req_headers]. auto.
Qed.

(** The URL of the request is the base URL, the processed path and, only
    when at least one query pair was placed, a question mark and the
    serialized pairs; the serialized pairs hold no character outside letters,
    digits and [* - . _ + % & =]. *)
Theorem request_url_shape
    (operationMap : gmap string ToolOperationMapping) (baseUrl : string)
    (request : CallToolRequest) (mapping : ToolOperationMapping) (req : Http.Request) :
  operationMap !! call_name request = Some mapping ->
  prepare (Some operationMap) baseUrl request = Return req ->
  exists st,
    processParameters headerValue (call_name request) (argumentsOf request)
      (parameterList (m_operation mapping))
      (mkPlacement (m_path mapping) [] (Http.setHeader "Accept" "application/json" ∅))
    = Return st
    /\ Http.req_url req
       = baseUrl +:+ processedPath st
         +:+ match queryParams st with
             | [] => ""
             | _ => "?" +:+ Http.toString (queryParams st)
             end
    /\ allChars querySafe (Http.toString (queryParams st)) = true.
Proof.
  intros Hres Hprep. rewrite (prepareRequest_resolved _ _ _ _ _ _ Hres) in Hprep.
  destruct (processParameters _ _ _ _ _) as [st|e]; [| discriminate]. simpl in Hprep.
  destruct (processBody _ _ _ _) as [bh|e]; [| discriminate]. simpl in Hprep.
  injection Hprep as <-. exists st. split; [reflexivity |].
  split; [| apply toString_querySafe]. simpl.
  rewrite toString_truthy. destruct (queryParams st); reflexivity.
Qed.

End HandlerRequests.

(** ** The loop over the parameters: one slot for each location *)

Section Locations.

Variable headerValue : string -> string -> option string.

(** Whether a placement returns does not depend on the request under
    construction; the placement of a location writes the slot of that
    location and no other. *)
Lemma place_located (location : string) (q : ParameterObject) (v : Value)
    (st sa st1 : Placement) :
  param_in q = location ->
  agreeOn location st sa ->
  place headerValue q v st = Return st1 ->
  exists sa1,
    place headerValue q v sa = Return sa1
    /\ agreeOn location st1 sa1 /\ agreeOff location sa1 sa.
Proof.
  intros <- (Hp & Hq & Hh). unfold agreeOn, agreeOff, place.
  destruct (String.eqb (param_in q) "path") eqn:Epath.
  { apply String.eqb_eq in Epath. rewrite Epath in *.
    destruct (stringOf v) as [text|e]; simpl; [| discriminate].
    intros [= <-]. eexists. split; [reflexivity |]. simpl.
    rewrite (Hp eq_refl). repeat split; congruence. }
  destruct (String.eqb (param_in q) "query") eqn:Equery.
  { apply String.eqb_eq in Equery. rewrite Equery in *. rewrite (Hq eq_refl).
    assert (Hset :
      (text <- stringOf v ;;
       Return (mkPlacement (processedPath st)
                 (Http.set (param_name q) text (queryParams sa)) (headers st)))
      = Return st1 ->
      exists sa1,
        (text <- stringOf v ;;
         Return (mkPlacement (processedPath sa)
                   (Http.set (param_name q) text (queryParams sa)) (headers sa)))
        = Return sa1
        /\ (("query" = "path" -> processedPath st1 = processedPath sa1)
            /\ ("query" = "query" -> queryParams st1 = queryParams sa1)
            /\ ("query" = "header" -> headers st1 = headers sa1))
        /\ (("query" <> "path" -> processedPath sa1 = processedPath sa)
            /\ ("query" <> "query" -> queryParams sa1 = queryParams sa)
            /\ ("query" <> "header" -> headers sa1 = headers sa))).
    { destruct (stringOf v) as [text|e]; simpl; [| discriminate].
      intros [= <-]. eexists. split; [reflexivity |]. simpl. repeat split; congruence. }
    destruct v; try exact Hset.
    destruct (appendEach _ _ _) as [q'|e]; simpl; [| discriminate].
    intros [= <-]. eexists. split; [reflexivity |]. simpl. repeat split; congruence. }
  destruct (String.eqb (param_in q) "header") eqn:Eheader.
  { apply String.eqb_eq in Eheader. rewrite Eheader in *.
    destruct (stringOf v) as [text|e]; simpl; [| discriminate].
    destruct (headerValue (param_name q) text) as [value|]; [| discriminate].
    intros [= <-]. eexists. split; [reflexivity |]. simpl.
    rewrite (Hh eq_refl). repeat split; congruence. }
  intros [= <-]. eexists. split; [reflexivity |]. repeat split; auto.
Qed.

Lemma place_elsewhere (location : string) (q : ParameterObject) (v : Value)
    (st sa st1 : Placement) :
  param_in q <> location ->
  agreeOn location st sa ->
  place headerValue q v st = Return st1 ->
  agreeOn location st1 sa.
Proof.
  intros Hne (Hp & Hq & Hh). unfold agreeOn, place.
  destruct (String.eqb (param_in q) "path") eqn:Epath.
  { apply String.eqb_eq in Epath.
    destruct (stringOf v) as [text|e]; simpl; [| discriminate].
    intros [= <-]. simpl. repeat split; auto. congruence. }
  destruct (String.eqb (param_in q) "query") eqn:Equery.
  { apply String.eqb_eq in Equery.
    assert (Hset :
      (text <- stringOf v ;;
       Return (mkPlacement (processedPath st)
                 (Http.set (param_name q) text (queryParams st)) (headers st)))
      = Return st1 ->
      (location = "path" -> processedPath st1 = processedPath sa)
      /\ (location = "query" -> queryParams st1 = queryParams sa)
      /\ (location = "header" -> headers st1 = headers sa)).
    { destruct (stringOf v) as [text|e]; simpl; [| discriminate].
      intros [= <-]. simpl. repeat split; auto. congruence. }
    destruct v; try exact Hset.
    destruct (appendEach _ _ _) as [q'|e]; simpl; [| discriminate].
    intros [= <-]. simpl. repeat split; auto. congruence. }
  destruct (String.eqb (param_in q) "header") eqn:Eheader.
  { apply String.eqb_eq in Eheader.
    destruct (stringOf v) as [text|e]; simpl; [| discriminate].
    destruct (headerValue (param_name q) text) as [value|]; [| discriminate].
    intros [= <-]. simpl. repeat split; auto. congruence. }
  intros [= <-]. repeat split; auto.
Qed.

Lemma agreeOff_trans (location : string) (a b c : Placement) :
  agreeOff location a b -> agreeOff location b c -> agreeOff location a c.
Proof.
  intros (H1 & H2 & H3) (K1 & K2 & K3). repeat split; intros H;
    [rewrite (H1 H) | rewrite (H2 H) | rewrite (H3 H)]; auto.
Qed.

Lemma processParameters_located (toolName : string) (args : gmap string Value)
    (location : string) (params : list (ReferenceObject + ParameterObject))
    (st sa st' : Placement) :
  agreeOn location st sa ->
  processParameters headerValue toolName args params st = Return st' ->
  exists s,
    processParameters headerValue toolName args (List.filter (located location) params) sa
    = Return s
    /\ agreeOn location st' s /\ agreeOff location s sa.
Proof.
  revert st sa. induction params as [|param params IH]; intros st sa Hagree; simpl.
  - intros [= <-]. exists sa. split; [reflexivity | split; [exact Hagree | repeat split]].
  - destruct param as [ref | q]; simpl; [now apply IH |].
    destruct (PlainObject.get args (param_name q)) as [v|] eqn:Harg.
    + destruct (place headerValue q v st) as [st1|e] eqn:Hplace; simpl; [| discriminate].
      intros Hrun. destruct (String.eqb (param_in q) location) eqn:Eloc.
      * apply String.eqb_eq in Eloc. simpl. rewrite Harg.
        destruct (place_located location q v st sa st1 Eloc Hagree Hplace)
          as (sa1 & -> & Hon & Hoff). simpl.
        destruct (IH _ _ Hon Hrun) as (s & Hs & Hon' & Hoff').
        exists s. repeat split; try assumption; try apply Hon'.
        all: apply (agreeOff_trans location s sa1 sa Hoff' Hoff).
      * apply String.eqb_neq in Eloc.
        apply (IH _ _ (place_elsewhere location q v st sa st1 Eloc Hagree Hplace) Hrun).
    + destruct (param_required q) eqn:Hreq; simpl; [discriminate |].
      intros Hrun. destruct (String.eqb (param_in q) location); [| now apply (IH st)].
      simpl. rewrite Harg, Hreq. simpl. now apply (IH st).
Qed.

Lemma processParameters_unplaced (toolName : string) (args : gmap string Value)
    (params : list (ReferenceObject + ParameterObject)) (st sa st' : Placement) :
  processParameters headerValue toolName args params st = Return st' ->
  processParameters headerValue toolName args
    (List.filter (fun p => negb (isPlaced p)) params) sa
  = Return sa.
Proof.
  revert st. induction params as [|param params IH]; intros st; simpl; [reflexivity |].
  destruct param as [ref | q]; simpl.
  - apply IH.
  - destruct (PlainObject.get args (param_name q)) as [v|] eqn:Harg; simpl.
    + destruct (place headerValue q v st) as [st1|e]; simpl; [| discriminate].
      intros Hrun.
      destruct (String.eqb (param_in q) "path") eqn:E1; simpl; [now apply (IH _ Hrun) |].
      destruct (String.eqb (param_in q) "query") eqn:E2; simpl; [now apply (IH _ Hrun) |].
      destruct (String.eqb (param_in q) "header") eqn:E3; simpl; [now apply (IH _ Hrun) |].
      rewrite Harg. unfold place. rewrite E1, E2, E3. simpl. now apply (IH _ Hrun).
    + destruct (param_required q) eqn:Hreq; simpl; [discriminate |].
      intros Hrun. destruct (negb _); simpl; [| now apply (IH _ Hrun)].
      rewrite Harg, Hreq. simpl. now apply (IH _ Hrun).
Qed.

(** When the loop over the parameters completes, each location has filled
    its own slot and no other: the path parameters alone give the processed
    path, the query parameters alone the query pairs, the header parameters
    alone the headers, and the remaining parameters (cookies, unknown
    locations, references) change nothing. *)
Theorem each_location_fills_its_own_slot (toolName : string) (args : gmap string Value)
    (params : list (ReferenceObject + ParameterObject)) (st st' : Placement) :
  processParameters headerValue toolName args params st = Return st' ->
  processParameters headerValue toolName args (List.filter (located "path") params) st
  = Return (mkPlacement (processedPath st') (queryParams st) (headers st))
  /\ processParameters headerValue toolName args (List.filter (located "query") params) st
     = Return (mkPlacement (processedPath st) (queryParams st') (headers st))
  /\ processParameters headerValue toolName args (List.filter (located "header") params) st
     = Return (mkPlacement (processedPath st) (queryParams st) (headers st'))
  /\ processParameters headerValue toolName args
       (List.filter (fun p => negb (isPlaced p)) params) st
     = Return st.
Proof.
  intros Hrun.
  assert (Hself : forall location, agreeOn location st st) by (intros l; repeat split).
  split; [| split; [| split]].
  - destruct (processParameters_located _ _ "path" _ _ _ _ (Hself _) Hrun)
      as ([pp qq hh] & -> & (H1 & _ & _) & (_ & H2 & H3)).
    simpl in *. rewrite <- (H1 eq_refl), (H2 ltac:(discriminate)), (H3 ltac:(discriminate)).
    reflexivity.
  - destruct (processParameters_located _ _ "query" _ _ _ _ (Hself _) Hrun)
      as ([pp qq hh] & -> & (_ & H1 & _) & (H2 & _ & H3)).
    simpl in *. rewrite <- (H1 eq_refl), (H2 ltac:(discriminate)), (H3 ltac:(discriminate)).
    reflexivity.
  - destruct (processParameters_located _ _ "header" _ _ _ _ (Hself _) Hrun)
      as ([pp qq hh] & -> & (_ & _ & H1) & (H2 & H3 & _)).
    simpl in *. rewrite <- (H1 eq_refl), (H2 ltac:(discriminate)), (H3 ltac:(discriminate)).
    reflexivity.
  - exact (processParameters_unplaced _ _ _ _ _ _ Hrun).
Qed.

End Locations.

(** ** Path parameters *)

Lemma replaceFirst_eq (pattern replacement s : string) :
  replaceFirst pattern replacement s
  = if String.prefix pattern s
    then replacement +:+ dropString (String.length pattern) s
    else match s with
         | EmptyString => EmptyString
         | String c s' => String c (replaceFirst pattern replacement s')
         end.
Proof. destruct s; reflexivity. Qed.

Lemma prefix_append (pattern rest : string) : String.prefix pattern (pattern +:+ rest) = true.
Proof.
  induction pattern as [|c pattern IH]; simpl; [now destruct rest |].
  destruct (ascii_dec c c); [exact IH | contradiction].
Qed.

Lemma dropString_append (pattern rest : string) :
  dropString (String.length pattern) (pattern +:+ rest) = rest.
Proof. induction pattern as [|c pattern IH]; simpl; [now destruct rest | exact IH]. Qed.

Lemma includes_eq (sub s : string) :
  includes sub s
  = (String.prefix sub s
     || match s with
        | EmptyString => false
        | String _ s' => includes sub s'
        end).
Proof. destruct s; reflexivity. Qed.

(** Without occurrence of the pattern, nothing is replaced. *)
Lemma replaceFirst_absent (pattern replacement s : string) :
  includes pattern s = false -> replaceFirst pattern replacement s = s.
Proof.
  induction s as [|c s IH]; rewrite includes_eq, replaceFirst_eq;
    intros [H1 H2]%orb_false_iff; rewrite H1; [reflexivity |].
  now rewrite (IH H2).
Qed.

Lemma append_nil_l (t : string) : "" +:+ t = t.
Proof. reflexivity. Qed.

Lemma append_cons (c : ascii) (s t : string) : String c s +:+ t = String c (s +:+ t).
Proof. reflexivity. Qed.

Lemma string_app_assoc (a b c : string) : (a +:+ b) +:+ c = a +:+ b +:+ c.
Proof.
  induction a as [|x a IH]; [reflexivity |]. now rewrite !append_cons, IH.
Qed.

Lemma replaceFirst_here (pattern replacement after : string) :
  replaceFirst pattern replacement (pattern +:+ after) = replacement +:+ after.
Proof. now rewrite replaceFirst_eq, prefix_append, dropString_append. Qed.

Lemma replaceFirst_skip (pattern replacement : string) (c : ascii) (s : string) :
  String.prefix pattern (String c s) = false ->
  replaceFirst pattern replacement (String c s)
  = String c (replaceFirst pattern replacement s).
Proof. intros H. now rewrite replaceFirst_eq, H. Qed.

(** A placeholder after a text without opening brace is the first
    occurrence. *)
Lemma replaceFirst_placeholder (n replacement before after : string) :
  noBrace before = true ->
  replaceFirst ("{" +:+ n +:+ "}") replacement
    (before +:+ "{" +:+ n +:+ "}" +:+ after)
  = before +:+ replacement +:+ after.
Proof.
  assert (Happ : "{" +:+ n +:+ "}" +:+ after = ("{" +:+ n +:+ "}") +:+ after)
    by now rewrite !string_app_assoc.
  rewrite Happ. intros Hb. induction before as [|c before IH].
  - rewrite !append_nil_l. apply replaceFirst_here.
  - cbn [noBrace allChars] in Hb. apply andb_true_iff in Hb as [Hc Hb].
    apply negb_true_iff in Hc. rewrite !(append_cons c before).
    rewrite replaceFirst_skip; [now rewrite (IH Hb) |].
    rewrite (append_cons "{"). cbn [String.prefix].
    destruct (ascii_dec "{" c) as [<- | Hne]; [discriminate Hc | reflexivity].
Qed.

(** The placement of a path parameter converts the argument to a string
    before it looks at the path.  When the placement returns, the conversion
    has succeeded; the placeholder, when it is the first brace of the path,
    is replaced by the encoded string form of the argument, which holds
    unreserved characters and percent signs only (no slash, question mark or
    hash), and the text before and after, the query pairs and the headers
    stay; when the placeholder does not occur in the path, nothing changes.
    When the conversion throws, the placement throws its [TypeError], also
    when the placeholder does not occur in the path. *)
Theorem path_parameter_substitution (headerValue : string -> string -> option string)
    (p : ParameterObject) (v : Value) (st : Placement) :
  param_in p = "path" ->
  (forall st',
      place headerValue p v st = Return st' ->
      Json.convertible v = true
      /\ (forall before after,
            processedPath st = before +:+ "{" +:+ param_name p +:+ "}" +:+ after ->
            noBrace before = true ->
            st' = mkPlacement
                    (before +:+ Http.encodeURIComponent (Json.toString v) +:+ after)
                    (queryParams st) (headers st))
      /\ (includes ("{" +:+ param_name p +:+ "}") (processedPath st) = false ->
          st' = st))
  /\ (Json.convertible v = false -> place headerValue p v st = Throw TypeError)
  /\ allChars uriSafe (Http.encodeURIComponent (Json.toString v)) = true
  /\ Forall (fun c => uriSafe c = false) ["/"; "?"; "#"; "&"; "="; "{"; "}"; "$"; " "]%char.
Proof.
  intros Hpath. unfold place, stringOf. rewrite Hpath. cbn [String.eqb Ascii.eqb Bool.eqb].
  split; [| split; [| split]].
  - destruct (Json.convertible v); simpl; [| discriminate].
    intros st' [= <-]. split; [reflexivity | split].
    + intros before after Hst Hb. now rewrite Hst, replaceFirst_placeholder by exact Hb.
    + intros Habsent. rewrite replaceFirst_absent by exact Habsent. now destruct st.
  - now intros ->.
  - exact (proj1 (encodeURIComponent_is_uri_safe _)).
  - exact (proj2 (encodeURIComponent_is_uri_safe "")).
Qed.

Lemma path_parameter_substitution_witness :
  place Sample.headerValue
    (mkParameter "id" "path" true None (Some Sample.integerSchema))
    (VString "a/b c") (mkPlacement "/pets/{id}/toys" [] ∅)
  = Return (mkPlacement "/pets/a%2Fb%20c/toys" [] ∅)
  /\ mkPlacement "/pets/a%2Fb%20c/toys" [] ∅
     = mkPlacement
         ("/pets/" +:+ Http.encodeURIComponent (Json.toString (VString "a/b c"))
          +:+ "/toys") [] ∅.
Proof.
  split; [reflexivity |].
  destruct (path_parameter_substitution Sample.headerValue
              (mkParameter "id" "path" true None (Some Sample.integerSchema))
              (VString "a/b c") (mkPlacement "/pets/{id}/toys" [] ∅) eq_refl)
    as (H & _).
  destruct (H (mkPlacement "/pets/a%2Fb%20c/toys" [] ∅) eq_refl) as (_ & Hsub & _).
  apply (Hsub "/pets/" "/toys"); reflexivity.
Defined.

(** ** Parser *)

Section ParserProperties.

Variable readFileSync : string -> Http.Try string.
Variable extname : string -> string.
Variable yaml_load : string -> Http.Try Value.
Variable JSON_parse : string -> Http.Try Value.
Variable validate : Value -> Http.Try ParsedSpec.

Local Abbreviation parse := (parseOpenAPISpec readFileSync extname yaml_load JSON_parse validate).
Local Abbreviation body := (parseBody readFileSync extname yaml_load JSON_parse validate).

Lemma parseBody_Ok (filePath : string) (api : ParsedSpec) :
  body filePath = Http.Ok api ->
  isVersion3 (spec_openapi api) = true
  /\ exists fileContent specObject,
       readFileSync filePath = Http.Ok fileContent
       /\ validate specObject = Http.Ok api
       /\ ((In (Js.toLowerCase (extname filePath)) [".yaml"; ".yml"]
            /\ yaml_load fileContent = Http.Ok specObject)
           \/ (Js.toLowerCase (extname filePath) = ".json"
               /\ JSON_parse fileContent = Http.Ok specObject)).
Proof.
  unfold parseBody.
  destruct (readFileSync filePath) as [fileContent | m]; [| discriminate].
  set (ext := Js.toLowerCase (extname filePath)).
  assert (Hobject : forall specObject,
            (if String.eqb ext ".yaml" || String.eqb ext ".yml"
             then yaml_load fileContent
             else if String.eqb ext ".json" then JSON_parse fileContent
                  else Http.Failed (unsupportedExtension ext)) = Http.Ok specObject ->
            (In ext [".yaml"; ".yml"] /\ yaml_load fileContent = Http.Ok specObject)
            \/ (ext = ".json" /\ JSON_parse fileContent = Http.Ok specObject)).
  { intros specObject.
    destruct (String.eqb ext ".yaml") eqn:E1;
      [apply String.eqb_eq in E1; simpl; intros H; left; split; [now left | exact H] |].
    destruct (String.eqb ext ".yml") eqn:E2;
      [apply String.eqb_eq in E2; simpl; intros H; left; split; [right; now left | exact H] |].
    destruct (String.eqb ext ".json") eqn:E3; simpl; [| discriminate].
    apply String.eqb_eq in E3. intros H. right. auto. }
  destruct (if String.eqb ext ".yaml" || String.eqb ext ".yml" then _ else _)
    as [specObject | m] eqn:Hspec; [| discriminate].
  destruct (validate specObject) as [api' | m] eqn:Hvalid; [| discriminate].
  destruct (isVersion3 (spec_openapi api')) eqn:Hv3; [| discriminate].
  intros [= <-]. split; [exact Hv3 |].
  exists fileContent, specObject. repeat split; [exact Hvalid |].
  now apply Hobject.
Qed.

(** A document comes out of the parser only when the file was read, its
    extension is [.yaml], [.yml] or [.json] in any letter case, the matching
    parser and the validator accepted it, and the value under its [openapi]
    key is a string that starts with [3.]: a Swagger 2 document, which has no
    such key, is never returned. *)
Theorem parser_returns_only_version_3 (filePath : string) (api : ParsedSpec) :
  parse filePath = Http.Ok api ->
  (exists version,
      spec_openapi api = Some (VString version) /\ String.prefix "3." version = true)
  /\ exists fileContent specObject,
       readFileSync filePath = Http.Ok fileContent
       /\ validate specObject = Http.Ok api
       /\ ((In (Js.toLowerCase (extname filePath)) [".yaml"; ".yml"]
            /\ yaml_load fileContent = Http.Ok specObject)
           \/ (Js.toLowerCase (extname filePath) = ".json"
               /\ JSON_parse fileContent = Http.Ok specObject)).
Proof.
  unfold parseOpenAPISpec.
  destruct (body filePath) as [api' | m] eqn:Hbody; [| discriminate].
  intros [= <-]. destruct (parseBody_Ok _ _ Hbody) as [Hv3 Hrest]. split; [| exact Hrest].
  unfold isVersion3 in Hv3. destruct (spec_openapi api') as [[| | | version | | |]|];
    try discriminate. eauto.
Qed.

(** Every failure of the parser carries a message that starts with
    [Failed to parse OpenAPI spec: ], followed by the message of the read
    error, of the parse error, of the validation error, or by the text for an
    unsupported extension or for a version other than 3; and the file is read
    before its extension is looked at, so an unreadable file reports the read
    error whatever its extension. *)
Theorem parser_failures_are_wrapped (filePath message : string) :
  parse filePath = Http.Failed message ->
  exists cause,
    message = "Failed to parse OpenAPI spec: " +:+ cause
    /\ (readFileSync filePath = Http.Failed cause
        \/ exists fileContent,
             readFileSync filePath = Http.Ok fileContent
             /\ (yaml_load fileContent = Http.Failed cause
                 \/ JSON_parse fileContent = Http.Failed cause
                 \/ cause = unsupportedExtension (Js.toLowerCase (extname filePath))
                 \/ (exists specObject, validate specObject = Http.Failed cause)
                 \/ (exists specObject api,
                       validate specObject = Http.Ok api
                       /\ isVersion3 (spec_openapi api) = false
                       /\ cause = notVersion3 (spec_openapi api)))).
Proof.
  unfold parseOpenAPISpec, parseBody.
  destruct (readFileSync filePath) as [fileContent | m] eqn:Hread.
  2:{ intros [= <-]. exists m. auto. }
  set (ext := Js.toLowerCase (extname filePath)).
  destruct (String.eqb ext ".yaml" || String.eqb ext ".yml") eqn:Eyaml.
  - destruct (yaml_load fileContent) as [specObject | m] eqn:Hload.
    + destruct (validate specObject) as [api | m] eqn:Hvalid.
      * destruct (isVersion3 (spec_openapi api)) eqn:Hv3; [discriminate |].
        intros [= <-]. eexists. split; [reflexivity |]. right. exists fileContent.
        split; [reflexivity |]. do 4 right. exists specObject, api. auto.
      * intros [= <-]. exists m. split; [reflexivity |]. right. exists fileContent.
        split; [reflexivity |]. do 3 right. left. eauto.
    + intros [= <-]. exists m. split; [reflexivity |]. right. exists fileContent. auto.
  - destruct (String.eqb ext ".json") eqn:Ejson.
    + destruct (JSON_parse fileContent) as [specObject | m] eqn:Hload.
      * destruct (validate specObject) as [api | m] eqn:Hvalid.
        -- destruct (isVersion3 (spec_openapi api)) eqn:Hv3; [discriminate |].
           intros [= <-]. eexists. split; [reflexivity |]. right. exists fileContent.
           split; [reflexivity |]. do 4 right. exists specObject, api. auto.
        -- intros [= <-]. exists m. split; [reflexivity |]. right. exists fileContent.
           split; [reflexivity |]. do 3 right. left. eauto.
      * intros [= <-]. exists m. split; [reflexivity |]. right. exists fileContent. auto.
    + intros [= <-]. eexists. split; [reflexivity |]. right. exists fileContent.
      split; [reflexivity |]. right; right; left. reflexivity.
Qed.

End ParserProperties.

Lemma parser_returns_only_version_3_witness :
  exists version,
    Some (VString "3.0.3") = Some (VString version) /\ String.prefix "3." version = true.
Proof.
  destruct (parser_returns_only_version_3
              Sample2.readFileSync Sample2.extname Sample2.yaml_load Sample2.JSON_parse
              Sample2.validate "/specs/pets.YAML"
              {| spec_openapi := Some (VString "3.0.3"); spec_document := petStore |})
    as [H _]; [reflexivity | exact H].
Defined.

Lemma parser_failures_are_wrapped_witness :
  exists cause,
    "Failed to parse OpenAPI spec: Parsed specification is not a valid OpenAPI V3 document. Version found: N/A"
    = "Failed to parse OpenAPI spec: " +:+ cause.
Proof.
  destruct (parser_failures_are_wrapped
              Sample2.readFileSync Sample2.extname Sample2.yaml_load Sample2.JSON_parse
              Sample2.validateSwagger2 "/specs/pets.YAML"
              "Failed to parse OpenAPI spec: Parsed specification is not a valid OpenAPI V3 document. Version found: N/A")
    as [cause [H _]]; [reflexivity | exists cause; exact H].
Defined.

(** ** The further dispatch properties on the sample documents *)

Lemma each_location_fills_its_own_slot_witness :
  processParameters Sample.headerValue "findByTags"
    (list_to_map [("tags", VArray [VString "a"]); ("X-Trace", VString "t1")])
    (List.filter (located "header") (parameterList Sample.findByTags))
    (mkPlacement "/pets/findByTags" [] ∅)
  = Return (mkPlacement "/pets/findByTags" [] {[ "x-trace" := "t1" ]}).
Proof.
  destruct (each_location_fills_its_own_slot Sample.headerValue "findByTags"
              (list_to_map [("tags", VArray [VString "a"]); ("X-Trace", VString "t1")])
              (parameterList Sample.findByTags)
              (mkPlacement "/pets/findByTags" [] ∅)
              (mkPlacement "/pets/findByTags" [("tags", "a")] {[ "x-trace" := "t1" ]}))
    as (_ & _ & H & _).
  - vm_compute. reflexivity.
  - exact H.
Defined.

Lemma unknown_tool_is_not_found_witness :
  Sample.invoke Sample.unreachable petStore (Sample.call "deletePet" [])
  = (Throw (McpError MethodNotFound ("Tool '" +:+ "deletePet" +:+ "' not found.")), []).
Proof.
  apply (unknown_tool_is_not_found Sample.headerValue
           Sample.JSON_stringify Sample.unreachable Sample.prettyPrint Sample.headersJson
           petStore "https://api.example.com" (Sample.call "deletePet" [])).
  intros tool [<- | []]. discriminate.
Defined.

Lemma undeclared_arguments_are_ignored_witness :
  Sample.invoke Sample.unreachable petStore
    (Sample.call "showPetById" [("id", VNumber "3"); ("verbose", VBool true)])
  = Sample.invoke Sample.unreachable petStore
      (Sample.call "showPetById" [("id", VNumber "3")]).
Proof.
  apply (undeclared_arguments_are_ignored Sample.headerValue
           Sample.JSON_stringify Sample.unreachable Sample.prettyPrint Sample.headersJson
           (buildOperationMap petStore (convertOpenAPIToMcTools petStore))
           "https://api.example.com"
           (Sample.call "showPetById" [("id", VNumber "3")])
           (Sample.call "showPetById" [("id", VNumber "3"); ("verbose", VBool true)])).
  - reflexivity.
  - intros mapping q Hres Hq.
    assert (Hl : buildOperationMap petStore (convertOpenAPIToMcTools petStore)
                   !! "showPetById"
                 = Some (mappingOf ("/pets/{id}", "get", petById)))
      by (vm_compute; reflexivity).
    pose proof (eq_trans (eq_sym Hl) Hres) as Hm. injection Hm as <-. destruct Hq as [[= <-] | []]. vm_compute. reflexivity.
  - vm_compute. reflexivity.
Defined.

Lemma missing_required_request_body_witness :
  Sample.invoke Sample.unreachable Sample2.orderStore (Sample.call "createOrder" [])
  = (Throw (McpError InvalidParams
              ("Missing required requestBody for tool '" +:+ "createOrder" +:+ "'.")), []).
Proof.
  apply (missing_required_request_body Sample.headerValue
           Sample.JSON_stringify Sample.unreachable Sample.prettyPrint Sample.headersJson
           (buildOperationMap Sample2.orderStore (convertOpenAPIToMcTools Sample2.orderStore))
           "https://api.example.com" (Sample.call "createOrder" [])
           (mappingOf ("/orders", "post", Sample2.createOrder))
           {| body_description := Some "The order";
              body_content :=
                Some {[ "application/json" := mkMediaType (Some Sample.stringSchema) ]};
              body_required := true |}
           (initialPlacement "/orders")).
  - vm_compute. reflexivity.
  - reflexivity.
  - reflexivity.
  - reflexivity.
  - vm_compute. reflexivity.
Defined.

Lemma json_body_is_sent_witness :
  exists req,
    snd (Sample.invoke Sample.unreachable Sample2.orderStore
           (Sample.call "createOrder" [("requestBody", VString "tea")])) = [req]
    /\ Http.req_body req = Some (Sample.stringify (VString "tea"))
    /\ Http.req_headers req !! "content-type" = Some "application/json"
    /\ Http.req_method req = "POST".
Proof.
  destruct (json_body_is_sent Sample.headerValue
              Sample.JSON_stringify Sample.unreachable Sample.prettyPrint Sample.headersJson
              (buildOperationMap Sample2.orderStore
                 (convertOpenAPIToMcTools Sample2.orderStore))
              "https://api.example.com"
              (Sample.call "createOrder" [("requestBody", VString "tea")])
              (mappingOf ("/orders", "post", Sample2.createOrder))
              {| body_description := Some "The order";
                 body_content :=
                   Some {[ "application/json" := mkMediaType (Some Sample.stringSchema) ]};
                 body_required := true |}
              (mkMediaType (Some Sample.stringSchema))
              (VString "tea") (Sample.stringify (VString "tea"))
              (initialPlacement "/orders"))
    as (req & _ & H1 & H2 & H3 & H4).
  - vm_compute. reflexivity.
  - reflexivity.
  - reflexivity.
  - vm_compute. reflexivity.
  - vm_compute. reflexivity.
  - reflexivity.
  - exists req. auto.
Defined.

Lemma undeclared_request_body_is_not_sent_witness :
  exists req,
    snd (Sample.invoke Sample.unreachable petStore
           (Sample.call "showPetById" [("id", VNumber "3"); ("requestBody", VString "x")]))
    = [req]
    /\ Http.req_body req = None.
Proof.
  destruct (undeclared_request_body_is_not_sent Sample.headerValue
              Sample.JSON_stringify Sample.unreachable Sample.prettyPrint Sample.headersJson
              (buildOperationMap petStore (convertOpenAPIToMcTools petStore))
              "https://api.example.com"
              (Sample.call "showPetById" [("id", VNumber "3"); ("requestBody", VString "x")])
              (mappingOf ("/pets/{id}", "get", petById))
              (mkPlacement "/pets/3" [] {[ "accept" := "application/json" ]}))
    as (req & _ & H1 & H2 & _).
  - vm_compute. reflexivity.
  - vm_compute. reflexivity.
  - left. reflexivity.
  - exists req. auto.
Defined.

Lemma request_url_shape_witness :
  exists st,
    Http.req_url Sample.petRequest
    = "https://api.example.com" +:+ processedPath st
      +:+ match queryParams st with
          | [] => ""
          | _ => "?" +:+ Http.toString (queryParams st)
          end.
Proof.
  destruct (request_url_shape Sample.headerValue Sample.JSON_stringify
              (buildOperationMap petStore (convertOpenAPIToMcTools petStore))
              "https://api.example.com"
              (Sample.call "showPetById" [("id", VNumber "3")])
              (mappingOf ("/pets/{id}", "get", petById)) Sample.petRequest)
    as (st & _ & H & _).
  - vm_compute. reflexivity.
  - vm_compute. reflexivity.
  - exists st. exact H.
Defined.

(** ** Operation index over any tool list *)

Lemma toolMapByName_inv (tools : list Tool) (n : string) (tool : Tool) :
  toolMapByName tools !! n = Some tool -> In tool tools /\ name tool = n.
Proof.
  rewrite toolMapByName_fold. intros H.
  apply fold_insert_inv in H as (l1 & x & l2 & -> & Hn & [= ->] & _).
  split; [apply in_elt | exact Hn].
Qed.

(** Whatever tool list the index is built with, each of its entries binds a
    name to an operation of the document that derives this name and to a tool
    of the list that carries it: an operation without a tool of its name in
    the list gets no entry, and with an empty list the index is empty. *)
Theorem index_entries_come_from_the_tool_list (apiSpec : Document) (tools : list Tool)
    (n : string) (mapping : ToolOperationMapping) :
  buildOperationMap apiSpec tools !! n = Some mapping ->
  In (m_toolDefinition mapping) tools
  /\ name (m_toolDefinition mapping) = n
  /\ In (m_path mapping, m_method mapping, m_operation mapping) (operations apiSpec)
  /\ generateToolName (m_method mapping) (m_path mapping)
       (operationId (m_operation mapping)) = n.
Proof.
  rewrite index_operations. intros H.
  apply fold_insert_inv in H as (ops1 & o & ops2 & Hops & Hn & Ho & _).
  destruct o as [[path method] operation]. unfold indexEntry in Ho.
  destruct (toolMapByName tools !! nameOf (path, method, operation)) as [tool|] eqn:Ht;
    [| discriminate].
  injection Ho as <-. simpl.
  apply toolMapByName_inv in Ht as [Hin Hname].
  repeat split; [exact Hin | congruence | rewrite Hops; apply in_elt | exact Hn].
Qed.

Lemma index_entries_come_from_the_tool_list_witness :
  In (toolOfOperation "/pets/{id}" "get" petById) (convertOpenAPIToMcTools petStore)
  /\ name (toolOfOperation "/pets/{id}" "get" petById) = "showPetById".
Proof.
  destruct (index_entries_come_from_the_tool_list petStore (convertOpenAPIToMcTools petStore)
              "showPetById" (mappingOf ("/pets/{id}", "get", petById)))
    as (H1 & H2 & _); [vm_compute; reflexivity | split; assumption].
Defined.

(** ** Tool catalogue and handler: the request body *)

Lemma propertyOf_buildInputSchema_body (operation : OperationObject) :
  propertyOf "requestBody" (buildInputSchema operation)
  = propertyOf "requestBody"
      (addRequestBody
         match parameters operation with
         | Some params =>
             fold_left addParameter params
               (setRequired (Some [])
                  (setProperties (Some []) (setType (Some "object") emptySchema)))
         | None =>
             setRequired (Some [])
               (setProperties (Some []) (setType (Some "object") emptySchema))
         end (requestBody operation)).
Proof. unfold buildInputSchema. apply dropEmptyRequired_property. Qed.

(** A request body with an [application/json] schema is advertised as the
    property [requestBody], in place of any parameter of that name: the
    property is the translated schema, with the description of the body or a
    fixed text when the schema has none, and a required body is in the
    required list. *)
Theorem json_request_body_is_advertised (path method : string)
    (operation : OperationObject) (body : RequestBodyObject) (media : MediaTypeObject)
    (schema : Schema) :
  requestBody operation = Some (inr body) ->
  body_content body ≫= (.!! "application/json") = Some media ->
  media_schema media = Some schema ->
  let j := inputSchema (toolOfOperation path method operation) in
  objGet "requestBody" (default [] (js_properties j)) = Some (requestBodySchema body schema)
  /\ Js.truthyOpt (js_description (requestBodySchema body schema)) = true
  /\ (body_required body = true -> In "requestBody" (requiredNames j)).
Proof.
  intros Hbody Hjson Hschema. simpl. split; [| split].
  - change (propertyOf "requestBody" (buildInputSchema operation)
            = Some (requestBodySchema body schema)).
    rewrite propertyOf_buildInputSchema_body, Hbody. unfold addRequestBody.
    rewrite Hjson. simpl. rewrite Hschema.
    destruct (body_required body); rewrite ?propertyOf_pushRequired;
      now apply propertyOf_setProperty_same.
  - unfold requestBodySchema.
    destruct (Js.truthyOpt (js_description (translateNode schema))) eqn:E; simpl;
      [exact E |].
    destruct (Js.truthyOpt (body_description body)) eqn:Eb; [exact Eb | reflexivity].
  - intros Hreq. unfold buildInputSchema.
    match goal with
    | |- In _ (requiredNames (dropEmptyRequired ?j)) =>
        destruct (dropEmptyRequired_names j) as [_ ->]
    end.
    rewrite Hbody. unfold addRequestBody. rewrite Hjson. simpl. rewrite Hschema, Hreq.
    unfold requiredNames, pushRequired. simpl. apply in_app_iff. right. now left.
Qed.

Lemma json_request_body_is_advertised_witness :
  objGet "requestBody"
    (default [] (js_properties
                   (inputSchema (toolOfOperation "/orders" "post" Sample2.createOrder))))
  = Some (mkJSONSchema7 (Some "string") None (Some "The order") None None None None None).
Proof.
  destruct (json_request_body_is_advertised "/orders" "post" Sample2.createOrder
              {| body_description := Some "The order";
                 body_content :=
                   Some {[ "application/json" := mkMediaType (Some Sample.stringSchema) ]};
                 body_required := true |}
              (mkMediaType (Some Sample.stringSchema)) Sample.stringSchema)
    as (H & _).
  - reflexivity.
  - vm_compute. reflexivity.
  - reflexivity.
  - exact H.
Defined.

Section UnadvertisedBody.

Variable headerValue : string -> string -> option string.
Variable JSON_stringify : Value -> Http.Try string.
Variable fetch : Http.Request -> Http.Try Http.Response.
Variable prettyPrint : string -> option string.
Variable headersJson : Http.Headers -> string.

(** An [application/json] media type without schema: the converter leaves
    the body out of the input schema (no [requestBody] property, unless a
    parameter with a schema has that name), yet the handler, which only looks
    for the media type, serializes a [requestBody] argument and sends it,
    once the loop over the parameters has completed. *)
Theorem schemaless_json_body_is_sent_unadvertised
    (apiSpec : Document) (ops1 ops2 : list Encountered) (path method : string)
    (operation : OperationObject) (body : RequestBodyObject) (media : MediaTypeObject) :
  operations apiSpec = ops1 ++ (path, method, operation) :: ops2 ->
  Forall (fun later => nameOf later <> nameOf (path, method, operation)) ops2 ->
  requestBody operation = Some (inr body) ->
  body_content body ≫= (.!! "application/json") = Some media ->
  media_schema media = None ->
  Forall (noSchemaNamed "requestBody") (parameterList operation) ->
  let tool := toolOfOperation path method operation in
  objGet "requestBody" (default [] (js_properties (inputSchema tool))) = None
  /\ (forall (baseUrl : string) (args : gmap string Value) (v : Value) (text : string)
             (st : Placement),
        processParameters headerValue (name tool) args (parameterList operation)
          (initialPlacement path) = Return st ->
        args !! "requestBody" = Some v ->
        JSON_stringify v = Http.Ok text ->
        exists req,
          snd (callTool headerValue JSON_stringify fetch prettyPrint headersJson
                 (createCallToolHandler None apiSpec (convertOpenAPIToMcTools apiSpec))
                 baseUrl {| call_name := name tool; call_arguments := Some args |})
          = [req]
          /\ Http.req_body req = Some text).
Proof.
  intros Hops Hlast Hbody Hjson Hschema Hparams tool. split.
  - change (propertyOf "requestBody" (buildInputSchema operation) = None).
    rewrite propertyOf_buildInputSchema_body, Hbody. unfold addRequestBody.
    rewrite Hjson. simpl. rewrite Hschema.
    unfold parameterList in Hparams.
    destruct (parameters operation) as [params|]; simpl in Hparams; [| reflexivity].
    destruct (fold_addParameter_keeps "requestBody" params
                (setRequired (Some [])
                   (setProperties (Some []) (setType (Some "object") emptySchema)))
                Hparams) as [-> _].
    reflexivity.
  - intros baseUrl args v text st Hrun Harg Htext.
    pose proof (index_lookup_last apiSpec ops1 ops2 (path, method, operation) Hops Hlast)
      as Hres.
    pose proof (prepareRequest_parameters_done headerValue JSON_stringify
                  (buildOperationMap apiSpec (convertOpenAPIToMcTools apiSpec)) baseUrl
                  {| call_name := name tool; call_arguments := Some args |}
                  (mappingOf (path, method, operation)) st Hres Hrun) as Hprep.
    assert (Hsent : processRequestBody JSON_stringify (name tool) args operation (headers st)
                    = Return (Some text,
                              Http.setHeader "Content-Type" "application/json" (headers st)))
      by (unfold processRequestBody; now rewrite Hbody, get_requestBody, Harg, Hjson, Htext).
    cbn [call_name m_operation mappingOf] in Hprep.
    change (argumentsOf {| call_name := name tool; call_arguments := Some args |})
      with args in Hprep.
    rewrite Hsent in Hprep. cbn [bind fst snd] in Hprep.
    eexists. unfold createCallToolHandler.
    rewrite (callTool_return _ _ _ _ _ _ _ _ _ Hprep). cbn [snd Http.req_body]. auto.
Qed.

End UnadvertisedBody.

Lemma schemaless_json_body_is_sent_unadvertised_witness :
  objGet "requestBody"
    (default [] (js_properties (inputSchema (toolOfOperation "/attach" "put" Sample2.attach))))
  = None
  /\ exists req,
       snd (Sample.invoke Sample.unreachable Sample2.attachStore
              (Sample.call "attach" [("requestBody", VNumber "7")])) = [req]
       /\ Http.req_body req = Some "7".
Proof.
  destruct (schemaless_json_body_is_sent_unadvertised Sample.headerValue
              Sample.JSON_stringify Sample.unreachable Sample.prettyPrint Sample.headersJson
              Sample2.attachStore [] [] "/attach" "put" Sample2.attach
              {| body_description := None;
                 body_content := Some {[ "application/json" := mkMediaType None ]};
                 body_required := false |}
              (mkMediaType None))
    as (Hnone & Hsent).
  - reflexivity.
  - constructor.
  - reflexivity.
  - vm_compute. reflexivity.
  - reflexivity.
  - constructor.
  - split; [exact Hnone |].
    apply (Hsent "https://api.example.com" (list_to_map [("requestBody", VNumber "7")])
             (VNumber "7") "7" (initialPlacement "/attach"));
      [reflexivity | vm_compute; reflexivity | reflexivity].
Defined.
